(** * SmartShift: the candidate ranking engine and the coverage workflow

    A shallow embedding of
      - [backend/src/services/matching.ts]      (MatchingEngine),
      - [backend/src/services/notifications.ts] (NotificationService),
      - [backend/src/routes/sickcalls.ts]       (submit / respond / assign),
    over an explicit record store.  Prisma calls become operations of a
    small state-and-exception monad over the store; every write, every
    Twilio call, every socket.io emit and every [setImmediate] is appended
    to an effect log, in program order.

    Conventions.
      - A JavaScript [Date] is its [getTime()] value, a [Z] of milliseconds
        since the epoch.  The time zone of the process, in which date-fns
        and [setDate] compute, is part of the environment: local time is
        UTC plus [utcOffset], an offset that stays the same over the weeks
        and the thirty days that a ranking looks at.
      - A JavaScript string is the string of its UTF-8 bytes.  [trim] and
        [toUpperCase] are computed for ASCII text; on a text that holds a
        character outside ASCII their result is read from the environment
        ([trimUpperUnicode]), since the white space and the case mappings
        of Unicode are no part of this development.
      - Numbers are [Z]: every number below is an integer far inside the
        exactly representable range of a double.
      - Row ids are strings.  Prisma's id default is modelled by [freshId],
        which returns an id that the table does not hold yet.
      - Tables follow the rows that the routes read and write
        (shared/types.ts and the [data] objects of the Prisma calls); no
        foreign-key check is modelled, and database calls do not fail on
        their own.  Columns irrelevant to the workflow (password, hireDate,
        shift role, location rows) are left out, and rendered SMS texts
        stay symbolic ([SmsText]). *)

From Stdlib Require Import ZArith List String Ascii Bool Lia DecimalString.
From Stdlib Require Import Sorted Permutation.
Import ListNotations.

Open Scope string_scope.
Open Scope list_scope.
Open Scope Z_scope.

Definition Id := string.

(** ** shared/types.ts: the enumerations *)

Inductive UserRole := ADMIN | MANAGER | STAFF.

Module ShiftStatus.
Inductive t := SCHEDULED | SICK_CALL | COVERED | UNFILLED | CANCELLED.
Definition eqb (a b : t) : bool :=
  match a, b with
  | SCHEDULED, SCHEDULED | SICK_CALL, SICK_CALL | COVERED, COVERED
  | UNFILLED, UNFILLED | CANCELLED, CANCELLED => true
  | _, _ => false
  end.
End ShiftStatus.

Module SickCallStatus.
Inductive t := PENDING | NOTIFYING | COVERED | UNFILLED | CANCELLED.
Definition eqb (a b : t) : bool :=
  match a, b with
  | PENDING, PENDING | NOTIFYING, NOTIFYING | COVERED, COVERED
  | UNFILLED, UNFILLED | CANCELLED, CANCELLED => true
  | _, _ => false
  end.
End SickCallStatus.

Module NotificationStatus.
Inductive t := PENDING | SENT | DELIVERED | FAILED | RESPONDED.
Definition eqb (a b : t) : bool :=
  match a, b with
  | PENDING, PENDING | SENT, SENT | DELIVERED, DELIVERED
  | FAILED, FAILED | RESPONDED, RESPONDED => true
  | _, _ => false
  end.
End NotificationStatus.

Inductive ResponseType := ACCEPT | DECLINE | NO_RESPONSE.

Inductive NotificationType := SMS | EMAIL.

Inductive AuditAction := SICK_CALL_SUBMITTED | MANUAL_ASSIGNMENT | SHIFT_ACCEPTED.

(** ** The rows of the record store *)

Module User.
Record t := mk {
  id : Id;
  email : string;
  firstName : string;
  lastName : string;
  phone : option string;
  role : UserRole;
  active : bool;
  seniority : option Z;
  organizationId : Id
}.
End User.

Module Shift.
Record t := mk {
  id : Id;
  date : Z;
  startTime : Z;
  endTime : Z;
  status : ShiftStatus.t;
  locationId : Id;
  assignedToId : option Id;
  organizationId : Id
}.
End Shift.

Module SickCall.
Record t := mk {
  id : Id;
  staffId : Id;
  shiftId : Id;
  locationId : Id;
  reason : option string;
  status : SickCallStatus.t;
  consecutiveDates : list Z;
  coveredById : option Id;
  coveredAt : option Z;
  createdAt : Z;
  organizationId : Id
}.
End SickCall.

(** The text of an SMS, before rendering: the shift whose location, date
    and times are interpolated into the template. *)
Inductive SmsText :=
| OfferText (shift : Shift.t)
| ConfirmedText (shift : Shift.t)
| AvailableText (location date startTime endTime : string).

Module Notification.
Record t := mk {
  id : Id;
  sickCallId : Id;
  recipientId : Id;
  type : NotificationType;
  status : NotificationStatus.t;
  message : SmsText;
  sentAt : option Z;
  externalId : option string
}.
End Notification.

Module ShiftResponse.
Record t := mk {
  id : Id;
  sickCallId : Id;
  shiftId : Id;
  staffId : Id;
  responseType : ResponseType;
  responseText : string;
  createdAt : Z
}.
End ShiftResponse.

Inductive AuditDetails :=
| SubmittedDetails (shiftId locationId : Id) (reason : option string)
| AssignedDetails (staffId shiftId : Id) (reason : option string).

Module AuditLog.
Record t := mk {
  id : Id;
  organizationId : Id;
  userId : Id;
  sickCallId : Id;
  action : AuditAction;
  details : AuditDetails
}.
End AuditLog.

(** ** The ranking engine's value types (matching.ts, shared/types.ts) *)

Inductive Reason :=
| Available
| AlreadyWorking
| NoOvertime
| WouldBeOT (totalHoursWithShift : Z)
| SeniorityReason (seniority : Z)
| RecentPickups (recentPickupCount : Z).

Module MatchedCandidate.
Record t := mk {
  userId : Id;
  user : User.t;
  score : Z;
  rank : Z;
  reasons : list Reason;
  isAvailable : bool;
  willBeOvertime : bool;
  hoursWorkedThisWeek : Z
}.
End MatchedCandidate.

Record MatchingRules := mkRules {
  prioritizeAvailability : bool;
  avoidOvertime : bool;
  useSeniority : bool;
  useFairness : bool;
  overtimeThreshold : Z
}.

(** [Partial<MatchingRules>]: an absent key is [None]. *)
Record PartialRules := mkPartial {
  p_prioritizeAvailability : option bool;
  p_avoidOvertime : option bool;
  p_useSeniority : option bool;
  p_useFairness : option bool;
  p_overtimeThreshold : option Z
}.

Definition DEFAULT_RULES : MatchingRules :=
  {| prioritizeAvailability := true;
     avoidOvertime := true;
     useSeniority := true;
     useFairness := true;
     overtimeThreshold := 40 |}.

Definition noRules : PartialRules := mkPartial None None None None None.

Definition orDefault {A} (o : option A) (d : A) : A :=
  match o with Some a => a | None => d end.

(** [{ ...DEFAULT_RULES, ...rules }] *)
Definition spreadRules (d : MatchingRules) (r : PartialRules) : MatchingRules :=
  {| prioritizeAvailability := orDefault (p_prioritizeAvailability r) (prioritizeAvailability d);
     avoidOvertime := orDefault (p_avoidOvertime r) (avoidOvertime d);
     useSeniority := orDefault (p_useSeniority r) (useSeniority d);
     useFairness := orDefault (p_useFairness r) (useFairness d);
     overtimeThreshold := orDefault (p_overtimeThreshold r) (overtimeThreshold d) |}.

(** ** The world: the tables and the log of effects *)

Inductive Row :=
| RUser (u : User.t)
| RShift (s : Shift.t)
| RSickCall (c : SickCall.t)
| RNotification (n : Notification.t)
| RShiftResponse (r : ShiftResponse.t)
| RAuditLog (a : AuditLog.t).

Inductive SocketEvent :=
| sick_call_submitted (sickCall : SickCall.t)
| sick_call_unfilled (sickCallId : Id)
| candidates_found (sickCallId : Id) (candidates : list MatchedCandidate.t)
| shift_response (sickCallId : Id) (response : ShiftResponse.t)
| shift_covered (sickCallId staffId : Id) (shift : option Shift.t)
| notification_sent (notificationId recipientId sickCallId : Id).

Inductive Effect :=
| Created (r : Row)
| Updated (r : Row)
| TwilioCreate (to : string) (body : SmsText)
| Emit (organizationId : Id) (ev : SocketEvent)
| SetImmediate (sickCallId : Id).

Record World := mkWorld {
  users : list User.t;
  shifts : list Shift.t;
  sickCalls : list SickCall.t;
  notifications : list Notification.t;
  shiftResponses : list ShiftResponse.t;
  auditLogs : list AuditLog.t;
  effects : list Effect
}.

(** What the process reads from outside the store: the clock; the time
    zone, as the milliseconds that local time is ahead of UTC; whether a
    Twilio client and sender number are configured; how Twilio answers a
    send ([Some sid], or [None] when [messages.create] rejects); and what
    [text.trim().toUpperCase()] is for a text that holds a character
    outside ASCII. *)
Record Env := mkEnv {
  now : Z;
  utcOffset : Z;
  twilioConfigured : bool;
  twilioAnswer : string -> SmsText -> option string;
  trimUpperUnicode : string -> string
}.

(** ** The monad: state, and exceptions that keep the state *)

Inductive Outcome (A : Type) :=
| Ok (a : A)
| Throw (message : string).
Arguments Ok {A} a.
Arguments Throw {A} message.

Definition M (A : Type) : Type := World -> Outcome A * World.

Definition ret {A} (a : A) : M A := fun w => (Ok a, w).

Definition bind {A B} (m : M A) (k : A -> M B) : M B :=
  fun w =>
    match m w with
    | (Ok a, w') => k a w'
    | (Throw e, w') => (Throw e, w')
    end.

Definition throw {A} (message : string) : M A := fun w => (Throw message, w).

(** [try { m } catch (error) { handler }] *)
Definition tryCatch {A} (m : M A) (handler : string -> M A) : M A :=
  fun w =>
    match m w with
    | (Ok a, w') => (Ok a, w')
    | (Throw e, w') => handler e w'
    end.

Definition gets {A} (f : World -> A) : M A := fun w => (Ok (f w), w).

Definition modify (f : World -> World) : M unit := fun w => (Ok tt, f w).

Declare Scope monad_scope.
Delimit Scope monad_scope with monad.
Notation "x <- m ;; k" := (bind m (fun x => k))
  (at level 100, m at next level, right associativity) : monad_scope.
Notation "m ;; k" := (bind m (fun _ => k))
  (at level 100, right associativity) : monad_scope.
Open Scope monad_scope.

Definition log (e : Effect) : M unit :=
  modify (fun w => mkWorld (users w) (shifts w) (sickCalls w) (notifications w)
                           (shiftResponses w) (auditLogs w) (effects w ++ [e])).

Fixpoint logAll (es : list Effect) : M unit :=
  match es with
  | [] => ret tt
  | e :: es' => log e ;; logAll es'
  end.

(** ** Tables: rows in insertion order, addressed by their id *)

Section Tables.
Context {R : Type} (key : R -> Id).

(** [findUnique({ where: { id } })] *)
Definition findUnique (k : Id) (t : list R) : option R :=
  find (fun r => String.eqb (key r) k) t.

(** [updateMany({ where, data })]; [update] is the case [where: { id }]. *)
Definition updateMany (p : R -> bool) (f : R -> R) (t : list R) : list R :=
  map (fun r => if p r then f r else r) t.

Definition hasId (k : Id) (r : R) : bool := String.eqb (key r) k.
End Tables.

Fixpoint xs (n : nat) : string :=
  match n with
  | O => EmptyString
  | S n' => String "x"%char (xs n')
  end.

(** An id that is not among [taken]: one character longer than the longest. *)
Definition freshId (taken : list Id) : Id :=
  xs (S (list_max (map String.length taken))).

Definition setUsers (t : list User.t) (w : World) : World :=
  mkWorld t (shifts w) (sickCalls w) (notifications w) (shiftResponses w) (auditLogs w) (effects w).
Definition setShifts (t : list Shift.t) (w : World) : World :=
  mkWorld (users w) t (sickCalls w) (notifications w) (shiftResponses w) (auditLogs w) (effects w).
Definition setSickCalls (t : list SickCall.t) (w : World) : World :=
  mkWorld (users w) (shifts w) t (notifications w) (shiftResponses w) (auditLogs w) (effects w).
Definition setNotifications (t : list Notification.t) (w : World) : World :=
  mkWorld (users w) (shifts w) (sickCalls w) t (shiftResponses w) (auditLogs w) (effects w).
Definition setShiftResponses (t : list ShiftResponse.t) (w : World) : World :=
  mkWorld (users w) (shifts w) (sickCalls w) (notifications w) t (auditLogs w) (effects w).
Definition setAuditLogs (t : list AuditLog.t) (w : World) : World :=
  mkWorld (users w) (shifts w) (sickCalls w) (notifications w) (shiftResponses w) t (effects w).

Definition recordNotFound : string := "Record to update not found.".

(** ** The Prisma client, one operation per call shape used by the sources *)

Module Prisma.

Definition user_findUnique (id : Id) : M (option User.t) :=
  gets (fun w => findUnique User.id id (users w)).

Definition shift_findUnique (id : Id) : M (option Shift.t) :=
  gets (fun w => findUnique Shift.id id (shifts w)).

Definition sickCall_findUnique (id : Id) : M (option SickCall.t) :=
  gets (fun w => findUnique SickCall.id id (sickCalls w)).

Definition user_findMany (where_ : User.t -> bool)
    (orderBy : list User.t -> list User.t) : M (list User.t) :=
  gets (fun w => orderBy (filter where_ (users w))).

Definition shift_findMany (where_ : Shift.t -> bool) : M (list Shift.t) :=
  gets (fun w => filter where_ (shifts w)).

(** The [where] of a response may look through its [sickCall] relation. *)
Definition shiftResponse_findMany
    (where_ : ShiftResponse.t -> option SickCall.t -> bool) : M (list ShiftResponse.t) :=
  gets (fun w =>
    filter (fun r => where_ r (findUnique SickCall.id (ShiftResponse.sickCallId r) (sickCalls w)))
           (shiftResponses w)).

Definition shift_update (id : Id) (data : Shift.t -> Shift.t) : M Shift.t :=
  found <- shift_findUnique id ;;
  match found with
  | None => throw recordNotFound
  | Some s =>
      modify (fun w => setShifts (updateMany (hasId Shift.id id) data (shifts w)) w) ;;
      log (Updated (RShift (data s))) ;;
      ret (data s)
  end.

Definition sickCall_update (id : Id) (data : SickCall.t -> SickCall.t) : M SickCall.t :=
  found <- sickCall_findUnique id ;;
  match found with
  | None => throw recordNotFound
  | Some c =>
      modify (fun w => setSickCalls (updateMany (hasId SickCall.id id) data (sickCalls w)) w) ;;
      log (Updated (RSickCall (data c))) ;;
      ret (data c)
  end.

Definition notification_update (id : Id) (data : Notification.t -> Notification.t)
  : M Notification.t :=
  found <- gets (fun w => findUnique Notification.id id (notifications w)) ;;
  match found with
  | None => throw recordNotFound
  | Some n =>
      modify (fun w =>
        setNotifications (updateMany (hasId Notification.id id) data (notifications w)) w) ;;
      log (Updated (RNotification (data n))) ;;
      ret (data n)
  end.

Definition notification_updateMany (where_ : Notification.t -> bool)
    (data : Notification.t -> Notification.t) : M unit :=
  hit <- gets (fun w => filter where_ (notifications w)) ;;
  modify (fun w => setNotifications (updateMany where_ data (notifications w)) w) ;;
  logAll (map (fun n => Updated (RNotification (data n))) hit).

Definition sickCall_create (data : Id -> SickCall.t) : M SickCall.t :=
  id <- gets (fun w => freshId (map SickCall.id (sickCalls w))) ;;
  modify (fun w => setSickCalls (sickCalls w ++ [data id]) w) ;;
  log (Created (RSickCall (data id))) ;;
  ret (data id).

Definition notification_create (data : Id -> Notification.t) : M Notification.t :=
  id <- gets (fun w => freshId (map Notification.id (notifications w))) ;;
  modify (fun w => setNotifications (notifications w ++ [data id]) w) ;;
  log (Created (RNotification (data id))) ;;
  ret (data id).

Definition shiftResponse_create (data : Id -> ShiftResponse.t) : M ShiftResponse.t :=
  id <- gets (fun w => freshId (map ShiftResponse.id (shiftResponses w))) ;;
  modify (fun w => setShiftResponses (shiftResponses w ++ [data id]) w) ;;
  log (Created (RShiftResponse (data id))) ;;
  ret (data id).

Definition auditLog_create (data : Id -> AuditLog.t) : M AuditLog.t :=
  id <- gets (fun w => freshId (map AuditLog.id (auditLogs w))) ;;
  modify (fun w => setAuditLogs (auditLogs w ++ [data id]) w) ;;
  log (Created (RAuditLog (data id))) ;;
  ret (data id).

(** [sickCall.findMany({ where, orderBy })] *)
Definition sickCall_findMany (where_ : SickCall.t -> bool)
    (orderBy : list SickCall.t -> list SickCall.t) : M (list SickCall.t) :=
  gets (fun w => orderBy (filter where_ (sickCalls w))).

(** [user.findFirst({ where })] *)
Definition user_findFirst (where_ : User.t -> bool) : M (option User.t) :=
  gets (fun w => find where_ (users w)).

Definition user_update (id : Id) (data : User.t -> User.t) : M User.t :=
  found <- user_findUnique id ;;
  match found with
  | None => throw recordNotFound
  | Some u =>
      modify (fun w => setUsers (updateMany (hasId User.id id) data (users w)) w) ;;
      log (Updated (RUser (data u))) ;;
      ret (data u)
  end.

End Prisma.

(** ** date-fns *)

Definition millisecondsInHour : Z := 3600000.
Definition millisecondsInDay : Z := 86400000.

(** [startOfWeek(d)]: Sunday 00:00:00.000, local time, of the week of [d]
    (weekStartsOn = 0): [getDay], [setDate] and [setHours] work on the
    local calendar.  Day 0 of the epoch was a Thursday, hence the shift by
    4. *)
Definition startOfWeek (env : Env) (d : Z) : Z :=
  let day := (d + utcOffset env) / millisecondsInDay in
  let weekday := (day + 4) mod 7 in
  (day - weekday) * millisecondsInDay - utcOffset env.

(** [endOfWeek(d)]: Saturday 23:59:59.999, local time, of the week of [d]. *)
Definition endOfWeek (env : Env) (d : Z) : Z :=
  startOfWeek env d + 7 * millisecondsInDay - 1.

(** [differenceInHours(l, r)]: whole hours, rounded towards zero. *)
Definition differenceInHours (l r : Z) : Z :=
  Z.quot (l - r) millisecondsInHour.

(** [d = new Date(); d.setDate(d.getDate() - 30)]: thirty days of the local
    calendar, which at a fixed offset are thirty times 24 hours. *)
Definition thirtyDaysBefore (d : Z) : Z := d - 30 * millisecondsInDay.

(** ** JavaScript built-ins *)

(** [Array.prototype.sort(compare)], which is stable: an element moves
    behind exactly those that [compare] puts strictly before it. *)
Section ArraySort.
Context {A : Type} (compare : A -> A -> Z).

Fixpoint sortInsert (x : A) (l : list A) : list A :=
  match l with
  | [] => [x]
  | y :: l' => if compare y x <? 0 then y :: sortInsert x l' else x :: y :: l'
  end.

Definition Array_sort (l : list A) : list A := fold_right sortInsert [] l.
End ArraySort.

(** [Array.prototype.slice(0, count)] *)
Definition slice0 {A} (count : Z) (l : list A) : list A :=
  if count <? 0
  then firstn (Z.to_nat (Z.max 0 (Z.of_nat (List.length l) + count))) l
  else firstn (Z.to_nat count) l.

(** Truthiness of [string | null | undefined]. *)
Definition truthy (s : option string) : option string :=
  match s with
  | Some EmptyString => None
  | Some v => Some v
  | None => None
  end.

(** The text holds ASCII characters only: no byte of it is above 127. *)
Fixpoint isAscii (s : string) : bool :=
  match s with
  | String c s' => Nat.ltb (nat_of_ascii c) 128 && isAscii s'
  | EmptyString => true
  end.

(** The white space and line terminators of ECMAScript that are ASCII:
    space, tab, line feed, vertical tab, form feed, carriage return. *)
Definition isWhite (c : ascii) : bool :=
  let n := nat_of_ascii c in
  orb (Nat.eqb n 32) (andb (Nat.leb 9 n) (Nat.leb n 13)).

Fixpoint trimStart (s : string) : string :=
  match s with
  | String c s' => if isWhite c then trimStart s' else s
  | EmptyString => EmptyString
  end.

Fixpoint trimEnd (s : string) : string :=
  match s with
  | String c s' =>
      match trimEnd s' with
      | EmptyString => if isWhite c then EmptyString else String c EmptyString
      | t => String c t
      end
  | EmptyString => EmptyString
  end.

(** [String.prototype.trim], for ASCII text. *)
Definition trim (s : string) : string := trimEnd (trimStart s).

(** The upper case of an ASCII character. *)
Definition upperChar (c : ascii) : ascii :=
  let n := nat_of_ascii c in
  if andb (Nat.leb 97 n) (Nat.leb n 122) then ascii_of_nat (n - 32) else c.

(** [String.prototype.toUpperCase], for ASCII text. *)
Fixpoint toUpperCase (s : string) : string :=
  match s with
  | String c s' => String (upperChar c) (toUpperCase s')
  | EmptyString => EmptyString
  end.

(** [Array.prototype.includes] on strings. *)
Definition includes (l : list string) (s : string) : bool :=
  existsb (String.eqb s) l.

(** [a === b] for [a : string | null]. *)
Definition isId (a : option Id) (b : Id) : bool :=
  match a with
  | Some x => String.eqb x b
  | None => false
  end.

(** [orderBy: { seniority: 'desc' }] as PostgreSQL evaluates it: descending,
    nulls first, rows that compare equal left in table order. *)
Definition seniorityDesc (a b : User.t) : Z :=
  match User.seniority a, User.seniority b with
  | None, None => 0
  | None, Some _ => -1
  | Some _, None => 1
  | Some x, Some y => y - x
  end.

Definition decimal (z : Z) : string :=
  DecimalString.NilZero.string_of_int (Z.to_int z).

(** ** services/notifications.ts *)

Module NotificationService.

(** [twilioClient.messages.create({ body, to, from })] *)
Definition twilio_messages_create (env : Env) (to : string) (body : SmsText) : M string :=
  log (TwilioCreate to body) ;;
  match twilioAnswer env to body with
  | Some sid => ret sid
  | None => throw "Twilio request failed"
  end.

Definition markSent (env : Env) (externalId : string) (n : Notification.t) : Notification.t :=
  Notification.mk (Notification.id n) (Notification.sickCallId n) (Notification.recipientId n)
    (Notification.type n) NotificationStatus.SENT (Notification.message n)
    (Some (now env)) (Some externalId).

Definition markFailed (n : Notification.t) : Notification.t :=
  Notification.mk (Notification.id n) (Notification.sickCallId n) (Notification.recipientId n)
    (Notification.type n) NotificationStatus.FAILED (Notification.message n)
    (Notification.sentAt n) (Notification.externalId n).

Definition pendingFor (sickCallId recipientId : Id) (n : Notification.t) : bool :=
  String.eqb (Notification.sickCallId n) sickCallId
  && String.eqb (Notification.recipientId n) recipientId
  && NotificationStatus.eqb (Notification.status n) NotificationStatus.PENDING.

Definition sendSMS (env : Env) (recipientId sickCallId : Id) (message : SmsText)
  : M (option Id) :=
  tryCatch
    (recipient <- Prisma.user_findUnique recipientId ;;
     match recipient with
     | None => throw "Recipient not found or has no phone number"
     | Some recipient =>
         match truthy (User.phone recipient) with
         | None => throw "Recipient not found or has no phone number"
         | Some phone =>
             notification <- Prisma.notification_create (fun id =>
               Notification.mk id sickCallId recipientId SMS NotificationStatus.PENDING
                               message None None) ;;
             if twilioConfigured env then
               sid <- twilio_messages_create env phone message ;;
               Prisma.notification_update (Notification.id notification) (markSent env sid) ;;
               log (Emit (User.organizationId recipient)
                      (notification_sent (Notification.id notification) recipientId sickCallId)) ;;
               ret (Some (Notification.id notification))
             else
               Prisma.notification_update (Notification.id notification)
                 (markSent env (String.append "mock-" (decimal (now env)))) ;;
               log (Emit (User.organizationId recipient)
                      (notification_sent (Notification.id notification) recipientId sickCallId)) ;;
               ret (Some (Notification.id notification))
         end
     end)
    (fun _ =>
       Prisma.notification_updateMany (pendingFor sickCallId recipientId) markFailed ;;
       ret None).

(** [parseResponse(responseText)].  [responseText.trim().toUpperCase()] is
    computed when the text is ASCII and read from the environment when it
    is not. *)
Definition parseResponse (env : Env) (responseText : string) : option ResponseType :=
  let normalized :=
    if isAscii responseText then toUpperCase (trim responseText)
    else trimUpperUnicode env responseText in
  if includes ["YES"; "Y"; "ACCEPT"; "1"; "OK"] normalized then Some ACCEPT
  else if includes ["NO"; "N"; "DECLINE"; "2"; "NOPE"] normalized then Some DECLINE
  else None.

(** The loop of [notifyCandidates] in its default mode, 'sequential':
    [for (const candidateId of candidateIds) await this.sendSMS(...)]. *)
Fixpoint notifyEach (env : Env) (sickCallId : Id) (message : SmsText)
    (candidateIds : list Id) : M unit :=
  match candidateIds with
  | [] => ret tt
  | candidateId :: rest =>
      sendSMS env candidateId sickCallId message ;;
      notifyEach env sickCallId message rest
  end.

(** [notifyCandidates(sickCallId, candidateIds, shiftDetails)], mode
    'sequential'.  The 'batch' mode starts all sends at once and lets them
    interleave; it is not modelled. *)
Definition notifyCandidates (env : Env) (sickCallId : Id) (candidateIds : list Id)
    (location date startTime endTime : string) : M unit :=
  let message := AvailableText location date startTime endTime in
  notifyEach env sickCallId message candidateIds.

End NotificationService.

(** ** services/matching.ts *)

Module MatchingEngine.

Definition setRank (rank : Z) (c : MatchedCandidate.t) : MatchedCandidate.t :=
  MatchedCandidate.mk (MatchedCandidate.userId c) (MatchedCandidate.user c)
    (MatchedCandidate.score c) rank (MatchedCandidate.reasons c)
    (MatchedCandidate.isAvailable c) (MatchedCandidate.willBeOvertime c)
    (MatchedCandidate.hoursWorkedThisWeek c).

(** [weeklyShifts.some(s => s.assignedToId === staff.id &&
     s.date.getTime() === shift.date.getTime() && s.id !== shiftId)] *)
Definition isWorking (weeklyShifts : list Shift.t) (shift : Shift.t) (shiftId : Id)
    (staff : User.t) : bool :=
  existsb (fun s =>
    isId (Shift.assignedToId s) (User.id staff)
    && (Shift.date s =? Shift.date shift)
    && negb (String.eqb (Shift.id s) shiftId)) weeklyShifts.

Definition hoursThisWeek (weeklyShifts : list Shift.t) (staff : User.t) : Z :=
  fold_left (fun total s => total + differenceInHours (Shift.endTime s) (Shift.startTime s))
    (filter (fun s => isId (Shift.assignedToId s) (User.id staff)) weeklyShifts) 0.

Definition recentPickupCount (recentPickups : list ShiftResponse.t) (staff : User.t) : Z :=
  Z.of_nat (List.length
    (filter (fun p => String.eqb (ShiftResponse.staffId p) (User.id staff)) recentPickups)).

(** [staff.seniority] where the source tests it for truthiness. *)
Definition knownSeniority (staff : User.t) : option Z :=
  match User.seniority staff with
  | Some 0 => None
  | other => other
  end.

(** The body of [for (const staff of allStaff)]: [None] is [continue]. *)
Definition evaluate (matchingRules : MatchingRules) (shift : Shift.t) (shiftId : Id)
    (weeklyShifts : list Shift.t) (recentPickups : list ShiftResponse.t)
    (staff : User.t) : option MatchedCandidate.t :=
  let isWorking := isWorking weeklyShifts shift shiftId staff in
  if isWorking && prioritizeAvailability matchingRules then None
  else
    let hoursThisWeek := hoursThisWeek weeklyShifts staff in
    let shiftHours := differenceInHours (Shift.endTime shift) (Shift.startTime shift) in
    let totalHoursWithShift := hoursThisWeek + shiftHours in
    let willBeOvertime := totalHoursWithShift >? overtimeThreshold matchingRules in
    let recentPickupCount := recentPickupCount recentPickups staff in
    let score := 1000 in
    let reasons : list Reason := [] in
    let '(score, reasons) :=
      if negb isWorking then (score + 500, reasons ++ [Available])
      else (score - 1000, reasons ++ [AlreadyWorking]) in
    let '(score, reasons) :=
      if avoidOvertime matchingRules then
        if negb willBeOvertime then (score + 300, reasons ++ [NoOvertime])
        else (score - 200, reasons ++ [WouldBeOT totalHoursWithShift])
      else (score, reasons) in
    let '(score, reasons) :=
      match useSeniority matchingRules, knownSeniority staff with
      | true, Some seniority =>
          let seniorityBonus := seniority * 10 in
          (score + seniorityBonus, reasons ++ [SeniorityReason seniority])
      | _, _ => (score, reasons)
      end in
    let '(score, reasons) :=
      if useFairness matchingRules then
        let fairnessBonus := Z.max 0 (100 - recentPickupCount * 20) in
        (score + fairnessBonus, reasons ++ [RecentPickups recentPickupCount])
      else (score, reasons) in
    Some (MatchedCandidate.mk (User.id staff)
            (User.mk (User.id staff) (User.email staff) (User.firstName staff)
                     (User.lastName staff) (User.phone staff) (User.role staff)
                     (User.active staff) (knownSeniority staff)
                     (User.organizationId staff))
            score 0 reasons (negb isWorking) willBeOvertime hoursThisWeek).

(** The loop: candidates are pushed in the order of [allStaff]. *)
Fixpoint evaluateAll (body : User.t -> option MatchedCandidate.t)
    (allStaff : list User.t) : list MatchedCandidate.t :=
  match allStaff with
  | [] => []
  | staff :: rest =>
      match body staff with
      | None => evaluateAll body rest
      | Some candidate => candidate :: evaluateAll body rest
      end
  end.

(** [(a, b) => b.score - a.score] *)
Definition byScoreDesc (a b : MatchedCandidate.t) : Z :=
  MatchedCandidate.score b - MatchedCandidate.score a.

(** [candidates.forEach((candidate, index) => candidate.rank = index + 1)] *)
Fixpoint assignRanks (index : Z) (candidates : list MatchedCandidate.t)
  : list MatchedCandidate.t :=
  match candidates with
  | [] => []
  | candidate :: rest => setRank (index + 1) candidate :: assignRanks (index + 1) rest
  end.

Definition isActiveStaffOf (organizationId : Id) (u : User.t) : bool :=
  String.eqb (User.organizationId u) organizationId
  && match User.role u with STAFF => true | _ => false end
  && User.active u.

Definition inWeekOf (env : Env) (organizationId : Id) (shift : Shift.t) (s : Shift.t)
  : bool :=
  String.eqb (Shift.organizationId s) organizationId
  && (startOfWeek env (Shift.date shift) <=? Shift.date s)
  && (Shift.date s <=? endOfWeek env (Shift.date shift))
  && match Shift.status s with
     | ShiftStatus.SCHEDULED | ShiftStatus.COVERED => true
     | _ => false
     end.

Definition isRecentPickup (env : Env) (organizationId : Id)
    (r : ShiftResponse.t) (sickCall : option SickCall.t) : bool :=
  match ShiftResponse.responseType r with ACCEPT => true | _ => false end
  && (thirtyDaysBefore (now env) <=? ShiftResponse.createdAt r)
  && match sickCall with
     | Some c => String.eqb (SickCall.organizationId c) organizationId
     | None => false
     end.

Definition findCandidates (env : Env) (shiftId organizationId locationId : Id)
    (rules : PartialRules) : M (list MatchedCandidate.t) :=
  let matchingRules := spreadRules DEFAULT_RULES rules in
  shift <- Prisma.shift_findUnique shiftId ;;
  match shift with
  | None => throw "Shift not found"
  | Some shift =>
      allStaff <- Prisma.user_findMany (isActiveStaffOf organizationId)
                    (Array_sort seniorityDesc) ;;
      weeklyShifts <- Prisma.shift_findMany (inWeekOf env organizationId shift) ;;
      recentPickups <- Prisma.shiftResponse_findMany (isRecentPickup env organizationId) ;;
      let candidates :=
        evaluateAll (evaluate matchingRules shift shiftId weeklyShifts recentPickups)
                    allStaff in
      ret (assignRanks 0 (Array_sort byScoreDesc candidates))
  end.

Definition getTopCandidates (env : Env) (shiftId organizationId locationId : Id)
    (count : Z) (rules : PartialRules) : M (list MatchedCandidate.t) :=
  allCandidates <- findCandidates env shiftId organizationId locationId rules ;;
  let availableCandidates := filter MatchedCandidate.isAvailable allCandidates in
  ret (slice0 count availableCandidates).

End MatchingEngine.

(** ** routes/sickcalls.ts *)

(** [req.user], as the [authenticate] middleware decodes it from the token. *)
Module AuthUser.
Record t := mk {
  id : Id;
  role : UserRole;
  organizationId : Id
}.
End AuthUser.

(** [res.status(code).json({ error | message })] *)
Record Reply := mkReply {
  code : Z;
  text : string
}.

Module SickCalls.

Definition setSickCallStatus (status : SickCallStatus.t) (c : SickCall.t) : SickCall.t :=
  SickCall.mk (SickCall.id c) (SickCall.staffId c) (SickCall.shiftId c)
    (SickCall.locationId c) (SickCall.reason c) status (SickCall.consecutiveDates c)
    (SickCall.coveredById c) (SickCall.coveredAt c) (SickCall.createdAt c)
    (SickCall.organizationId c).

Definition setCovered (env : Env) (staffId : Id) (c : SickCall.t) : SickCall.t :=
  SickCall.mk (SickCall.id c) (SickCall.staffId c) (SickCall.shiftId c)
    (SickCall.locationId c) (SickCall.reason c) SickCallStatus.COVERED
    (SickCall.consecutiveDates c) (Some staffId) (Some (now env)) (SickCall.createdAt c)
    (SickCall.organizationId c).

Definition setShiftStatus (status : ShiftStatus.t) (s : Shift.t) : Shift.t :=
  Shift.mk (Shift.id s) (Shift.date s) (Shift.startTime s) (Shift.endTime s) status
    (Shift.locationId s) (Shift.assignedToId s) (Shift.organizationId s).

Definition setShiftCovered (staffId : Id) (s : Shift.t) : Shift.t :=
  Shift.mk (Shift.id s) (Shift.date s) (Shift.startTime s) (Shift.endTime s)
    ShiftStatus.COVERED (Shift.locationId s) (Some staffId) (Shift.organizationId s).

(** [sickCall.shift.location.name] and friends, read off the shift that
    [include: { shift }] fetched along with the sick call. *)
Definition includedShift (shift : option Shift.t) : M Shift.t :=
  match shift with
  | Some s => ret s
  | None => throw "TypeError: Cannot read properties of null"
  end.

(** [async function assignShift(sickCallId, staffId, managerId?, reason?)] *)
Definition assignShift (env : Env) (sickCallId staffId : Id)
    (managerId : option Id) (reason : option string) : M unit :=
  sickCall <- Prisma.sickCall_findUnique sickCallId ;;
  match sickCall with
  | None => throw "Sick call not found"
  | Some sickCall =>
      shift <- Prisma.shift_findUnique (SickCall.shiftId sickCall) ;;
      Prisma.sickCall_update sickCallId (setCovered env staffId) ;;
      Prisma.shift_update (SickCall.shiftId sickCall) (setShiftCovered staffId) ;;
      Prisma.auditLog_create (fun id =>
        AuditLog.mk id (SickCall.organizationId sickCall)
          (match truthy managerId with Some m => m | None => staffId end)
          sickCallId
          (match truthy managerId with
           | Some _ => MANUAL_ASSIGNMENT
           | None => SHIFT_ACCEPTED
           end)
          (AssignedDetails staffId (SickCall.shiftId sickCall) reason)) ;;
      staff <- Prisma.user_findUnique staffId ;;
      match staff with
      | Some _ =>
          s <- includedShift shift ;;
          NotificationService.sendSMS env staffId sickCallId (ConfirmedText s) ;;
          ret tt
      | None => ret tt
      end ;;
      log (Emit (SickCall.organizationId sickCall) (shift_covered sickCallId staffId shift))
  end.

(** [async function startShiftCoverageProcess(sickCallId)] *)
Definition startShiftCoverageProcess (env : Env) (sickCallId : Id) : M unit :=
  sickCall <- Prisma.sickCall_findUnique sickCallId ;;
  match sickCall with
  | None => ret tt
  | Some sickCall =>
      shift <- Prisma.shift_findUnique (SickCall.shiftId sickCall) ;;
      Prisma.sickCall_update sickCallId (setSickCallStatus SickCallStatus.NOTIFYING) ;;
      candidates <- MatchingEngine.getTopCandidates env (SickCall.shiftId sickCall)
                      (SickCall.organizationId sickCall) (SickCall.locationId sickCall)
                      5 noRules ;;
      match candidates with
      | [] =>
          Prisma.sickCall_update sickCallId (setSickCallStatus SickCallStatus.UNFILLED) ;;
          log (Emit (SickCall.organizationId sickCall) (sick_call_unfilled sickCallId))
      | first :: _ =>
          s <- includedShift shift ;;
          NotificationService.sendSMS env (MatchedCandidate.userId first) sickCallId
            (OfferText s) ;;
          log (Emit (SickCall.organizationId sickCall)
                 (candidates_found sickCallId candidates))
      end
  end.

(** The callback handed to [setImmediate] by the submit route. *)
Definition runImmediate (env : Env) (sickCallId : Id) : M unit :=
  tryCatch (startShiftCoverageProcess env sickCallId) (fun _ => ret tt).

(** [router.post('/submit', ...)] *)
Definition submit (env : Env) (user : AuthUser.t) (shiftId locationId : Id)
    (reason : option string) (consecutiveDates : option (list Z)) : M Reply :=
  let staffId := AuthUser.id user in
  let organizationId := AuthUser.organizationId user in
  tryCatch
    (shift <- Prisma.shift_findUnique shiftId ;;
     match shift with
     | None => ret (mkReply 404 "Shift not found")
     | Some shift =>
         if negb (isId (Shift.assignedToId shift) staffId) then
           ret (mkReply 403 "This shift is not assigned to you")
         else if ShiftStatus.eqb (Shift.status shift) ShiftStatus.SICK_CALL then
           ret (mkReply 400 "Sick call already submitted for this shift")
         else
           sickCall <- Prisma.sickCall_create (fun id =>
             SickCall.mk id staffId shiftId locationId reason SickCallStatus.PENDING
               (orDefault consecutiveDates []) None None (now env) organizationId) ;;
           Prisma.shift_update shiftId (setShiftStatus ShiftStatus.SICK_CALL) ;;
           Prisma.auditLog_create (fun id =>
             AuditLog.mk id organizationId staffId (SickCall.id sickCall)
               SICK_CALL_SUBMITTED (SubmittedDetails shiftId locationId reason)) ;;
           log (Emit organizationId (sick_call_submitted sickCall)) ;;
           log (SetImmediate (SickCall.id sickCall)) ;;
           ret (mkReply 201 "Sick call submitted. Finding coverage...")
     end)
    (fun _ => ret (mkReply 500 "Failed to submit sick call")).

(** [router.post('/:id/respond', ...)] *)
Definition respond (env : Env) (user : AuthUser.t) (sickCallId : Id)
    (responseText : string) : M Reply :=
  let staffId := AuthUser.id user in
  tryCatch
    (sickCall <- Prisma.sickCall_findUnique sickCallId ;;
     match sickCall with
     | None => ret (mkReply 404 "Sick call not found")
     | Some sickCall =>
         if SickCallStatus.eqb (SickCall.status sickCall) SickCallStatus.COVERED then
           ret (mkReply 400 "Shift already covered")
         else
           match NotificationService.parseResponse env responseText with
           | None => ret (mkReply 400 "Invalid response. Reply YES or NO.")
           | Some responseType =>
               response <- Prisma.shiftResponse_create (fun id =>
                 ShiftResponse.mk id sickCallId (SickCall.shiftId sickCall) staffId
                   responseType responseText (now env)) ;;
               match responseType with
               | ACCEPT =>
                   if negb (SickCallStatus.eqb (SickCall.status sickCall)
                                               SickCallStatus.COVERED)
                   then assignShift env sickCallId staffId None None
                   else ret tt
               | _ => ret tt
               end ;;
               log (Emit (SickCall.organizationId sickCall)
                      (shift_response sickCallId response)) ;;
               ret (mkReply 200
                      match responseType with
                      | ACCEPT => "Shift assigned to you!"
                      | _ => "Response recorded"
                      end)
           end
     end)
    (fun _ => ret (mkReply 500 "Failed to record response")).

(** [authorize('MANAGER', 'ADMIN')] *)
Definition authorized (user : AuthUser.t) : bool :=
  match AuthUser.role user with
  | MANAGER | ADMIN => true
  | STAFF => false
  end.

(** [router.post('/:id/assign', authorize('MANAGER', 'ADMIN'), ...)] *)
Definition assign (env : Env) (user : AuthUser.t) (sickCallId staffId : Id)
    (reason : option string) : M Reply :=
  if negb (authorized user) then ret (mkReply 403 "Insufficient permissions")
  else
    tryCatch
      (assignShift env sickCallId staffId (Some (AuthUser.id user)) reason ;;
       ret (mkReply 200 "Shift assigned successfully"))
      (fun _ => ret (mkReply 500 "Failed to assign shift")).

(** [router.get('/:id/candidates', authorize('MANAGER', 'ADMIN'), ...)] *)
Definition candidates (env : Env) (user : AuthUser.t) (sickCallId : Id)
  : M (Reply + list MatchedCandidate.t) :=
  if negb (authorized user) then ret (inl (mkReply 403 "Insufficient permissions"))
  else
    tryCatch
      (sickCall <- Prisma.sickCall_findUnique sickCallId ;;
       match sickCall with
       | None => ret (inl (mkReply 404 "Sick call not found"))
       | Some sickCall =>
           found <- MatchingEngine.findCandidates env (SickCall.shiftId sickCall)
                      (AuthUser.organizationId user) (SickCall.locationId sickCall)
                      noRules ;;
           ret (inr found)
       end)
      (fun _ => ret (inl (mkReply 500 "Failed to fetch candidates"))).

(** [orderBy: { createdAt: 'desc' }] *)
Definition createdAtDesc (a b : SickCall.t) : Z :=
  SickCall.createdAt b - SickCall.createdAt a.

(** The [where] of [router.get('/', ...)]: the organization of the token,
    and for STAFF also [where.staffId = staffId]. *)
Definition visibleTo (user : AuthUser.t) (c : SickCall.t) : bool :=
  String.eqb (SickCall.organizationId c) (AuthUser.organizationId user)
  && match AuthUser.role user with
     | STAFF => String.eqb (SickCall.staffId c) (AuthUser.id user)
     | _ => true
     end.

(** [router.get('/', ...)]: the sick calls, without their included rows. *)
Definition list (user : AuthUser.t) : M (Reply + list SickCall.t) :=
  tryCatch
    (sickCalls <- Prisma.sickCall_findMany (visibleTo user) (Array_sort createdAtDesc) ;;
     ret (inr sickCalls))
    (fun _ => ret (inl (mkReply 500 "Failed to fetch sick calls"))).

End SickCalls.

(** ** routes/users.ts

    The columns this store keeps of a user; [hireDate] and [password] of
    the request body write columns that are not kept and are left out. *)
Module Users.

(** [req.body] of [router.put('/:id', ...)]: an absent key is [None];
    [seniority] may be present and null. *)
Module Body.
Record t := mk {
  firstName : option string;
  lastName : option string;
  phone : option string;
  role : option UserRole;
  active : option bool;
  seniority : option (option Z)
}.
End Body.

Definition isAdmin (user : AuthUser.t) : bool :=
  match AuthUser.role user with ADMIN => true | _ => false end.

Definition isStaff (user : AuthUser.t) : bool :=
  match AuthUser.role user with STAFF => true | _ => false end.

Definition isSome {A} (o : option A) : bool :=
  match o with Some _ => true | None => false end.

(** [updateData], applied to the stored row. *)
Definition applyBody (user : AuthUser.t) (body : Body.t) (u : User.t) : User.t :=
  let firstName := orDefault (truthy (Body.firstName body)) (User.firstName u) in
  let lastName := orDefault (truthy (Body.lastName body)) (User.lastName u) in
  let phone :=
    match truthy (Body.phone body) with
    | Some p => Some p
    | None => User.phone u
    end in
  if isAdmin user then
    User.mk (User.id u) (User.email u) firstName lastName phone
      (orDefault (Body.role body) (User.role u))
      (orDefault (Body.active body) (User.active u))
      (orDefault (Body.seniority body) (User.seniority u))
      (User.organizationId u)
  else
    User.mk (User.id u) (User.email u) firstName lastName phone
      (User.role u) (User.active u) (User.seniority u) (User.organizationId u).

(** [router.put('/:id', ...)] *)
Definition update (user : AuthUser.t) (id : Id) (body : Body.t) : M (Reply + User.t) :=
  tryCatch
    (if isStaff user && negb (String.eqb id (AuthUser.id user)) then
       ret (inl (mkReply 403 "Access denied"))
     else if negb (isAdmin user)
             && (isSome (Body.role body) || isSome (Body.active body)
                 || isSome (Body.seniority body)) then
       ret (inl (mkReply 403 "Insufficient permissions"))
     else
       updated <- Prisma.user_update id (applyBody user body) ;;
       ret (inr updated))
    (fun _ => ret (inl (mkReply 500 "Failed to update user"))).

Definition setInactive (u : User.t) : User.t :=
  User.mk (User.id u) (User.email u) (User.firstName u) (User.lastName u) (User.phone u)
          (User.role u) false (User.seniority u) (User.organizationId u).

(** [router.delete('/:id', authorize('ADMIN'), ...)] *)
Definition deactivate (user : AuthUser.t) (id : Id) : M Reply :=
  if negb (isAdmin user) then ret (mkReply 403 "Insufficient permissions")
  else
    tryCatch
      (Prisma.user_update id setInactive ;;
       ret (mkReply 200 "User deactivated successfully"))
      (fun _ => ret (mkReply 500 "Failed to deactivate user")).

(** [router.get('/:id', ...)] *)
Definition get (user : AuthUser.t) (id : Id) : M (Reply + User.t) :=
  tryCatch
    (if isStaff user && negb (String.eqb id (AuthUser.id user)) then
       ret (inl (mkReply 403 "Access denied"))
     else
       found <- Prisma.user_findFirst (fun u =>
                  String.eqb (User.id u) id
                  && String.eqb (User.organizationId u) (AuthUser.organizationId user)) ;;
       match found with
       | None => ret (inl (mkReply 404 "User not found"))
       | Some u => ret (inr u)
       end)
    (fun _ => ret (inl (mkReply 500 "Failed to fetch user"))).

End Users.

(** * Vocabulary of the statements *)

(** The three queries of [findCandidates], as functions of the store. *)
Definition allStaffOf (w : World) (organizationId : Id) : list User.t :=
  Array_sort seniorityDesc (filter (MatchingEngine.isActiveStaffOf organizationId) (users w)).

Definition weeklyShiftsOf (env : Env) (w : World) (organizationId : Id) (shift : Shift.t)
  : list Shift.t :=
  filter (MatchingEngine.inWeekOf env organizationId shift) (shifts w).

Definition recentPickupsOf (env : Env) (w : World) (organizationId : Id)
  : list ShiftResponse.t :=
  filter (fun r => MatchingEngine.isRecentPickup env organizationId r
                     (findUnique SickCall.id (ShiftResponse.sickCallId r) (sickCalls w)))
         (shiftResponses w).

(** The candidates as the loop leaves them, before sorting and ranking. *)
Definition evaluated (env : Env) (w : World) (shiftId organizationId : Id)
    (rules : PartialRules) (shift : Shift.t) : list MatchedCandidate.t :=
  MatchingEngine.evaluateAll
    (MatchingEngine.evaluate (spreadRules DEFAULT_RULES rules) shift shiftId
       (weeklyShiftsOf env w organizationId shift) (recentPickupsOf env w organizationId))
    (allStaffOf w organizationId).


(** The same, each of the last three terms behind its rule. *)
Definition scoreUnderRules (r : MatchingRules) (working : bool) (totalHours : Z)
    (seniority : option Z) (pickups : Z) : Z :=
  1000
  + (if working then -1000 else 500)
  + (if avoidOvertime r
     then if totalHours <=? overtimeThreshold r then 300 else -200
     else 0)
  + (if useSeniority r
     then match seniority with Some level => level * 10 | None => 0 end
     else 0)
  + (if useFairness r then Z.max 0 (100 - 20 * pickups) else 0).

(** [staff] is assigned to another active shift of the organization on
    the date of [shift]. *)
Definition assignedElsewhere (w : World) (organizationId : Id) (shift : Shift.t)
    (shiftId : Id) (staffId : Id) : Prop :=
  exists s, In s (shifts w)
    /\ Shift.organizationId s = organizationId
    /\ (Shift.status s = ShiftStatus.SCHEDULED \/ Shift.status s = ShiftStatus.COVERED)
    /\ Shift.assignedToId s = Some staffId
    /\ Shift.date s = Shift.date shift
    /\ Shift.id s <> shiftId.

(** The other quantities that the score is made of, stated on the store.

    The whole hours of a span of [ms] milliseconds: what is left of an hour
    is dropped. *)
Definition wholeHours (ms : Z) : Z := Z.sgn ms * (Z.abs ms / 3600000).

(** The day of the local calendar on which the instant [d] falls, counted
    from Thursday 1 January 1970, and the week of that day, Sunday to
    Saturday (day 3 was the first Sunday). *)
Definition localDay (env : Env) (d : Z) : Z := (d + utcOffset env) / 86400000.

Definition weekOf (env : Env) (d : Z) : Z := (localDay env d + 4) / 7.

(** [s] counts towards the weekly hours of [staffId]: a shift of the
    organization, SCHEDULED or COVERED, assigned to [staffId], whose date
    falls in the week of the date of [shift].  Nothing here keeps [shift]
    itself out. *)
Definition countsTowardWeek (env : Env) (organizationId : Id) (shift : Shift.t)
    (staffId : Id) (s : Shift.t) : bool :=
  String.eqb (Shift.organizationId s) organizationId
  && match Shift.status s with
     | ShiftStatus.SCHEDULED | ShiftStatus.COVERED => true
     | _ => false
     end
  && match Shift.assignedToId s with
     | Some a => String.eqb a staffId
     | None => false
     end
  && (weekOf env (Shift.date s) =? weekOf env (Shift.date shift)).

Fixpoint sumOf {A} (f : A -> Z) (l : list A) : Z :=
  match l with
  | [] => 0
  | a :: l' => f a + sumOf f l'
  end.

(** The weekly hours of [staffId]: the whole hours, shift by shift, of the
    shifts that count. *)
Definition weeklyHoursOf (env : Env) (w : World) (organizationId : Id) (shift : Shift.t)
    (staffId : Id) : Z :=
  sumOf (fun s => wholeHours (Shift.endTime s - Shift.startTime s))
        (filter (countsTowardWeek env organizationId shift staffId) (shifts w)).




Definition scoreIs (v : Z) (c : MatchedCandidate.t) : bool :=
  MatchedCandidate.score c =? v.

(** [staff] passes the availability gate of the loop and is pushed. *)
Definition pushed (env : Env) (w : World) (shiftId organizationId : Id)
    (rules : PartialRules) (shift : Shift.t) (staff : User.t) : bool :=
  match MatchingEngine.evaluate (spreadRules DEFAULT_RULES rules) shift shiftId
          (weeklyShiftsOf env w organizationId shift) (recentPickupsOf env w organizationId)
          staff with
  | Some _ => true
  | None => false
  end.

(** Seniority descending, as the staff query is to deliver its rows: of
    two rows with a seniority the higher comes first, and a row without one
    comes before every row that has one (the place PostgreSQL gives to
    nulls in a descending order). *)
Definition seniorFirst (a b : User.t) : Prop :=
  match User.seniority a, User.seniority b with
  | Some x, Some y => y <= x
  | None, _ => True
  | Some _, None => False
  end.

(** Of two candidates whose entries show a seniority, [c] is not the
    junior one. *)
Definition notJuniorFirst (c c' : MatchedCandidate.t) : Prop :=
  match User.seniority (MatchedCandidate.user c),
        User.seniority (MatchedCandidate.user c') with
  | Some x, Some y => y <= x
  | _, _ => True
  end.

(** [c] stands rightly before [c']: it has the higher score, or the same
    score and is not the junior of the two. *)
Definition rightlyBefore (c c' : MatchedCandidate.t) : Prop :=
  MatchedCandidate.score c' < MatchedCandidate.score c
  \/ (MatchedCandidate.score c' = MatchedCandidate.score c /\ notJuniorFirst c c').

(** What C2 says of a returned list [out]: sorted by score, descending;
    ranked 1..N; rank 1 carries the maximum; at equal score the senior
    candidate first; and, rank aside, [out] is the list the loop built with
    every class of equal scores still in the order of the loop, which is
    the order of [staff], the active staff of the organization in
    descending order of seniority. *)
Definition rankedInOrder (env : Env) (w : World) (shiftId organizationId : Id)
    (rules : PartialRules) (out : list MatchedCandidate.t) : Prop :=
  exists shift,
    findUnique Shift.id shiftId (shifts w) = Some shift
    /\ let staff := allStaffOf w organizationId in
       let loop := evaluated env w shiftId organizationId rules shift in
       StronglySorted
         (fun a b => MatchedCandidate.score a >= MatchedCandidate.score b) out
       /\ map MatchedCandidate.rank out = map Z.of_nat (seq 1 (List.length out))
       /\ (forall c c', In c out -> MatchedCandidate.rank c = 1 -> In c' out ->
                        MatchedCandidate.score c' <= MatchedCandidate.score c)
       /\ StronglySorted rightlyBefore out
       /\ Permutation (map (MatchingEngine.setRank 0) out) loop
       /\ (forall v, filter (scoreIs v) (map (MatchingEngine.setRank 0) out)
                     = filter (scoreIs v) loop)
       /\ map MatchedCandidate.userId loop
          = map User.id (filter (pushed env w shiftId organizationId rules shift) staff)
       /\ Permutation staff
            (filter (MatchingEngine.isActiveStaffOf organizationId) (users w))
       /\ StronglySorted seniorFirst staff.

Definition notifiedTo (staffId : Id) (w : World) : list Notification.t :=
  filter (fun n => String.eqb (Notification.recipientId n) staffId) (notifications w).

(** [w] with [es] appended to its log. *)
Definition logged (es : list Effect) (w : World) : World :=
  mkWorld (users w) (shifts w) (sickCalls w) (notifications w) (shiftResponses w)
          (auditLogs w) (effects w ++ es).

(** [w] with its notification table replaced and [es] appended to its log. *)
Definition withNotifications (t : list Notification.t) (es : list Effect) (w : World)
  : World :=
  logged es (setNotifications t w).

(** The row that [sendSMS] persists before it turns to the transport. *)
Definition pendingNotification (w : World) (recipientId sickCallId : Id)
    (message : SmsText) : Notification.t :=
  Notification.mk (freshId (map Notification.id (notifications w))) sickCallId recipientId
                  SMS NotificationStatus.PENDING message None None.

(** How the transport answers a message for [phone]: an external id, or
    [None] for a failure.  Without a Twilio client the send is mocked. *)
Definition transportOutcome (env : Env) (phone : string) (message : SmsText)
  : option string :=
  if twilioConfigured env then twilioAnswer env phone message
  else Some (String.append "mock-" (decimal (now env))).

(** [w'] differs from [w] at most in the notification table and the log. *)
Definition onlyNotifies (w w' : World) : Prop :=
  users w' = users w
  /\ shifts w' = shifts w
  /\ sickCalls w' = sickCalls w
  /\ shiftResponses w' = shiftResponses w
  /\ auditLogs w' = auditLogs w.

(** What C8 says of a run of [sendSMS] that ended in [w'] with [result]. *)
Definition recordsDelivery (env : Env) (recipientId sickCallId : Id) (message : SmsText)
    (phone : string) (w : World) (result : option Id) (w' : World) : Prop :=
  let n := pendingNotification w recipientId sickCallId message in
  ~ In (Notification.id n) (map Notification.id (notifications w))
  /\ Notification.status n = NotificationStatus.PENDING
  /\ (exists rest, effects w' = effects w ++ Created (RNotification n) :: rest
        /\ (twilioConfigured env = true ->
            exists rest', rest = TwilioCreate phone message :: rest'))
  /\ onlyNotifies w w'
  /\ match transportOutcome env phone message with
     | Some sid =>
         result = Some (Notification.id n)
         /\ notifications w' =
            notifications w
            ++ [Notification.mk (Notification.id n) sickCallId recipientId SMS
                  NotificationStatus.SENT message (Some (now env)) (Some sid)]
     | None =>
         result = None
         /\ notifications w' =
            updateMany (NotificationService.pendingFor sickCallId recipientId)
                       NotificationService.markFailed (notifications w)
            ++ [Notification.mk (Notification.id n) sickCallId recipientId SMS
                  NotificationStatus.FAILED message None None]
     end.

Definition acceptedReply : Reply := mkReply 200 "Shift assigned to you!".

(** The sick call [sickCallId] of [w] stands covered by [staffId], and so
    does its shift. *)
Definition coveredBy (staffId sickCallId : Id) (w : World) : Prop :=
  exists sickCall shift,
    findUnique SickCall.id sickCallId (sickCalls w) = Some sickCall
    /\ SickCall.status sickCall = SickCallStatus.COVERED
    /\ SickCall.coveredById sickCall = Some staffId
    /\ findUnique Shift.id (SickCall.shiftId sickCall) (shifts w) = Some shift
    /\ Shift.status shift = ShiftStatus.COVERED
    /\ Shift.assignedToId shift = Some staffId.

(** Exactly one row was added to the response table of [w], and it is
    [staffId]'s reply of type [type] to [sickCallId]. *)
Definition oneResponse (type : ResponseType) (staffId sickCallId : Id) (w w' : World)
  : Prop :=
  exists response,
    shiftResponses w' = shiftResponses w ++ [response]
    /\ ShiftResponse.responseType response = type
    /\ ShiftResponse.staffId response = staffId
    /\ ShiftResponse.sickCallId response = sickCallId.

(** Exactly one row was added to the audit log of [w], of kind [action],
    for [sickCallId]. *)
Definition oneAudit (action : AuditAction) (sickCallId : Id) (w w' : World) : Prop :=
  exists audit,
    auditLogs w' = auditLogs w ++ [audit]
    /\ AuditLog.action audit = action
    /\ AuditLog.sickCallId audit = sickCallId.

(** A submit that was turned away: 400 from the duplicate check, or 403
    from the ownership check that precedes it. *)
Definition refused (reply : Reply) : Prop := code reply = 400 \/ code reply = 403.

(** The store holds the shift [shiftId] in status SICK_CALL. *)
Definition inSickCall (shiftId : Id) (w : World) : Prop :=
  exists shift,
    findUnique Shift.id shiftId (shifts w) = Some shift
    /\ Shift.status shift = ShiftStatus.SICK_CALL.

(** The statuses of the sick calls that [w] holds for [shiftId]. *)
Definition sickCallsOf (shiftId : Id) (w : World) : list SickCallStatus.t :=
  map SickCall.status
      (filter (fun c => String.eqb (SickCall.shiftId c) shiftId) (sickCalls w)).

(** What C3 says of a staff member: marked unavailable wherever listed,
    not listed at all under the availability rule, never among the top
    candidates, and left without any new or altered notification by the
    automatic notify step of a sick call for this shift. *)
Definition neverOffered (env : Env) (w : World) (shiftId organizationId staffId : Id)
  : Prop :=
  (forall locationId rules out w',
     MatchingEngine.findCandidates env shiftId organizationId locationId rules w
       = (Ok out, w') ->
     (forall c, In c out -> MatchedCandidate.userId c = staffId ->
                MatchedCandidate.isAvailable c = false)
     /\ (prioritizeAvailability (spreadRules DEFAULT_RULES rules) = true ->
         forall c, In c out -> MatchedCandidate.userId c <> staffId))
  /\ (forall locationId count rules top w',
        MatchingEngine.getTopCandidates env shiftId organizationId locationId count rules w
          = (Ok top, w') ->
        forall c, In c top -> MatchedCandidate.userId c <> staffId)
  /\ (forall sickCallId sickCall,
        findUnique SickCall.id sickCallId (sickCalls w) = Some sickCall ->
        SickCall.shiftId sickCall = shiftId ->
        SickCall.organizationId sickCall = organizationId ->
        exists w',
          SickCalls.startShiftCoverageProcess env sickCallId w = (Ok tt, w')
          /\ notifiedTo staffId w' = notifiedTo staffId w).

(** [staffId] is listed for the shift, and as available, whatever rules
    the ranking is asked with. *)
Definition rankedAvailable (env : Env) (w : World) (shiftId organizationId staffId : Id)
  : Prop :=
  forall locationId rules,
  exists out c,
    MatchingEngine.findCandidates env shiftId organizationId locationId rules w = (Ok out, w)
    /\ In c out
    /\ MatchedCandidate.userId c = staffId
    /\ MatchedCandidate.isAvailable c = true.

(** ** A small organization, used to run the model

    Wednesday 2024-01-10.  A holds the day shift S, C the evening shift S2;
    B is free and has accepted one pickup five days earlier.  D belongs to
    another organization. *)
Module Demo.

Definition day : Z := 86400000.
Definition hour : Z := 3600000.
Definition jan10 : Z := 19732 * day.

Definition staff (id : Id) (seniority : option Z) (org : Id) : User.t :=
  User.mk id (String.append id "@demo.com") id "Demo" (Some "+1-604-555-0201")
          STAFF true seniority org.

Definition A := staff "A" (Some 10) "org".
Definition B := staff "B" (Some 8) "org".
Definition C := staff "C" (Some 6) "org".
Definition D := staff "D" (Some 1) "elsewhere".

Definition S : Shift.t :=
  Shift.mk "S" jan10 (jan10 + 7 * hour) (jan10 + 15 * hour) ShiftStatus.SCHEDULED
           "loc" (Some "A") "org".
Definition S2 : Shift.t :=
  Shift.mk "S2" jan10 (jan10 + 15 * hour) (jan10 + 23 * hour) ShiftStatus.SCHEDULED
           "loc2" (Some "C") "org".

Definition earlier : SickCall.t :=
  SickCall.mk "earlier" "C" "S0" "loc" None SickCallStatus.COVERED [] (Some "B")
              (Some (jan10 - 5 * day)) (jan10 - 5 * day) "org".

Definition pickup : ShiftResponse.t :=
  ShiftResponse.mk "r1" "earlier" "S0" "B" ACCEPT "yes" (jan10 - 5 * day).

Definition world : World :=
  mkWorld [A; B; C; D] [S; S2] [earlier] [] [pickup] [] [].

Definition env : Env := mkEnv jan10 0 true (fun _ _ => Some "SM1") (fun text => text).
Definition envDown : Env := mkEnv jan10 0 true (fun _ _ => None) (fun text => text).

Definition asA := AuthUser.mk "A" STAFF "org".
Definition asB := AuthUser.mk "B" STAFF "org".
Definition asD := AuthUser.mk "D" STAFF "elsewhere".

(** A has called in sick for S. *)
Definition afterSubmit : World := snd (SickCalls.submit env asA "S" "loc" None None world).

(** The id of the sick call that [submit] created. *)
Definition call : Id := "xxxxxxxx".

(** The ranking for S under the default rules, and B's entry in it. *)
Definition ranked : list MatchedCandidate.t :=
  match fst (MatchingEngine.findCandidates env "S" "org" "loc" noRules afterSubmit) with
  | Ok found => found
  | Throw _ => []
  end.


(** The background step has run: the top candidate holds an offer. *)
Definition afterNotify : World := snd (SickCalls.runImmediate env call afterSubmit).

(** B has replied YES. *)
Definition afterAccept : World := snd (SickCalls.respond env asB call "YES" afterNotify).

(** S as the store holds it once A has called in sick, and the sick call
    as it stands while the offer is out and after B's YES. *)
Definition vacated : Shift.t := SickCalls.setShiftStatus ShiftStatus.SICK_CALL S.
Definition notifying : SickCall.t :=
  SickCall.mk call "A" "S" "loc" None SickCallStatus.NOTIFYING [] None None jan10 "org".
Definition covered : SickCall.t := SickCalls.setCovered env "B" notifying.

(** The demo, told as C9 tells it: A calls in sick for S, heads the ranking
    for S, and is the one the automatic step sends the offer to. *)
Definition reporterOffered : Prop :=
  SickCalls.submit env asA "S" "loc" None None world
    = (Ok (mkReply 201 "Sick call submitted. Finding coverage..."), afterSubmit)
  /\ (exists first rest,
        MatchingEngine.findCandidates env "S" "org" "loc" noRules afterSubmit
          = (Ok (first :: rest), afterSubmit)
        /\ MatchedCandidate.userId first = "A"
        /\ MatchedCandidate.rank first = 1
        /\ MatchedCandidate.isAvailable first = true)
  /\ SickCalls.runImmediate env call afterSubmit = (Ok tt, afterNotify)
  /\ exists offer,
       notifications afterNotify = [offer]
       /\ Notification.recipientId offer = "A"
       /\ Notification.sickCallId offer = call
       /\ Notification.message offer = OfferText vacated
       /\ Notification.status offer = NotificationStatus.SENT.

End Demo.

(** * Vocabulary of the further properties *)

(** The ASCII characters that [trim] removes: space, tab, line feed,
    vertical tab, form feed, carriage return. *)
Definition asciiWhiteSpace : list ascii :=
  [" "; "009"; "010"; "011"; "012"; "013"]%char.

(** Every character of [s] is one of these. *)
Fixpoint allBlank (s : string) : bool :=
  match s with
  | EmptyString => true
  | String c s' => existsb (Ascii.eqb c) asciiWhiteSpace && allBlank s'
  end.

(** [w'] has the users, notifications and responses of [w]. *)
Definition onlyWrites (w w' : World) : Prop :=
  users w' = users w
  /\ notifications w' = notifications w
  /\ shiftResponses w' = shiftResponses w.

(** More of the demo: the sick call as [submit] creates it, and the audit
    row that goes with it. *)
Module DemoRows.

Definition pending : SickCall.t :=
  SickCall.mk Demo.call "A" "S" "loc" None SickCallStatus.PENDING [] None None
              Demo.jan10 "org".

Definition submitted : AuditLog.t :=
  AuditLog.mk "x" "org" "A" Demo.call SICK_CALL_SUBMITTED (SubmittedDetails "S" "loc" None).

End DemoRows.

(** [sendSMS] can reach the user [id]: the row exists and its phone is
    neither null nor empty. *)
Definition resolvable (w : World) (id : Id) : bool :=
  match findUnique User.id id (users w) with
  | Some recipient =>
      match truthy (User.phone recipient) with Some _ => true | None => false end
  | None => false
  end.

(** [e] is the update of a notification to FAILED. *)
Definition marksFailed (e : Effect) : Prop :=
  exists n, e = Updated (RNotification n)
            /\ Notification.status n = NotificationStatus.FAILED.

(** The audit rows that [w'] holds beyond those of [w] are of these kinds,
    in this order. *)
Definition auditedSince (actions : list AuditAction) (sickCallId : Id) (w w' : World)
  : Prop :=
  exists rows,
    auditLogs w' = auditLogs w ++ rows
    /\ map AuditLog.action rows = actions
    /\ Forall (fun a => AuditLog.sickCallId a = sickCallId) rows.

(** The users table apart, [w'] holds what [w] holds. *)
Definition onlyUsers (w w' : World) : Prop :=
  shifts w' = shifts w
  /\ sickCalls w' = sickCalls w
  /\ notifications w' = notifications w
  /\ shiftResponses w' = shiftResponses w
  /\ auditLogs w' = auditLogs w.

(** [u'] is the same account as [u]: id, email and organization. *)
Definition sameIdentity (u u' : User.t) : Prop :=
  User.id u' = User.id u
  /\ User.email u' = User.email u
  /\ User.organizationId u' = User.organizationId u.

(** [u'] has the standing of [u]: role, active flag and seniority. *)
Definition sameStanding (u u' : User.t) : Prop :=
  User.role u' = User.role u
  /\ User.active u' = User.active u
  /\ User.seniority u' = User.seniority u.

(** An administrator of an organization that the demo's staff do not belong
    to. *)
Definition foreignAdmin : AuthUser.t := AuthUser.mk "Z" ADMIN "elsewhere".

(** [e] is one of the effects of [sendSMS]: a write to the notification
    table, the call of the transport, or the delivery event. *)
Definition aboutNotification (e : Effect) : Prop :=
  match e with
  | Created (RNotification _) | Updated (RNotification _) => True
  | TwilioCreate _ _ => True
  | Emit _ (notification_sent _ _ _) => True
  | _ => False
  end.

(** * Facts about the building blocks *)

(** ** Fresh ids *)

Lemma length_xs n : String.length (xs n) = n.
Proof. induction n as [|n IH]; simpl; congruence. Qed.

Lemma list_max_bound (l : list nat) k : In k l -> (k <= list_max l)%nat.
Proof.
  induction l as [|a l IH]; simpl; intros H; [contradiction|].
  destruct H as [-> | H]; [lia | specialize (IH H); lia].
Qed.

Lemma freshId_fresh (taken : list Id) : ~ In (freshId taken) taken.
Proof.
  intros H.
  apply (in_map String.length) in H.
  apply list_max_bound in H.
  unfold freshId in H. rewrite length_xs in H. lia.
Qed.

(** ** Tables *)

Section TableFacts.
Context {R : Type} (key : R -> Id).

(** After [update({ where: { id } })] a lookup by id sees the new row. *)
Lemma findUnique_updateMany k f t :
  (forall r, key (f r) = key r) ->
  findUnique key k (updateMany (hasId key k) f t) = option_map f (findUnique key k t).
Proof.
  intros Hkey. unfold findUnique, updateMany, hasId.
  induction t as [|r t IH]; simpl; [reflexivity|].
  destruct (String.eqb (key r) k) eqn:E; simpl.
  - rewrite Hkey, E. reflexivity.
  - rewrite E. exact IH.
Qed.

Lemma updateMany_id (p : R -> bool) f t :
  (forall r, In r t -> p r = false) -> updateMany p f t = t.
Proof.
  intros H. unfold updateMany.
  induction t as [|r t IH]; simpl; [reflexivity|].
  rewrite (H r (or_introl eq_refl)). f_equal. apply IH.
  intros r' Hr'. apply H. now right.
Qed.

Lemma updateMany_app (p : R -> bool) f t1 t2 :
  updateMany p f (t1 ++ t2) = updateMany p f t1 ++ updateMany p f t2.
Proof. unfold updateMany. apply map_app. Qed.

Lemma findUnique_app_fresh k t r :
  ~ In k (map key t) -> key r = k -> findUnique key k (t ++ [r]) = Some r.
Proof.
  intros Hfresh Hk. unfold findUnique.
  induction t as [|a t IH]; simpl.
  - subst k. now rewrite String.eqb_refl.
  - destruct (String.eqb (key a) k) eqn:E.
    + apply String.eqb_eq in E. exfalso. apply Hfresh. now left.
    + apply IH. intros H. apply Hfresh. now right.
Qed.
End TableFacts.

(** ** The week of a date contains the date *)

Lemma startOfWeek_le env d : startOfWeek env d <= d.
Proof.
  unfold startOfWeek, millisecondsInDay. cbv zeta.
  pose proof (Z.mod_pos_bound ((d + utcOffset env) / 86400000 + 4) 7 ltac:(lia)).
  pose proof (Z.mul_div_le (d + utcOffset env) 86400000 ltac:(lia)).
  nia.
Qed.

Lemma endOfWeek_ge env d : d <= endOfWeek env d.
Proof.
  unfold endOfWeek, startOfWeek, millisecondsInDay. cbv zeta.
  pose proof (Z.mod_pos_bound ((d + utcOffset env) / 86400000 + 4) 7 ltac:(lia)).
  pose proof (Z.mod_pos_bound (d + utcOffset env) 86400000 ltac:(lia)).
  pose proof (Z.div_mod (d + utcOffset env) 86400000 ltac:(lia)).
  nia.
Qed.

(** ** [Array.prototype.sort] permutes, keeps ties in place, and orders *)

Section ArraySortFacts.
Context {A : Type} (compare : A -> A -> Z).

Lemma sortInsert_Permutation x l : Permutation (sortInsert compare x l) (x :: l).
Proof.
  induction l as [|y l IH]; simpl; [reflexivity|].
  destruct (compare y x <? 0); [|reflexivity].
  rewrite IH. apply perm_swap.
Qed.

Lemma Array_sort_Permutation l : Permutation (Array_sort compare l) l.
Proof.
  induction l as [|x l IH]; simpl; [reflexivity|].
  rewrite sortInsert_Permutation. now constructor.
Qed.

Section Ties.
(** [p] picks a class of elements none of which sorts strictly before
    another: on that class the order of the input survives. *)
Variable p : A -> bool.
Hypothesis tied : forall a b, p a = true -> p b = true -> (compare a b <? 0) = false.

Lemma sortInsert_filter x l : filter p (sortInsert compare x l) = filter p (x :: l).
Proof.
  induction l as [|y l IH]; [reflexivity|].
  simpl sortInsert. destruct (compare y x <? 0) eqn:E; [|reflexivity].
  simpl. simpl in IH. rewrite IH.
  destruct (p y) eqn:Py, (p x) eqn:Px; try reflexivity.
  rewrite (tied y x Py Px) in E. discriminate.
Qed.

Lemma Array_sort_filter l : filter p (Array_sort compare l) = filter p l.
Proof.
  induction l as [|x l IH]; [reflexivity|].
  simpl Array_sort. rewrite sortInsert_filter. simpl. now rewrite IH.
Qed.
End Ties.

Section Order.
Hypothesis total : forall a b, (compare a b <? 0) = false -> compare b a <= 0.
Hypothesis trans : forall a b c, compare a b <= 0 -> compare b c <= 0 -> compare a c <= 0.

Lemma sortInsert_sorted x l :
  StronglySorted (fun a b => compare a b <= 0) l ->
  StronglySorted (fun a b => compare a b <= 0) (sortInsert compare x l).
Proof.
  induction 1 as [|y l Hs IH Hy]; simpl.
  - constructor; constructor.
  - destruct (compare y x <? 0) eqn:E.
    + constructor; [exact IH|].
      eapply Permutation_Forall.
      * symmetry. apply sortInsert_Permutation.
      * constructor; [|exact Hy]. apply Z.ltb_lt in E. lia.
    + pose proof (total _ _ E) as Hxy.
      constructor; [now constructor|].
      constructor; [exact Hxy|].
      eapply Forall_impl; [|exact Hy].
      intros z Hz. exact (trans _ _ _ Hxy Hz).
Qed.

Lemma Array_sort_sorted l :
  StronglySorted (fun a b => compare a b <= 0) (Array_sort compare l).
Proof.
  induction l as [|x l IH]; simpl; [constructor | now apply sortInsert_sorted].
Qed.
End Order.
End ArraySortFacts.

Lemma seniorityDesc_sorted (l : list User.t) :
  StronglySorted (fun a b => seniorityDesc a b <= 0) (Array_sort seniorityDesc l).
Proof.
  apply Array_sort_sorted.
  - intros a b. unfold seniorityDesc.
    destruct (User.seniority a), (User.seniority b); intros H;
      try apply Z.ltb_ge in H; lia.
  - intros a b c. unfold seniorityDesc.
    destruct (User.seniority a), (User.seniority b), (User.seniority c); lia.
Qed.

(** ** The ranking engine, step by step *)

Lemma findCandidates_run env shiftId organizationId locationId rules w :
  MatchingEngine.findCandidates env shiftId organizationId locationId rules w =
  match findUnique Shift.id shiftId (shifts w) with
  | Some shift =>
      (Ok (MatchingEngine.assignRanks 0
             (Array_sort MatchingEngine.byScoreDesc
                (evaluated env w shiftId organizationId rules shift))), w)
  | None => (Throw "Shift not found", w)
  end.
Proof.
  unfold MatchingEngine.findCandidates, bind, Prisma.shift_findUnique, gets.
  destruct (findUnique Shift.id shiftId (shifts w)); reflexivity.
Qed.

Lemma evaluate_Some r shift shiftId weekly pickups staff c :
  MatchingEngine.evaluate r shift shiftId weekly pickups staff = Some c ->
  MatchedCandidate.userId c = User.id staff
  /\ MatchedCandidate.rank c = 0
  /\ MatchedCandidate.isAvailable c = negb (MatchingEngine.isWorking weekly shift shiftId staff)
  /\ (MatchingEngine.isWorking weekly shift shiftId staff && prioritizeAvailability r = false)
  /\ MatchedCandidate.hoursWorkedThisWeek c = MatchingEngine.hoursThisWeek weekly staff
  /\ MatchedCandidate.score c =
       scoreUnderRules r (MatchingEngine.isWorking weekly shift shiftId staff)
         (MatchingEngine.hoursThisWeek weekly staff
          + differenceInHours (Shift.endTime shift) (Shift.startTime shift))
         (User.seniority staff)
         (MatchingEngine.recentPickupCount pickups staff).
Proof.
  unfold MatchingEngine.evaluate.
  destruct (MatchingEngine.isWorking weekly shift shiftId staff && prioritizeAvailability r) eqn:Skip;
    [discriminate|].
  unfold scoreUnderRules, MatchingEngine.knownSeniority.
  rewrite Z.gtb_ltb, Z.ltb_antisym, negb_involutive.
  destruct (MatchingEngine.isWorking weekly shift shiftId staff),
           (avoidOvertime r), (useSeniority r), (useFairness r),
           (_ <=? overtimeThreshold r), (User.seniority staff) as [[|s|s]|];
    unfold negb; cbv beta iota zeta; intros H;
    pose proof (f_equal (fun o => match o with Some x => x | None => c end) H) as E;
    cbv beta iota in E; rewrite <- E;
    unfold MatchedCandidate.userId, MatchedCandidate.rank, MatchedCandidate.isAvailable,
           MatchedCandidate.hoursWorkedThisWeek, MatchedCandidate.score;
    (split; [reflexivity|]); (split; [reflexivity|]); (split; [reflexivity|]);
    (split; [reflexivity|]); (split; [reflexivity|]); lia.
Qed.

Lemma evaluateAll_In body allStaff c :
  In c (MatchingEngine.evaluateAll body allStaff) ->
  exists staff, In staff allStaff /\ body staff = Some c.
Proof.
  induction allStaff as [|s l IH]; simpl; [contradiction|].
  destruct (body s) eqn:E.
  - intros [<- | H]; [eauto|]. destruct (IH H) as (s' & ? & ?); eauto.
  - intros H. destruct (IH H) as (s' & ? & ?); eauto.
Qed.

Lemma allStaffOf_In w organizationId staff :
  In staff (allStaffOf w organizationId) <->
  In staff (users w) /\ MatchingEngine.isActiveStaffOf organizationId staff = true.
Proof.
  unfold allStaffOf. rewrite <- filter_In.
  split; apply Permutation_in;
    [|symmetry]; apply Array_sort_Permutation.
Qed.

Lemma assignRanks_In index l c :
  In c (MatchingEngine.assignRanks index l) ->
  exists c0, In c0 l /\ c = MatchingEngine.setRank (MatchedCandidate.rank c) c0
             /\ index < MatchedCandidate.rank c.
Proof.
  revert index. induction l as [|a l IH]; simpl; intros index; [contradiction|].
  intros [<- | H].
  - exists a. simpl. repeat split; [now left | lia].
  - destruct (IH _ H) as (c0 & ? & ? & ?). exists c0. repeat split; [now right | assumption | lia].
Qed.

Lemma assignRanks_ranks index l :
  map MatchedCandidate.rank (MatchingEngine.assignRanks index l) =
  map (fun k => index + Z.of_nat k) (seq 1 (List.length l)).
Proof.
  revert index. induction l as [|a l IH]; intros index; [reflexivity|].
  cbn [MatchingEngine.assignRanks map List.length seq MatchedCandidate.rank MatchingEngine.setRank].
  f_equal. rewrite IH, <- (seq_shift (List.length l) 1), map_map.
  apply map_ext. intros k. lia.
Qed.

Lemma assignRanks_unrank index l :
  Forall (fun c => MatchedCandidate.rank c = 0) l ->
  map (MatchingEngine.setRank 0) (MatchingEngine.assignRanks index l) = l.
Proof.
  intros H. revert index. induction H as [|a l Ha _ IH]; intros index; [reflexivity|].
  simpl. rewrite IH. f_equal. destruct a. simpl in *. now subst.
Qed.

Lemma assignRanks_sorted index l :
  StronglySorted (fun a b => MatchingEngine.byScoreDesc a b <= 0) l ->
  StronglySorted (fun a b => MatchedCandidate.score a >= MatchedCandidate.score b)
                 (MatchingEngine.assignRanks index l).
Proof.
  intros H. revert index. induction H as [|a l _ IH Ha]; intros index; simpl; constructor.
  - apply IH.
  - apply Forall_forall. intros c Hc.
    apply assignRanks_In in Hc as (c0 & Hin & -> & _).
    rewrite Forall_forall in Ha. specialize (Ha _ Hin).
    unfold MatchingEngine.byScoreDesc in Ha. simpl. lia.
Qed.

Lemma byScoreDesc_sorted l :
  StronglySorted (fun a b => MatchingEngine.byScoreDesc a b <= 0)
                 (Array_sort MatchingEngine.byScoreDesc l).
Proof.
  apply Array_sort_sorted; unfold MatchingEngine.byScoreDesc.
  - intros a b H. apply Z.ltb_ge in H. lia.
  - intros a b c. lia.
Qed.

Lemma byScoreDesc_stable v l :
  filter (scoreIs v) (Array_sort MatchingEngine.byScoreDesc l) = filter (scoreIs v) l.
Proof.
  apply Array_sort_filter. unfold scoreIs, MatchingEngine.byScoreDesc.
  intros a b Ha Hb. apply Z.eqb_eq in Ha, Hb. apply Z.ltb_ge. lia.
Qed.

Lemma evaluated_unranked env w shiftId organizationId rules shift :
  Forall (fun c => MatchedCandidate.rank c = 0)
         (evaluated env w shiftId organizationId rules shift).
Proof.
  apply Forall_forall. intros c Hc.
  apply evaluateAll_In in Hc as (staff & _ & Hc).
  now apply evaluate_Some in Hc.
Qed.

Lemma findCandidates_Ok env shiftId organizationId locationId rules w out w' :
  MatchingEngine.findCandidates env shiftId organizationId locationId rules w = (Ok out, w') ->
  w' = w /\ exists shift,
    findUnique Shift.id shiftId (shifts w) = Some shift
    /\ out = MatchingEngine.assignRanks 0
               (Array_sort MatchingEngine.byScoreDesc
                  (evaluated env w shiftId organizationId rules shift)).
Proof.
  rewrite findCandidates_run.
  destruct (findUnique Shift.id shiftId (shifts w)) as [shift|]; [|discriminate].
  intros H. injection H as <- <-. eauto.
Qed.

(** Every returned candidate is the evaluation of one active staff member
    of the organization, with a rank written over the 0. *)
Lemma findCandidates_In env shiftId organizationId locationId rules w out w' c :
  MatchingEngine.findCandidates env shiftId organizationId locationId rules w = (Ok out, w') ->
  In c out ->
  exists shift staff c0,
    findUnique Shift.id shiftId (shifts w) = Some shift
    /\ In staff (users w)
    /\ MatchingEngine.isActiveStaffOf organizationId staff = true
    /\ MatchingEngine.evaluate (spreadRules DEFAULT_RULES rules) shift shiftId
         (weeklyShiftsOf env w organizationId shift) (recentPickupsOf env w organizationId)
         staff = Some c0
    /\ c = MatchingEngine.setRank (MatchedCandidate.rank c) c0.
Proof.
  intros Hrun Hc.
  apply findCandidates_Ok in Hrun as (_ & shift & Hshift & ->).
  apply assignRanks_In in Hc as (c0 & Hc0 & Hc & _).
  apply (Permutation_in _ (Array_sort_Permutation _ _)) in Hc0.
  apply evaluateAll_In in Hc0 as (staff & Hstaff & Hev).
  apply allStaffOf_In in Hstaff as [Hin Hact].
  exists shift, staff, c0. auto.
Qed.

Lemma isWorking_assignedElsewhere env w organizationId shift shiftId staff :
  MatchingEngine.isWorking (weeklyShiftsOf env w organizationId shift) shift shiftId staff = true
  <-> assignedElsewhere w organizationId shift shiftId (User.id staff).
Proof.
  unfold MatchingEngine.isWorking, assignedElsewhere, weeklyShiftsOf.
  rewrite existsb_exists. unfold MatchingEngine.inWeekOf, isId.
  split.
  - intros (s & Hin & H). apply filter_In in Hin as [Hin Hw].
    apply andb_prop in H as [H Hid]. apply andb_prop in H as [Ha Hd].
    apply andb_prop in Hw as [Hw Hst]. apply andb_prop in Hw as [Hw _].
    apply andb_prop in Hw as [Horg _].
    exists s. split; [exact Hin|].
    split; [now apply String.eqb_eq|].
    split; [destruct (Shift.status s); auto; discriminate|].
    split; [destruct (Shift.assignedToId s); [apply String.eqb_eq in Ha; congruence | discriminate]|].
    split; [now apply Z.eqb_eq|].
    apply String.eqb_neq. now destruct (String.eqb (Shift.id s) shiftId).
  - intros (s & Hin & Horg & Hst & Ha & Hd & Hid).
    exists s. split.
    + apply filter_In. split; [exact Hin|].
      rewrite Hd.
      pose proof (startOfWeek_le env (Shift.date shift)).
      pose proof (endOfWeek_ge env (Shift.date shift)).
      apply String.eqb_eq in Horg. rewrite Horg.
      replace (startOfWeek env (Shift.date shift) <=? Shift.date shift) with true
        by (symmetry; now apply Z.leb_le).
      replace (Shift.date shift <=? endOfWeek env (Shift.date shift)) with true
        by (symmetry; now apply Z.leb_le).
      destruct Hst as [-> | ->]; reflexivity.
    + rewrite Ha, Hd, String.eqb_refl, Z.eqb_refl.
      apply String.eqb_neq in Hid. now rewrite Hid.
Qed.

(** ** The quantities of the score *)


(** The week follows the zone: Sunday 7 January 2024, 02:00 UTC, opens a
    week for a process in UTC and, being Saturday evening on the Pacific
    coast, closes one for a process eight hours behind. *)
Lemma week_follows_the_zone :
  let d := Demo.jan10 - 3 * Demo.day + 2 * Demo.hour in
  let pacific := mkEnv Demo.jan10 (-8 * Demo.hour) true (fun _ _ => None) (fun text => text) in
  startOfWeek Demo.env d = Demo.jan10 - 3 * Demo.day
  /\ startOfWeek pacific d = Demo.jan10 - 10 * Demo.day + 8 * Demo.hour
  /\ weekOf pacific d = weekOf Demo.env d - 1.
Proof. cbv zeta. repeat split; vm_compute; reflexivity. Qed.









(** The weekly hours at work.  In the week of the demo B is given the four
    eight-hour shifts W1..W4 on other days and then covers S: B's shifts of
    that week, S among them, come to 40 hours, yet the ranking of S, which
    B now holds, counts S once with the week and once as the shift on
    offer, finds 48 and takes B to be in overtime. *)
Lemma held_shift_counts_twice :
  let week d id :=
    Shift.mk id (Demo.jan10 + d * Demo.day) (Demo.jan10 + d * Demo.day + 7 * Demo.hour)
             (Demo.jan10 + d * Demo.day + 15 * Demo.hour) ShiftStatus.SCHEDULED
             "loc" (Some "B") "org" in
  let w := mkWorld (users Demo.afterAccept)
             (shifts Demo.afterAccept ++ [week (-3) "W1"; week (-2) "W2"; week (-1) "W3";
                                          week 1 "W4"])
             (sickCalls Demo.afterAccept) [] (shiftResponses Demo.afterAccept) [] [] in
  exists out shift c,
    MatchingEngine.findCandidates Demo.env "S" "org" "loc" noRules w = (Ok out, w)
    /\ findUnique Shift.id "S" (shifts w) = Some shift
    /\ Shift.assignedToId shift = Some "B"
    /\ In c out
    /\ MatchedCandidate.userId c = "B"
    /\ MatchedCandidate.isAvailable c = true
    /\ weeklyHoursOf Demo.env w "org" shift "B" = 40
    /\ MatchedCandidate.hoursWorkedThisWeek c = 40
    /\ MatchedCandidate.willBeOvertime c = true
    /\ In (WouldBeOT 48) (MatchedCandidate.reasons c).
Proof.
  eexists _, _, _.
  split; [vm_compute; reflexivity|].
  split; [vm_compute; reflexivity|].
  split; [reflexivity|].
  split; [right; left; reflexivity|].
  vm_compute. repeat split; auto.
Qed.

Lemma evaluateAll_userIds body allStaff :
  (forall staff c, body staff = Some c -> MatchedCandidate.userId c = User.id staff) ->
  map MatchedCandidate.userId (MatchingEngine.evaluateAll body allStaff) =
  map User.id (filter (fun staff => match body staff with Some _ => true | None => false end)
                      allStaff).
Proof.
  intros Hid. induction allStaff as [|s l IH]; simpl; [reflexivity|].
  destruct (body s) eqn:E; simpl; [|exact IH].
  now rewrite IH, (Hid _ _ E).
Qed.

Lemma assignRanks_length index l :
  List.length (MatchingEngine.assignRanks index l) = List.length l.
Proof. revert index. induction l as [|a l IH]; intros index; simpl; [|rewrite IH]; reflexivity. Qed.

Lemma assignRanks_first index l c c' :
  StronglySorted (fun a b => MatchingEngine.byScoreDesc a b <= 0) l ->
  In c (MatchingEngine.assignRanks index l) ->
  MatchedCandidate.rank c = index + 1 ->
  In c' (MatchingEngine.assignRanks index l) ->
  MatchedCandidate.score c' <= MatchedCandidate.score c.
Proof.
  destruct l as [|a l]; simpl; [contradiction|].
  intros Hs [<- | Hc] Hrank Hc'.
  - destruct Hc' as [<- | Hc']; [lia|].
    apply assignRanks_In in Hc' as (c0 & Hin & -> & _).
    apply StronglySorted_inv in Hs as [_ Ha].
    rewrite Forall_forall in Ha. specialize (Ha _ Hin).
    unfold MatchingEngine.byScoreDesc in Ha. simpl. lia.
  - apply assignRanks_In in Hc as (_ & _ & _ & Hlt). lia.
Qed.

Lemma seniorFirst_sorted (l : list User.t) :
  StronglySorted seniorFirst (Array_sort seniorityDesc l).
Proof.
  pose proof (seniorityDesc_sorted l) as H.
  induction H as [|a t _ IH Ha]; constructor; [exact IH|].
  eapply Forall_impl; [|exact Ha].
  intros b. unfold seniorityDesc, seniorFirst.
  destruct (User.seniority a), (User.seniority b); lia.
Qed.

Lemma evaluate_seniority r shift shiftId weekly pickups staff c :
  MatchingEngine.evaluate r shift shiftId weekly pickups staff = Some c ->
  User.seniority (MatchedCandidate.user c) = MatchingEngine.knownSeniority staff.
Proof.
  unfold MatchingEngine.evaluate.
  destruct (MatchingEngine.isWorking weekly shift shiftId staff && prioritizeAvailability r);
    [discriminate|].
  destruct (MatchingEngine.isWorking weekly shift shiftId staff),
           (avoidOvertime r), (useSeniority r), (useFairness r),
           (_ >? overtimeThreshold r), (MatchingEngine.knownSeniority staff);
    unfold negb; cbv beta iota zeta; intros H;
    pose proof (f_equal (fun o => match o with Some x => x | None => c end) H) as E;
    cbv beta iota in E; rewrite <- E; reflexivity.
Qed.

Lemma knownSeniority_seniorFirst a b x y :
  seniorFirst a b ->
  MatchingEngine.knownSeniority a = Some x -> MatchingEngine.knownSeniority b = Some y ->
  y <= x.
Proof.
  unfold seniorFirst, MatchingEngine.knownSeniority.
  destruct (User.seniority a) as [[| |]|], (User.seniority b) as [[| |]|];
    intros H Ha Hb; try discriminate; injection Ha as <-; injection Hb as <-; exact H.
Qed.

Lemma evaluateAll_notJuniorFirst r shift shiftId weekly pickups staff :
  StronglySorted seniorFirst staff ->
  StronglySorted notJuniorFirst
    (MatchingEngine.evaluateAll (MatchingEngine.evaluate r shift shiftId weekly pickups) staff).
Proof.
  induction 1 as [|a l _ IH Ha]; simpl; [constructor|].
  destruct (MatchingEngine.evaluate r shift shiftId weekly pickups a) as [c|] eqn:Ea;
    [|exact IH].
  constructor; [exact IH|].
  apply Forall_forall. intros c' Hc'.
  apply evaluateAll_In in Hc' as (b & Hb & Eb).
  rewrite Forall_forall in Ha. specialize (Ha _ Hb).
  unfold notJuniorFirst.
  rewrite (evaluate_seniority _ _ _ _ _ _ _ Ea), (evaluate_seniority _ _ _ _ _ _ _ Eb).
  destruct (MatchingEngine.knownSeniority a) as [x|] eqn:Ka; [|exact I].
  destruct (MatchingEngine.knownSeniority b) as [y|] eqn:Kb; [|exact I].
  exact (knownSeniority_seniorFirst _ _ _ _ Ha Ka Kb).
Qed.

(** A stable sort by score leaves, within a score, the order it found. *)
Lemma sortInsert_rightlyBefore x l :
  StronglySorted rightlyBefore l ->
  Forall (notJuniorFirst x) l ->
  StronglySorted rightlyBefore (sortInsert MatchingEngine.byScoreDesc x l).
Proof.
  induction 1 as [|y l Hs IH Hy]; intros Hx; simpl.
  - constructor; constructor.
  - apply Forall_cons_iff in Hx as [Hxy Hx].
    unfold MatchingEngine.byScoreDesc at 1.
    destruct (MatchedCandidate.score x - MatchedCandidate.score y <? 0) eqn:E.
    + apply Z.ltb_lt in E. constructor; [now apply IH|].
      eapply Permutation_Forall; [symmetry; apply sortInsert_Permutation|].
      constructor; [left; lia | exact Hy].
    + apply Z.ltb_ge in E.
      assert (Rxy : rightlyBefore x y).
      { unfold rightlyBefore.
        destruct (Z.eq_dec (MatchedCandidate.score y) (MatchedCandidate.score x));
          [right; split; assumption | left; lia]. }
      constructor; [now constructor|].
      constructor; [exact Rxy|].
      rewrite Forall_forall in Hy, Hx. apply Forall_forall. intros z Hz.
      specialize (Hy _ Hz). specialize (Hx _ Hz).
      unfold rightlyBefore in *.
      destruct (Z.eq_dec (MatchedCandidate.score z) (MatchedCandidate.score x));
        [right; split; assumption | left].
      destruct Hy as [Hy | [Hy _]]; lia.
Qed.

Lemma Array_sort_rightlyBefore l :
  StronglySorted notJuniorFirst l ->
  StronglySorted rightlyBefore (Array_sort MatchingEngine.byScoreDesc l).
Proof.
  induction 1 as [|x l _ IH Hx]; simpl; [constructor|].
  apply sortInsert_rightlyBefore; [exact IH|].
  eapply Permutation_Forall; [symmetry; apply Array_sort_Permutation | exact Hx].
Qed.

Lemma assignRanks_rightlyBefore index l :
  StronglySorted rightlyBefore l ->
  StronglySorted rightlyBefore (MatchingEngine.assignRanks index l).
Proof.
  intros H. revert index. induction H as [|a l _ IH Ha]; intros index; simpl; constructor.
  - apply IH.
  - apply Forall_forall. intros c Hc.
    apply assignRanks_In in Hc as (c0 & Hin & -> & _).
    rewrite Forall_forall in Ha. exact (Ha _ Hin).
Qed.

(** C2.  Whenever [findCandidates] returns, the list is sorted by score in
    descending order, its ranks are 1..N in list order, and the candidate
    of rank 1 has the maximum score.  Candidates of equal score stand in
    the order in which the staff query delivered them, which is seniority
    descending: of two candidates with the same score and a seniority each,
    the junior one never comes first.  Asking again, on the store as the
    first call left it, returns the identical list. *)
Theorem findCandidates_ranked env shiftId organizationId locationId rules w out w' :
  MatchingEngine.findCandidates env shiftId organizationId locationId rules w = (Ok out, w') ->
  rankedInOrder env w shiftId organizationId rules out
  /\ MatchingEngine.findCandidates env shiftId organizationId locationId rules w' = (Ok out, w').
Proof.
  intros Hrun.
  destruct (findCandidates_Ok _ _ _ _ _ _ _ _ Hrun) as (-> & shift & Hshift & ->).
  split; [|exact Hrun].
  exists shift. split; [exact Hshift|]. cbv zeta.
  pose proof (byScoreDesc_sorted (evaluated env w shiftId organizationId rules shift)) as Hs.
  pose proof (evaluated_unranked env w shiftId organizationId rules shift) as H0.
  assert (H0' : Forall (fun c => MatchedCandidate.rank c = 0)
                  (Array_sort MatchingEngine.byScoreDesc
                     (evaluated env w shiftId organizationId rules shift))).
  { eapply Permutation_Forall; [symmetry; apply Array_sort_Permutation | exact H0]. }
  split; [now apply assignRanks_sorted|].
  split.
  { rewrite assignRanks_ranks, assignRanks_length. apply map_ext. intros k. lia. }
  split; [intros c c' Hc Hr Hc'; now apply (assignRanks_first 0 _ c c' Hs)|].
  split.
  { apply assignRanks_rightlyBefore, Array_sort_rightlyBefore.
    unfold evaluated. apply evaluateAll_notJuniorFirst, seniorFirst_sorted. }
  rewrite (assignRanks_unrank _ _ H0').
  split; [apply Array_sort_Permutation|].
  split; [intros v; apply byScoreDesc_stable|].
  split.
  { unfold evaluated, pushed. apply evaluateAll_userIds.
    intros staff c Hc. now apply evaluate_Some in Hc. }
  split; [apply Array_sort_Permutation | apply seniorFirst_sorted].
Qed.

(** C2 at work: the default ranking of the demo. *)
Lemma findCandidates_ranked_witness :
  rankedInOrder Demo.env Demo.afterSubmit "S" "org" noRules Demo.ranked
  /\ MatchingEngine.findCandidates Demo.env "S" "org" "loc" noRules Demo.afterSubmit
     = (Ok Demo.ranked, Demo.afterSubmit).
Proof.
  apply (findCandidates_ranked Demo.env "S" "org" "loc" noRules Demo.afterSubmit
           Demo.ranked Demo.afterSubmit).
  vm_compute. reflexivity.
Defined.

(** A tie at work.  Q, of seniority 8, is stored before P, of seniority 10;
    P has one accepted pickup in the last thirty days, Q none, so both
    score 1980 for the open shift T.  The senior P is ranked first. *)
Lemma tie_goes_to_the_senior :
  let P := Demo.staff "P" (Some 10) "o2" in
  let Q := Demo.staff "Q" (Some 8) "o2" in
  let T := Shift.mk "T" Demo.jan10 (Demo.jan10 + 7 * Demo.hour)
             (Demo.jan10 + 15 * Demo.hour) ShiftStatus.SCHEDULED "loc" None "o2" in
  let call := SickCall.mk "c" "Q" "T0" "loc" None SickCallStatus.COVERED [] (Some "P")
                (Some (Demo.jan10 - 5 * Demo.day)) (Demo.jan10 - 5 * Demo.day) "o2" in
  let pickup := ShiftResponse.mk "r" "c" "T0" "P" ACCEPT "yes"
                  (Demo.jan10 - 5 * Demo.day) in
  let w := mkWorld [Q; P] [T] [call] [] [pickup] [] [] in
  exists out,
    MatchingEngine.findCandidates Demo.env "T" "o2" "loc" noRules w = (Ok out, w)
    /\ map (fun c => (MatchedCandidate.userId c, MatchedCandidate.score c,
                      MatchedCandidate.rank c)) out
       = [("P", 1980, 1); ("Q", 1980, 2)].
Proof.
  cbv zeta. eexists. split; vm_compute; reflexivity.
Qed.

(** C7, as amended.  [findCandidates] never changes the world; it fails,
    with "Shift not found", exactly when no shift has the given id, and
    returns a list for every shift that exists, whichever organization the
    shift belongs to. *)
Theorem findCandidates_not_found env shiftId organizationId locationId rules w :
  let run := MatchingEngine.findCandidates env shiftId organizationId locationId rules w in
  snd run = w
  /\ (findUnique Shift.id shiftId (shifts w) = None <-> fst run = Throw "Shift not found")
  /\ (findUnique Shift.id shiftId (shifts w) <> None <-> exists out, fst run = Ok out).
Proof.
  cbv zeta. rewrite findCandidates_run.
  destruct (findUnique Shift.id shiftId (shifts w)) as [shift|]; simpl.
  - split; [reflexivity|]. split; split; try discriminate; eauto.
  - split; [reflexivity|]. split; split; try reflexivity; try congruence.
    intros [out H]. discriminate.
Qed.

(** C7, as stated, fails for a shift of another organization: S belongs to
    "org", yet ranking it for "elsewhere" succeeds and returns that
    organization's staff. *)
Lemma foreign_shift_is_ranked :
  exists shift out,
    findUnique Shift.id "S" (shifts Demo.world) = Some shift
    /\ Shift.organizationId shift = "org"
    /\ MatchingEngine.findCandidates Demo.env "S" "elsewhere" "loc" noRules Demo.world
       = (Ok out, Demo.world)
    /\ map MatchedCandidate.userId out = ["D"].
Proof.
  eexists _, _.
  split; [vm_compute; reflexivity|].
  split; [reflexivity|].
  split; [vm_compute; reflexivity|].
  reflexivity.
Qed.

(** ** Running the monad, one call at a time *)

Lemma bind_unfold {A B} (m : M A) (k : A -> M B) w :
  bind m k w = match m w with
               | (Ok a, w') => k a w'
               | (Throw e, w') => (Throw e, w')
               end.
Proof. reflexivity. Qed.

Lemma tryCatch_unfold {A} (m : M A) (handler : string -> M A) w :
  tryCatch m handler w = match m w with
                         | (Ok a, w') => (Ok a, w')
                         | (Throw e, w') => handler e w'
                         end.
Proof. reflexivity. Qed.

Lemma ret_run {A} (a : A) w : ret a w = (Ok a, w).
Proof. reflexivity. Qed.

Lemma throw_run {A} e w : @throw A e w = (Throw e, w).
Proof. reflexivity. Qed.

Lemma log_run e w : log e w = (Ok tt, logged [e] w).
Proof. reflexivity. Qed.

Lemma logAll_run es w : logAll es w = (Ok tt, logged es w).
Proof.
  revert w. induction es as [|e es IH]; intros w.
  - destruct w. unfold logged. simpl. now rewrite app_nil_r.
  - cbn [logAll]. rewrite bind_unfold, log_run, IH.
    unfold logged. cbn. now rewrite <- app_assoc.
Qed.

Lemma user_findUnique_run id w :
  Prisma.user_findUnique id w = (Ok (findUnique User.id id (users w)), w).
Proof. reflexivity. Qed.

Lemma shift_findUnique_run id w :
  Prisma.shift_findUnique id w = (Ok (findUnique Shift.id id (shifts w)), w).
Proof. reflexivity. Qed.

Lemma sickCall_findUnique_run id w :
  Prisma.sickCall_findUnique id w = (Ok (findUnique SickCall.id id (sickCalls w)), w).
Proof. reflexivity. Qed.

Lemma notification_create_run data w :
  let row := data (freshId (map Notification.id (notifications w))) in
  Prisma.notification_create data w =
  (Ok row, logged [Created (RNotification row)] (setNotifications (notifications w ++ [row]) w)).
Proof. reflexivity. Qed.

Lemma sickCall_create_run data w :
  let row := data (freshId (map SickCall.id (sickCalls w))) in
  Prisma.sickCall_create data w =
  (Ok row, logged [Created (RSickCall row)] (setSickCalls (sickCalls w ++ [row]) w)).
Proof. reflexivity. Qed.

Lemma shiftResponse_create_run data w :
  let row := data (freshId (map ShiftResponse.id (shiftResponses w))) in
  Prisma.shiftResponse_create data w =
  (Ok row, logged [Created (RShiftResponse row)]
             (setShiftResponses (shiftResponses w ++ [row]) w)).
Proof. reflexivity. Qed.

Lemma auditLog_create_run data w :
  let row := data (freshId (map AuditLog.id (auditLogs w))) in
  Prisma.auditLog_create data w =
  (Ok row, logged [Created (RAuditLog row)] (setAuditLogs (auditLogs w ++ [row]) w)).
Proof. reflexivity. Qed.

Lemma shift_update_run id data w :
  Prisma.shift_update id data w =
  match findUnique Shift.id id (shifts w) with
  | Some s =>
      (Ok (data s),
       logged [Updated (RShift (data s))]
              (setShifts (updateMany (hasId Shift.id id) data (shifts w)) w))
  | None => (Throw recordNotFound, w)
  end.
Proof.
  unfold Prisma.shift_update. rewrite bind_unfold, shift_findUnique_run.
  destruct (findUnique Shift.id id (shifts w)); reflexivity.
Qed.

Lemma sickCall_update_run id data w :
  Prisma.sickCall_update id data w =
  match findUnique SickCall.id id (sickCalls w) with
  | Some c =>
      (Ok (data c),
       logged [Updated (RSickCall (data c))]
              (setSickCalls (updateMany (hasId SickCall.id id) data (sickCalls w)) w))
  | None => (Throw recordNotFound, w)
  end.
Proof.
  unfold Prisma.sickCall_update. rewrite bind_unfold, sickCall_findUnique_run.
  destruct (findUnique SickCall.id id (sickCalls w)); reflexivity.
Qed.

Lemma notification_update_run id data w :
  Prisma.notification_update id data w =
  match findUnique Notification.id id (notifications w) with
  | Some n =>
      (Ok (data n),
       logged [Updated (RNotification (data n))]
              (setNotifications (updateMany (hasId Notification.id id) data (notifications w)) w))
  | None => (Throw recordNotFound, w)
  end.
Proof.
  unfold Prisma.notification_update. rewrite bind_unfold. unfold gets at 1.
  destruct (findUnique Notification.id id (notifications w)); reflexivity.
Qed.

Lemma notification_updateMany_run where_ data w :
  Prisma.notification_updateMany where_ data w =
  (Ok tt,
   logged (map (fun n => Updated (RNotification (data n))) (filter where_ (notifications w)))
          (setNotifications (updateMany where_ data (notifications w)) w)).
Proof.
  unfold Prisma.notification_updateMany. rewrite bind_unfold. unfold gets at 1.
  rewrite bind_unfold. unfold modify at 1. now rewrite logAll_run.
Qed.

Lemma twilio_messages_create_run env to body w :
  NotificationService.twilio_messages_create env to body w =
  match twilioAnswer env to body with
  | Some sid => (Ok sid, logged [TwilioCreate to body] w)
  | None => (Throw "Twilio request failed", logged [TwilioCreate to body] w)
  end.
Proof.
  unfold NotificationService.twilio_messages_create. rewrite bind_unfold, log_run.
  destruct (twilioAnswer env to body); reflexivity.
Qed.

(** Normal form of a world built by the steps above, once [w] is a
    literal [mkWorld]. *)
Ltac world :=
  cbv beta iota;
  unfold logged, withNotifications, setUsers, setShifts, setSickCalls, setNotifications,
         setShiftResponses, setAuditLogs;
  cbn [users shifts sickCalls notifications shiftResponses auditLogs effects
       Notification.id SickCall.id Shift.id User.id ShiftResponse.id AuditLog.id].

Ltac step lemma := rewrite ?bind_unfold, lemma; rewrite ?ret_run, ?throw_run; world.

Lemma updateMany_fresh {R} (key : R -> Id) k (f : R -> R) t r :
  ~ In k (map key t) -> key r = k ->
  updateMany (hasId key k) f (t ++ [r]) = t ++ [f r].
Proof.
  intros Hfresh Hk. rewrite updateMany_app. f_equal.
  - apply updateMany_id. intros r' Hr'. unfold hasId.
    apply String.eqb_neq. intros E. apply Hfresh. rewrite <- E. now apply in_map.
  - simpl. unfold hasId. rewrite Hk, String.eqb_refl. reflexivity.
Qed.

Lemma sendSMS_run env recipientId sickCallId message w recipient phone :
  findUnique User.id recipientId (users w) = Some recipient ->
  truthy (User.phone recipient) = Some phone ->
  let n := pendingNotification w recipientId sickCallId message in
  let sent sid := NotificationService.markSent env sid n in
  let emit := Emit (User.organizationId recipient)
                (notification_sent (Notification.id n) recipientId sickCallId) in
  NotificationService.sendSMS env recipientId sickCallId message w =
  if twilioConfigured env then
    match twilioAnswer env phone message with
    | Some sid =>
        (Ok (Some (Notification.id n)),
         withNotifications (notifications w ++ [sent sid])
           [Created (RNotification n); TwilioCreate phone message;
            Updated (RNotification (sent sid)); emit] w)
    | None =>
        (Ok None,
         withNotifications
           (updateMany (NotificationService.pendingFor sickCallId recipientId)
                       NotificationService.markFailed (notifications w ++ [n]))
           (Created (RNotification n) :: TwilioCreate phone message ::
            map (fun m => Updated (RNotification (NotificationService.markFailed m)))
                (filter (NotificationService.pendingFor sickCallId recipientId)
                        (notifications w ++ [n]))) w)
    end
  else
    let sid := String.append "mock-" (decimal (now env)) in
    (Ok (Some (Notification.id n)),
     withNotifications (notifications w ++ [sent sid])
       [Created (RNotification n); Updated (RNotification (sent sid)); emit] w).
Proof.
  intros Hr Hp. cbv zeta. unfold pendingNotification.
  destruct w as [us sh sc ns rs al es]. world. cbn [users] in Hr.
  pose proof (freshId_fresh (map Notification.id ns)) as Hfresh.
  unfold NotificationService.sendSMS.
  rewrite tryCatch_unfold.
  step user_findUnique_run. rewrite Hr, Hp.
  step notification_create_run.
  destruct (twilioConfigured env).
  - step twilio_messages_create_run.
    destruct (twilioAnswer env phone message) as [sid|].
    + step notification_update_run.
      erewrite findUnique_app_fresh; [|exact Hfresh|reflexivity].
      step log_run. erewrite updateMany_fresh; [|exact Hfresh|reflexivity].
      rewrite <- !app_assoc. reflexivity.
    + world. step notification_updateMany_run. 
      rewrite <- !app_assoc. reflexivity.
  - step notification_update_run.
    erewrite findUnique_app_fresh; [|exact Hfresh|reflexivity].
    step log_run. erewrite updateMany_fresh; [|exact Hfresh|reflexivity].
    rewrite <- !app_assoc. reflexivity.
Qed.

Lemma sendSMS_unresolved env recipientId sickCallId message w :
  match findUnique User.id recipientId (users w) with
  | Some recipient => truthy (User.phone recipient) = None
  | None => True
  end ->
  NotificationService.sendSMS env recipientId sickCallId message w =
  (Ok None,
   withNotifications
     (updateMany (NotificationService.pendingFor sickCallId recipientId)
                 NotificationService.markFailed (notifications w))
     (map (fun m => Updated (RNotification (NotificationService.markFailed m)))
          (filter (NotificationService.pendingFor sickCallId recipientId) (notifications w)))
     w).
Proof.
  intros H. destruct w as [us sh sc ns rs al es]. world. cbn [users] in H.
  unfold NotificationService.sendSMS.
  rewrite tryCatch_unfold. step user_findUnique_run.
  destruct (findUnique User.id recipientId us) as [recipient|];
    [rewrite H|]; rewrite throw_run; step notification_updateMany_run; reflexivity.
Qed.

Lemma pendingNotification_pending w recipientId sickCallId message :
  NotificationService.pendingFor sickCallId recipientId
    (pendingNotification w recipientId sickCallId message) = true.
Proof.
  unfold NotificationService.pendingFor, pendingNotification. simpl.
  now rewrite !String.eqb_refl.
Qed.

Lemma filter_updateMany {R} (p q : R -> bool) f t :
  (forall r, p r = true -> q r = false) -> (forall r, q (f r) = q r) ->
  filter q (updateMany p f t) = filter q t.
Proof.
  intros Hpq Hf. unfold updateMany.
  induction t as [|r t IH]; simpl; [reflexivity|].
  destruct (p r) eqn:P.
  - rewrite Hf, (Hpq _ P). exact IH.
  - destruct (q r); now rewrite IH.
Qed.

(** C8.  For a recipient that exists and has a phone number, [sendSMS]
    first persists a notification with status PENDING (the first entry it
    adds to the log), only then calls the transport, and afterwards
    updates that record: to SENT with the send time and the external id
    when the transport answered, to FAILED when it did not.  A transport
    failure is not propagated: the call returns [null] and touches nothing
    but the notification table and the log. *)
Theorem sendSMS_records_delivery env recipientId sickCallId message w recipient phone :
  findUnique User.id recipientId (users w) = Some recipient ->
  truthy (User.phone recipient) = Some phone ->
  exists result w',
    NotificationService.sendSMS env recipientId sickCallId message w = (Ok result, w')
    /\ recordsDelivery env recipientId sickCallId message phone w result w'.
Proof.
  intros Hr Hp.
  rewrite (sendSMS_run _ _ _ _ _ _ _ Hr Hp). cbv zeta.
  pose proof (freshId_fresh (map Notification.id (notifications w))) as Hfresh.
  unfold recordsDelivery, transportOutcome, onlyNotifies.
  destruct (twilioConfigured env);
    [destruct (twilioAnswer env phone message) as [sid|]|];
    eexists _, _; (split; [reflexivity|]);
    (split; [exact Hfresh|]); (split; [reflexivity|]).
  - split; [eexists; split; [reflexivity | intros _; eexists; reflexivity]|].
    repeat split.
  - split; [eexists; split; [reflexivity | intros _; eexists; reflexivity]|].
    split; [repeat split|]. split; [reflexivity|].
    cbn [withNotifications logged setNotifications notifications].
    rewrite updateMany_app. f_equal. cbn [updateMany map].
    now rewrite pendingNotification_pending.
  - split; [eexists; split; [reflexivity | discriminate]|].
    repeat split.
Qed.

(** C8 at work: an offer to B while the transport is down. *)
Lemma sendSMS_records_delivery_witness :
  exists result w',
    NotificationService.sendSMS Demo.envDown "B" Demo.call (OfferText Demo.S) Demo.afterSubmit
      = (Ok result, w')
    /\ recordsDelivery Demo.envDown "B" Demo.call (OfferText Demo.S) "+1-604-555-0201"
         Demo.afterSubmit result w'.
Proof.
  apply (sendSMS_records_delivery Demo.envDown "B" Demo.call (OfferText Demo.S)
           Demo.afterSubmit Demo.B "+1-604-555-0201"); reflexivity.
Defined.

(** Whatever the recipient, [sendSMS] returns normally and leaves every
    table but the notifications alone; the notifications of every other
    user stay as they were. *)
Lemma sendSMS_frame env recipientId sickCallId message w :
  exists result w',
    NotificationService.sendSMS env recipientId sickCallId message w = (Ok result, w')
    /\ onlyNotifies w w'
    /\ forall staffId, staffId <> recipientId -> notifiedTo staffId w' = notifiedTo staffId w.
Proof.
  assert (Hother : forall staffId t, staffId <> recipientId ->
            filter (fun n => String.eqb (Notification.recipientId n) staffId)
                   (updateMany (NotificationService.pendingFor sickCallId recipientId)
                      NotificationService.markFailed t)
            = filter (fun n => String.eqb (Notification.recipientId n) staffId) t).
  { intros staffId t Hne. apply filter_updateMany; [|reflexivity].
    intros n Hn. unfold NotificationService.pendingFor in Hn.
    apply andb_prop in Hn as [Hn _]. apply andb_prop in Hn as [_ Hn].
    apply String.eqb_eq in Hn. rewrite Hn. apply String.eqb_neq. congruence. }
  destruct (findUnique User.id recipientId (users w)) as [recipient|] eqn:Hr.
  - destruct (truthy (User.phone recipient)) as [phone|] eqn:Hp.
    + rewrite (sendSMS_run _ _ _ _ _ _ _ Hr Hp). cbv zeta.
      assert (Hne : forall staffId, staffId <> recipientId ->
                String.eqb recipientId staffId = false)
        by (intros; apply String.eqb_neq; congruence).
      destruct (twilioConfigured env);
        [destruct (twilioAnswer env phone message) as [sid|]|];
        eexists _, _; (split; [reflexivity|]); (split; [repeat split|]);
        intros staffId Hs; unfold notifiedTo;
        cbn [withNotifications logged setNotifications notifications];
        rewrite ?Hother by assumption; rewrite filter_app; cbn [filter];
        cbn [NotificationService.markSent pendingNotification Notification.recipientId];
        rewrite (Hne _ Hs); apply app_nil_r.
    + rewrite sendSMS_unresolved by (now rewrite Hr).
      eexists _, _. split; [reflexivity|]. split; [repeat split|].
      intros staffId Hs. now apply Hother.
  - rewrite sendSMS_unresolved by (now rewrite Hr).
    eexists _, _. split; [reflexivity|]. split; [repeat split|].
    intros staffId Hs. now apply Hother.
Qed.

(** ** The coverage workflow *)

Lemma assignShift_run env sickCallId staffId managerId reason w sickCall shift :
  findUnique SickCall.id sickCallId (sickCalls w) = Some sickCall ->
  findUnique Shift.id (SickCall.shiftId sickCall) (shifts w) = Some shift ->
  let audit :=
    AuditLog.mk (freshId (map AuditLog.id (auditLogs w))) (SickCall.organizationId sickCall)
      (match truthy managerId with Some m => m | None => staffId end) sickCallId
      (match truthy managerId with Some _ => MANUAL_ASSIGNMENT | None => SHIFT_ACCEPTED end)
      (AssignedDetails staffId (SickCall.shiftId sickCall) reason) in
  exists w',
    SickCalls.assignShift env sickCallId staffId managerId reason w = (Ok tt, w')
    /\ users w' = users w
    /\ shifts w' = updateMany (hasId Shift.id (SickCall.shiftId sickCall))
                              (SickCalls.setShiftCovered staffId) (shifts w)
    /\ sickCalls w' = updateMany (hasId SickCall.id sickCallId)
                                 (SickCalls.setCovered env staffId) (sickCalls w)
    /\ shiftResponses w' = shiftResponses w
    /\ auditLogs w' = auditLogs w ++ [audit].
Proof.
  intros Hc Hs. cbv zeta.
  destruct w as [us sh sc ns rs al es]. world. cbn [sickCalls shifts] in Hc, Hs.
  unfold SickCalls.assignShift.
  step sickCall_findUnique_run. rewrite Hc.
  step shift_findUnique_run. rewrite Hs.
  step sickCall_update_run. rewrite Hc.
  step shift_update_run. rewrite Hs.
  step auditLog_create_run.
  step user_findUnique_run.
  destruct (findUnique User.id staffId us) as [staff|].
  - unfold SickCalls.includedShift. rewrite !bind_unfold, ret_run. world. rewrite ?bind_unfold.
    match goal with
    | |- context [NotificationService.sendSMS ?e ?r ?s ?m ?w0] =>
        destruct (sendSMS_frame e r s m w0) as (result & w1 & Hrun & Hframe & _)
    end.
    rewrite ?bind_unfold, Hrun. world. rewrite ?ret_run. world.
    destruct Hframe as (Hu & Hsh & Hsc & Hrs & Hal). cbn in Hu, Hsh, Hsc, Hrs, Hal.
    eexists. split; [reflexivity|]. world. auto.
  - eexists. split; [reflexivity|]. world. auto.
Qed.

Lemma ShiftStatus_eqb_eq a b : ShiftStatus.eqb a b = true <-> a = b.
Proof. destruct a, b; simpl; split; congruence. Qed.

Lemma not_covered_eqb status :
  status <> SickCallStatus.COVERED -> SickCallStatus.eqb status SickCallStatus.COVERED = false.
Proof. destruct status; simpl; congruence. Qed.

Lemma assignShift_coveredBy env sickCallId staffId w w' sickCall shift :
  findUnique SickCall.id sickCallId (sickCalls w) = Some sickCall ->
  findUnique Shift.id (SickCall.shiftId sickCall) (shifts w) = Some shift ->
  shifts w' = updateMany (hasId Shift.id (SickCall.shiftId sickCall))
                         (SickCalls.setShiftCovered staffId) (shifts w) ->
  sickCalls w' = updateMany (hasId SickCall.id sickCallId)
                            (SickCalls.setCovered env staffId) (sickCalls w) ->
  coveredBy staffId sickCallId w'.
Proof.
  intros Hc Hs Hsh Hsc.
  exists (SickCalls.setCovered env staffId sickCall), (SickCalls.setShiftCovered staffId shift).
  rewrite Hsc, Hsh.
  rewrite (findUnique_updateMany SickCall.id) by (intros r; reflexivity).
  cbn [SickCalls.setCovered SickCall.shiftId].
  rewrite (findUnique_updateMany Shift.id) by (intros r; reflexivity).
  rewrite Hc, Hs. repeat split.
Qed.

(** Replying with an accept word to a sick call that is not covered. *)
Lemma respond_accept_run env user sickCallId responseText w sickCall shift :
  findUnique SickCall.id sickCallId (sickCalls w) = Some sickCall ->
  SickCall.status sickCall <> SickCallStatus.COVERED ->
  NotificationService.parseResponse env responseText = Some ACCEPT ->
  findUnique Shift.id (SickCall.shiftId sickCall) (shifts w) = Some shift ->
  exists w',
    SickCalls.respond env user sickCallId responseText w = (Ok acceptedReply, w')
    /\ users w' = users w
    /\ coveredBy (AuthUser.id user) sickCallId w'
    /\ oneResponse ACCEPT (AuthUser.id user) sickCallId w w'
    /\ oneAudit SHIFT_ACCEPTED sickCallId w w'.
Proof.
  intros Hc Hst Hp Hs.
  destruct w as [us sh sc ns rs al es]. cbn [sickCalls shifts] in Hc, Hs.
  unfold SickCalls.respond. rewrite tryCatch_unfold.
  step sickCall_findUnique_run. rewrite Hc, (not_covered_eqb _ Hst), Hp.
  step shiftResponse_create_run. cbn [negb]. rewrite ?bind_unfold.
  match goal with
  | |- context [SickCalls.assignShift ?e ?i ?s ?m ?r ?w0] =>
      destruct (assignShift_run e i s m r w0 sickCall shift Hc Hs)
        as (w1 & Hrun & Hu & Hsh & Hsc & Hrs & Hal)
  end.
  rewrite ?bind_unfold, Hrun. world. step log_run.
  cbn [users shifts sickCalls shiftResponses auditLogs] in Hu, Hsh, Hsc, Hrs, Hal.
  eexists. split; [reflexivity|]. world.
  split; [exact Hu|].
  split.
  { apply (assignShift_coveredBy env sickCallId (AuthUser.id user)
             (mkWorld us sh sc ns rs al es) _ sickCall shift Hc Hs);
      cbn [shifts sickCalls]; assumption. }
  split; [eexists; split; [exact Hrs | repeat split]|].
  eexists; split; [exact Hal | repeat split].
Qed.

(** The manager's route: same writes, audit entry of the other kind. *)
Lemma assign_run env manager sickCallId staffId reason w sickCall shift :
  SickCalls.authorized manager = true ->
  AuthUser.id manager <> "" ->
  findUnique SickCall.id sickCallId (sickCalls w) = Some sickCall ->
  findUnique Shift.id (SickCall.shiftId sickCall) (shifts w) = Some shift ->
  exists w',
    SickCalls.assign env manager sickCallId staffId reason w
      = (Ok (mkReply 200 "Shift assigned successfully"), w')
    /\ coveredBy staffId sickCallId w'
    /\ oneAudit MANUAL_ASSIGNMENT sickCallId w w'.
Proof.
  intros Ha Hm Hc Hs.
  unfold SickCalls.assign. rewrite Ha. cbn [negb]. rewrite tryCatch_unfold.
  destruct (assignShift_run env sickCallId staffId (Some (AuthUser.id manager)) reason
              w sickCall shift Hc Hs) as (w1 & Hrun & Hu & Hsh & Hsc & Hrs & Hal).
  rewrite bind_unfold, Hrun. world. rewrite ret_run.
  eexists. split; [reflexivity|].
  split; [eapply assignShift_coveredBy; eauto|].
  eexists. split; [exact Hal|].
  destruct (AuthUser.id manager) as [|ch rest]; [congruence|]. repeat split.
Qed.

(** C4.  An accept word sent to a sick call that is not yet covered gets
    the reply "Shift assigned to you!"; one response of type ACCEPT is
    recorded; the sick call becomes COVERED with the responder as covering
    staff; the shift becomes COVERED and assigned to the responder; and
    exactly one audit entry is added, of kind SHIFT_ACCEPTED.  The kind
    MANUAL_ASSIGNMENT is what the manager's assign route writes instead. *)
Theorem respond_accept_covers env user sickCallId responseText w sickCall shift :
  findUnique SickCall.id sickCallId (sickCalls w) = Some sickCall ->
  SickCall.status sickCall <> SickCallStatus.COVERED ->
  NotificationService.parseResponse env responseText = Some ACCEPT ->
  findUnique Shift.id (SickCall.shiftId sickCall) (shifts w) = Some shift ->
  (exists w',
     SickCalls.respond env user sickCallId responseText w = (Ok acceptedReply, w')
     /\ oneResponse ACCEPT (AuthUser.id user) sickCallId w w'
     /\ coveredBy (AuthUser.id user) sickCallId w'
     /\ oneAudit SHIFT_ACCEPTED sickCallId w w')
  /\ (forall manager staffId reason,
        SickCalls.authorized manager = true -> AuthUser.id manager <> "" ->
        exists w',
          SickCalls.assign env manager sickCallId staffId reason w
            = (Ok (mkReply 200 "Shift assigned successfully"), w')
          /\ oneAudit MANUAL_ASSIGNMENT sickCallId w w').
Proof.
  intros Hc Hst Hp Hs. split.
  - destruct (respond_accept_run env user _ _ _ _ _ Hc Hst Hp Hs)
      as (w' & Hrun & _ & Hcov & Hresp & Haud).
    exists w'. auto.
  - intros manager staffId reason Ha Hm.
    destruct (assign_run env manager _ staffId reason _ _ _ Ha Hm Hc Hs)
      as (w' & Hrun & _ & Haud).
    exists w'. auto.
Qed.

(** C5.  A reply to a sick call that is already COVERED is refused with
    status 400 "Shift already covered", whatever its text, and the world is
    left exactly as it was: nothing recorded, nothing assigned, nothing
    emitted. *)
Theorem respond_covered_refused env user sickCallId responseText w sickCall :
  findUnique SickCall.id sickCallId (sickCalls w) = Some sickCall ->
  SickCall.status sickCall = SickCallStatus.COVERED ->
  SickCalls.respond env user sickCallId responseText w
    = (Ok (mkReply 400 "Shift already covered"), w).
Proof.
  intros Hc Hst. unfold SickCalls.respond.
  rewrite tryCatch_unfold, bind_unfold, sickCall_findUnique_run.
  cbv beta iota. rewrite Hc, Hst. reflexivity.
Qed.

(** C10.  [respond] identifies the responder by the token alone.  For every
    authenticated user, of whatever role and organization, notified or not
    and ranked or not, an accept word sent to a sick call that is not
    covered is recorded as that user's response and makes that user the
    covering staff of the sick call and the assignee of its shift. *)
Theorem respond_checks_no_membership env user sickCallId responseText w sickCall shift :
  findUnique SickCall.id sickCallId (sickCalls w) = Some sickCall ->
  SickCall.status sickCall <> SickCallStatus.COVERED ->
  NotificationService.parseResponse env responseText = Some ACCEPT ->
  findUnique Shift.id (SickCall.shiftId sickCall) (shifts w) = Some shift ->
  exists w',
    SickCalls.respond env user sickCallId responseText w = (Ok acceptedReply, w')
    /\ (exists response, In response (shiftResponses w')
          /\ ShiftResponse.staffId response = AuthUser.id user
          /\ ShiftResponse.sickCallId response = sickCallId
          /\ ShiftResponse.responseType response = ACCEPT)
    /\ coveredBy (AuthUser.id user) sickCallId w'.
Proof.
  intros Hc Hst Hp Hs.
  destruct (respond_accept_run env user _ _ _ _ _ Hc Hst Hp Hs)
    as (w' & Hrun & _ & Hcov & (response & Hresp & Hty & Hid & Hsc) & _).
  exists w'. split; [exact Hrun|]. split; [|exact Hcov].
  exists response. rewrite Hresp. split; [apply in_or_app; right; now left|]. auto.
Qed.

(** C4 at work: B's YES to the sick call of the demo. *)
Lemma respond_accept_covers_witness :
  (exists w',
     SickCalls.respond Demo.env Demo.asB Demo.call "YES" Demo.afterNotify
       = (Ok acceptedReply, w')
     /\ oneResponse ACCEPT "B" Demo.call Demo.afterNotify w'
     /\ coveredBy "B" Demo.call w'
     /\ oneAudit SHIFT_ACCEPTED Demo.call Demo.afterNotify w')
  /\ (forall manager staffId reason,
        SickCalls.authorized manager = true -> AuthUser.id manager <> "" ->
        exists w',
          SickCalls.assign Demo.env manager Demo.call staffId reason Demo.afterNotify
            = (Ok (mkReply 200 "Shift assigned successfully"), w')
          /\ oneAudit MANUAL_ASSIGNMENT Demo.call Demo.afterNotify w').
Proof.
  apply (respond_accept_covers Demo.env Demo.asB Demo.call "YES" Demo.afterNotify
           Demo.notifying Demo.vacated).
  - vm_compute. reflexivity.
  - vm_compute. discriminate.
  - vm_compute. reflexivity.
  - vm_compute. reflexivity.
Defined.

(** C5 at work: a late YES, after B has covered the shift. *)
Lemma respond_covered_refused_witness :
  SickCalls.respond Demo.env Demo.asD Demo.call "YES" Demo.afterAccept
    = (Ok (mkReply 400 "Shift already covered"), Demo.afterAccept).
Proof.
  apply (respond_covered_refused Demo.env Demo.asD Demo.call "YES" Demo.afterAccept
           Demo.covered).
  - vm_compute. reflexivity.
  - vm_compute. reflexivity.
Defined.

(** C10 at work: D, of another organization and never notified, says ok. *)
Lemma respond_checks_no_membership_witness :
  notifiedTo "D" Demo.afterNotify = []
  /\ AuthUser.organizationId Demo.asD <> SickCall.organizationId Demo.notifying
  /\ exists w',
       SickCalls.respond Demo.env Demo.asD Demo.call "ok" Demo.afterNotify
         = (Ok acceptedReply, w')
       /\ (exists response, In response (shiftResponses w')
             /\ ShiftResponse.staffId response = "D"
             /\ ShiftResponse.sickCallId response = Demo.call
             /\ ShiftResponse.responseType response = ACCEPT)
       /\ coveredBy "D" Demo.call w'.
Proof.
  split; [vm_compute; reflexivity|].
  split; [vm_compute; discriminate|].
  apply (respond_checks_no_membership Demo.env Demo.asD Demo.call "ok" Demo.afterNotify
           Demo.notifying Demo.vacated).
  - vm_compute. reflexivity.
  - vm_compute. discriminate.
  - vm_compute. reflexivity.
  - vm_compute. reflexivity.
Defined.

(** ** Who is offered the shift *)

Lemma slice0_In {A} count (l : list A) x : In x (slice0 count l) -> In x l.
Proof.
  unfold slice0. destruct (count <? 0); intros H;
    match type of H with
    | In _ (firstn ?n _) => rewrite <- (firstn_skipn n l)
    end; apply in_or_app; now left.
Qed.

Lemma getTopCandidates_run env shiftId organizationId locationId count rules w :
  MatchingEngine.getTopCandidates env shiftId organizationId locationId count rules w =
  match MatchingEngine.findCandidates env shiftId organizationId locationId rules w with
  | (Ok allCandidates, w') =>
      (Ok (slice0 count (filter MatchedCandidate.isAvailable allCandidates)), w')
  | (Throw e, w') => (Throw e, w')
  end.
Proof.
  unfold MatchingEngine.getTopCandidates. rewrite bind_unfold.
  destruct (MatchingEngine.findCandidates env shiftId organizationId locationId rules w)
    as [[out|e] w']; reflexivity.
Qed.

(** A member who is assigned elsewhere that day is either skipped by the
    loop or, with the availability rule off, pushed as unavailable. *)
Lemma findCandidates_assignedElsewhere
    env shiftId organizationId locationId rules w out w' shift staffId c :
  findUnique Shift.id shiftId (shifts w) = Some shift ->
  assignedElsewhere w organizationId shift shiftId staffId ->
  MatchingEngine.findCandidates env shiftId organizationId locationId rules w = (Ok out, w') ->
  In c out ->
  MatchedCandidate.userId c = staffId ->
  MatchedCandidate.isAvailable c = false
  /\ prioritizeAvailability (spreadRules DEFAULT_RULES rules) = false.
Proof.
  intros Hs Hel Hrun Hc Hid.
  destruct (findCandidates_In _ _ _ _ _ _ _ _ _ Hrun Hc)
    as (shift' & staff & c0 & Hs' & _ & _ & Hev & Hrank).
  rewrite Hs in Hs'. injection Hs' as <-.
  apply evaluate_Some in Hev as (Hu & _ & Hav & Hskip & _).
  assert (Hw : MatchingEngine.isWorking (weeklyShiftsOf env w organizationId shift) shift
                 shiftId staff = true).
  { apply isWorking_assignedElsewhere.
    replace (User.id staff) with staffId; [exact Hel|].
    rewrite <- Hid, Hrank. simpl. exact Hu. }
  rewrite Hw in Hav, Hskip. split.
  - rewrite Hrank. simpl. exact Hav.
  - exact Hskip.
Qed.

Lemma getTopCandidates_assignedElsewhere
    env shiftId organizationId locationId count rules w top w' shift staffId c :
  findUnique Shift.id shiftId (shifts w) = Some shift ->
  assignedElsewhere w organizationId shift shiftId staffId ->
  MatchingEngine.getTopCandidates env shiftId organizationId locationId count rules w
    = (Ok top, w') ->
  In c top ->
  MatchedCandidate.userId c <> staffId.
Proof.
  intros Hs Hel Hrun Hc Hid. rewrite getTopCandidates_run in Hrun.
  destruct (MatchingEngine.findCandidates env shiftId organizationId locationId rules w)
    as [[out|e] w0] eqn:Hfc; [|discriminate].
  injection Hrun as <- <-.
  apply slice0_In, filter_In in Hc as [Hc Hav].
  destruct (findCandidates_assignedElsewhere _ _ _ _ _ _ _ _ _ _ _ Hs Hel Hfc Hc Hid)
    as [Hno _].
  congruence.
Qed.

(** The background step, for a sick call whose shift is in the store. *)
Lemma startShiftCoverageProcess_run env sickCallId w sickCall shift :
  findUnique SickCall.id sickCallId (sickCalls w) = Some sickCall ->
  findUnique Shift.id (SickCall.shiftId sickCall) (shifts w) = Some shift ->
  exists w',
    SickCalls.startShiftCoverageProcess env sickCallId w = (Ok tt, w')
    /\ users w' = users w
    /\ shifts w' = shifts w
    /\ forall staffId,
         assignedElsewhere w (SickCall.organizationId sickCall) shift
                           (SickCall.shiftId sickCall) staffId ->
         notifiedTo staffId w' = notifiedTo staffId w.
Proof.
  intros Hc Hs.
  destruct w as [us sh sc ns rs al es]. cbn [sickCalls shifts] in Hc, Hs.
  unfold SickCalls.startShiftCoverageProcess.
  step sickCall_findUnique_run. rewrite Hc.
  step shift_findUnique_run. rewrite Hs.
  step sickCall_update_run. rewrite Hc. world. rewrite ?bind_unfold.
  match goal with
  | |- context [MatchingEngine.getTopCandidates ?e ?i ?o ?l ?n ?r ?w0] =>
      destruct (MatchingEngine.getTopCandidates e i o l n r w0) as [[top|err] w1] eqn:Htop;
      pose proof Htop as Hrun;
      rewrite getTopCandidates_run, findCandidates_run in Hrun;
      cbn [shifts] in Hrun; rewrite Hs in Hrun; [|discriminate];
      assert (Hw1 : w1 = w0) by congruence; subst w1
  end.
  clear Hrun. world.
  destruct top as [|first rest].
  - step sickCall_update_run.
    rewrite (findUnique_updateMany SickCall.id) by (intros r; reflexivity).
    rewrite Hc. cbn [option_map]. world.
    eexists. split; [reflexivity|]. world. auto.
  - unfold SickCalls.includedShift. rewrite !bind_unfold, ret_run. world.
    rewrite ?bind_unfold.
    match goal with
    | |- context [NotificationService.sendSMS ?e ?r ?s ?m ?w0] =>
        destruct (sendSMS_frame e r s m w0) as (result & w2 & Hsms & Hframe & Hothers)
    end.
    rewrite Hsms. world.
    destruct Hframe as (Hu & Hsh & _). cbn [users shifts] in Hu, Hsh.
    eexists. split; [reflexivity|]. world.
    split; [exact Hu|]. split; [exact Hsh|].
    intros staffId Hel.
    assert (Hne : MatchedCandidate.userId first <> staffId).
    { eapply getTopCandidates_assignedElsewhere; [| |exact Htop|now left].
      - cbn [shifts]. exact Hs.
      - exact Hel. }
    specialize (Hothers staffId (fun E => Hne (eq_sym E))).
    unfold notifiedTo in *. cbn [notifications] in *. exact Hothers.
Qed.

(** C3.  Let a staff member be assigned to another active shift of the
    organization on the date of the target shift.  Then every candidate
    entry that [findCandidates] returns for that member has
    [isAvailable = false], and with the availability rule enabled there is
    no such entry at all; [getTopCandidates] never returns the member; and
    the automatic notify step creates no notification for the member and
    alters none. *)
Theorem assigned_elsewhere_never_offered env w shiftId organizationId shift staffId :
  findUnique Shift.id shiftId (shifts w) = Some shift ->
  assignedElsewhere w organizationId shift shiftId staffId ->
  neverOffered env w shiftId organizationId staffId.
Proof.
  intros Hs Hel. unfold neverOffered. split; [|split].
  - intros locationId rules out w' Hrun. split.
    + intros c Hc Hid.
      now destruct (findCandidates_assignedElsewhere _ _ _ _ _ _ _ _ _ _ _ Hs Hel Hrun Hc Hid).
    + intros Hrule c Hc Hid.
      destruct (findCandidates_assignedElsewhere _ _ _ _ _ _ _ _ _ _ _ Hs Hel Hrun Hc Hid).
      congruence.
  - intros locationId count rules top w' Hrun c Hc.
    exact (getTopCandidates_assignedElsewhere _ _ _ _ _ _ _ _ _ _ _ _ Hs Hel Hrun Hc).
  - intros sickCallId sickCall Hc <- <-.
    destruct (startShiftCoverageProcess_run env _ _ _ _ Hc Hs) as (w' & Hrun & _ & _ & Hn).
    exists w'. split; [exact Hrun | now apply Hn].
Qed.

(** C3 at work: C holds the evening shift S2 on the day of S. *)
Lemma assigned_elsewhere_never_offered_witness :
  neverOffered Demo.env Demo.afterSubmit "S" "org" "C".
Proof.
  apply (assigned_elsewhere_never_offered Demo.env Demo.afterSubmit "S" "org"
           Demo.vacated "C").
  - vm_compute. reflexivity.
  - exists Demo.S2. vm_compute. intuition discriminate.
Defined.

(** The background step never touches the shift table, whether it finds
    candidates, finds none, or stops on an exception. *)
Lemma runImmediate_shifts env sickCallId w :
  exists w', SickCalls.runImmediate env sickCallId w = (Ok tt, w') /\ shifts w' = shifts w.
Proof.
  unfold SickCalls.runImmediate. rewrite tryCatch_unfold.
  destruct (findUnique SickCall.id sickCallId (sickCalls w)) as [sickCall|] eqn:Hc.
  - destruct (findUnique Shift.id (SickCall.shiftId sickCall) (shifts w)) as [shift|] eqn:Hs.
    + destruct (startShiftCoverageProcess_run env _ _ _ _ Hc Hs) as (w' & Hrun & _ & Hsh & _).
      rewrite Hrun. eauto.
    + destruct w as [us sh sc ns rs al es]. cbn [sickCalls shifts] in Hc, Hs.
      unfold SickCalls.startShiftCoverageProcess.
      step sickCall_findUnique_run. rewrite Hc.
      step shift_findUnique_run. rewrite Hs.
      step sickCall_update_run. rewrite Hc. world.
      rewrite ?bind_unfold, getTopCandidates_run, findCandidates_run. world.
      rewrite Hs. rewrite ret_run. eauto.
  - unfold SickCalls.startShiftCoverageProcess.
    rewrite bind_unfold, sickCall_findUnique_run. cbv beta iota. rewrite Hc, ret_run. eauto.
Qed.

(** ** Submitting a sick call *)

Lemma submit_refused_run env user shiftId locationId reason dates w :
  inSickCall shiftId w ->
  exists reply,
    SickCalls.submit env user shiftId locationId reason dates w = (Ok reply, w)
    /\ refused reply.
Proof.
  intros (shift & Hs & Hst). unfold SickCalls.submit.
  rewrite tryCatch_unfold, bind_unfold, shift_findUnique_run. cbv beta iota.
  rewrite Hs, Hst.
  destruct (isId (Shift.assignedToId shift) (AuthUser.id user)); cbn [negb ShiftStatus.eqb];
    rewrite ret_run; eexists; (split; [reflexivity|]); [left | right]; reflexivity.
Qed.

Lemma submit_accepted_run env user shiftId locationId reason dates w reply w' :
  SickCalls.submit env user shiftId locationId reason dates w = (Ok reply, w') ->
  code reply = 201 ->
  exists shift,
    findUnique Shift.id shiftId (shifts w) = Some shift
    /\ Shift.assignedToId shift = Some (AuthUser.id user)
    /\ Shift.status shift <> ShiftStatus.SICK_CALL
    /\ users w' = users w
    /\ shifts w' = updateMany (hasId Shift.id shiftId)
                     (SickCalls.setShiftStatus ShiftStatus.SICK_CALL) (shifts w)
    /\ shiftResponses w' = shiftResponses w
    /\ notifications w' = notifications w
    /\ exists sickCall,
         sickCalls w' = sickCalls w ++ [sickCall]
         /\ SickCall.shiftId sickCall = shiftId
         /\ SickCall.staffId sickCall = AuthUser.id user
         /\ SickCall.organizationId sickCall = AuthUser.organizationId user
         /\ SickCall.status sickCall = SickCallStatus.PENDING.
Proof.
  destruct w as [us sh sc ns rs al es]. world.
  unfold SickCalls.submit. rewrite tryCatch_unfold.
  step shift_findUnique_run.
  destruct (findUnique Shift.id shiftId sh) as [shift|] eqn:Hs;
    [|rewrite ret_run; intros H; injection H as <- <-; discriminate].
  destruct (isId (Shift.assignedToId shift) (AuthUser.id user)) eqn:Ha; cbn [negb];
    [|rewrite ret_run; intros H; injection H as <- <-; discriminate].
  destruct (ShiftStatus.eqb (Shift.status shift) ShiftStatus.SICK_CALL) eqn:Hst;
    [rewrite ret_run; intros H; injection H as <- <-; discriminate|].
  step sickCall_create_run. step shift_update_run. rewrite Hs.
  step auditLog_create_run. step log_run. step log_run.
  intros H _. injection H as <- <-. world.
  exists shift. split; [reflexivity|].
  split.
  { unfold isId in Ha. destruct (Shift.assignedToId shift); [|discriminate].
    apply String.eqb_eq in Ha. now subst. }
  split; [intros E; apply ShiftStatus_eqb_eq in E; congruence|].
  repeat (split; [reflexivity|]).
  eexists. split; [reflexivity|]. repeat split.
Qed.

(** C6, as amended.  What turns a submit away is the status of the shift,
    not the sick calls that the store holds for it.  For a shift that
    exists, [submit] answers 400 exactly when the shift is assigned to the
    caller and in status SICK_CALL, and while the shift is in that status
    every submit for it is turned away (400, or 403 when the caller is not
    its assignee) and changes nothing.  It answers 201 exactly when the
    shift is assigned to the caller and in any other status, whatever sick
    calls there are for the shift; it then adds a PENDING sick call and
    puts the shift in status SICK_CALL, where the automatic notify step
    leaves it. *)
Theorem submit_refused_while_sick_call env user shiftId locationId reason dates w shift :
  findUnique Shift.id shiftId (shifts w) = Some shift ->
  exists reply w',
    SickCalls.submit env user shiftId locationId reason dates w = (Ok reply, w')
    /\ (Shift.status shift = ShiftStatus.SICK_CALL -> refused reply /\ w' = w)
    /\ (code reply = 400 <->
        Shift.assignedToId shift = Some (AuthUser.id user)
        /\ Shift.status shift = ShiftStatus.SICK_CALL)
    /\ (code reply = 201 <->
        Shift.assignedToId shift = Some (AuthUser.id user)
        /\ Shift.status shift <> ShiftStatus.SICK_CALL)
    /\ (code reply = 201 ->
        inSickCall shiftId w'
        /\ exists sickCall,
             sickCalls w' = sickCalls w ++ [sickCall]
             /\ SickCall.shiftId sickCall = shiftId
             /\ SickCall.status sickCall = SickCallStatus.PENDING)
    /\ (forall env' sickCallId v,
          inSickCall shiftId v ->
          exists v',
            SickCalls.runImmediate env' sickCallId v = (Ok tt, v')
            /\ inSickCall shiftId v').
Proof.
  intros Hs.
  assert (Hstep : forall env' sickCallId v,
            inSickCall shiftId v ->
            exists v',
              SickCalls.runImmediate env' sickCallId v = (Ok tt, v')
              /\ inSickCall shiftId v').
  { intros env' sickCallId v Hv.
    destruct (runImmediate_shifts env' sickCallId v) as (v' & Hv' & Hsh').
    exists v'. split; [exact Hv'|]. unfold inSickCall. now rewrite Hsh'. }
  assert (Hassigned : isId (Shift.assignedToId shift) (AuthUser.id user) = true
                      <-> Shift.assignedToId shift = Some (AuthUser.id user)).
  { unfold isId. destruct (Shift.assignedToId shift) as [x|]; [|split; discriminate].
    rewrite String.eqb_eq. split; congruence. }
  destruct w as [us sh sc ns rs al es]. cbn [shifts] in Hs.
  unfold SickCalls.submit. rewrite tryCatch_unfold.
  step shift_findUnique_run. rewrite Hs.
  destruct (isId (Shift.assignedToId shift) (AuthUser.id user)) eqn:Ha; cbn [negb].
  - destruct (ShiftStatus.eqb (Shift.status shift) ShiftStatus.SICK_CALL) eqn:Hst.
    + apply ShiftStatus_eqb_eq in Hst.
      rewrite ret_run. eexists _, _. split; [reflexivity|]. cbn [code].
      split; [intros _; split; [left; reflexivity | reflexivity]|].
      split; [split; [intros _; split; [now apply Hassigned | exact Hst] | reflexivity]|].
      split; [split; [discriminate | intros [_ Hne]; contradiction]|].
      split; [discriminate | exact Hstep].
    + assert (Hne : Shift.status shift <> ShiftStatus.SICK_CALL).
      { intros E. apply ShiftStatus_eqb_eq in E. congruence. }
      step sickCall_create_run. step shift_update_run. rewrite Hs.
      step auditLog_create_run. step log_run. step log_run.
      eexists _, _. split; [reflexivity|]. cbn [code]. world.
      split; [intros E; contradiction|].
      split; [split; [discriminate | intros [_ E]; contradiction]|].
      split; [split; [intros _; split; [now apply Hassigned | exact Hne] | reflexivity]|].
      split; [intros _ | exact Hstep].
      split.
      * exists (SickCalls.setShiftStatus ShiftStatus.SICK_CALL shift). cbn [shifts].
        rewrite (findUnique_updateMany Shift.id) by (intros r; reflexivity).
        rewrite Hs. split; reflexivity.
      * eexists. split; [reflexivity|]. split; reflexivity.
  - rewrite ret_run. eexists _, _. split; [reflexivity|]. cbn [code].
    split; [intros _; split; [right; reflexivity | reflexivity]|].
    split; [split; [discriminate | intros [E _]; apply Hassigned in E; congruence]|].
    split; [split; [discriminate | intros [E _]; apply Hassigned in E; congruence]|].
    split; [discriminate | exact Hstep].
Qed.

(** C6 at work: a second submit for S while A's sick call is open. *)
Lemma submit_refused_while_sick_call_witness :
  exists reply w',
    SickCalls.submit Demo.env Demo.asA "S" "loc" None None Demo.afterSubmit = (Ok reply, w')
    /\ (Shift.status Demo.vacated = ShiftStatus.SICK_CALL ->
        refused reply /\ w' = Demo.afterSubmit)
    /\ (code reply = 400 <->
        Shift.assignedToId Demo.vacated = Some (AuthUser.id Demo.asA)
        /\ Shift.status Demo.vacated = ShiftStatus.SICK_CALL)
    /\ (code reply = 201 <->
        Shift.assignedToId Demo.vacated = Some (AuthUser.id Demo.asA)
        /\ Shift.status Demo.vacated <> ShiftStatus.SICK_CALL)
    /\ (code reply = 201 ->
        inSickCall "S" w'
        /\ exists sickCall,
             sickCalls w' = sickCalls Demo.afterSubmit ++ [sickCall]
             /\ SickCall.shiftId sickCall = "S"
             /\ SickCall.status sickCall = SickCallStatus.PENDING)
    /\ (forall env' sickCallId v,
          inSickCall "S" v ->
          exists v',
            SickCalls.runImmediate env' sickCallId v = (Ok tt, v')
            /\ inSickCall "S" v').
Proof.
  apply (submit_refused_while_sick_call Demo.env Demo.asA "S" "loc" None None
           Demo.afterSubmit Demo.vacated).
  vm_compute. reflexivity.
Defined.

(** C6, as stated, fails once the first sick call is covered.  In the demo
    A's sick call for S was covered by B; it is COVERED, not cancelled.  B,
    now the assignee of S, submits a sick call for S and is accepted: the
    store then holds two sick calls for S, neither of them cancelled. *)
Lemma second_sick_call_after_coverage :
  sickCallsOf "S" Demo.afterAccept = [SickCallStatus.COVERED]
  /\ exists w',
       SickCalls.submit Demo.env Demo.asB "S" "loc" None None Demo.afterAccept
         = (Ok (mkReply 201 "Sick call submitted. Finding coverage..."), w')
       /\ sickCallsOf "S" w' = [SickCallStatus.COVERED; SickCallStatus.PENDING].
Proof.
  split; [vm_compute; reflexivity|].
  eexists. split; vm_compute; reflexivity.
Qed.

(** Nor does the status of the shift follow the sick calls that await
    coverage.  After B has covered S, B calls in sick for S; while that
    sick call is NOTIFYING a manager assigns the first, covered sick call
    to C, which makes S COVERED again; C then calls in sick for S and is
    accepted.  The store ends with two sick calls for S that both await
    coverage, both opened by [submit]. *)
Lemma two_sick_calls_await_coverage :
  let accepted := mkReply 201 "Sick call submitted. Finding coverage..." in
  let second := "xxxxxxxxx" in
  let third := "xxxxxxxxxx" in
  exists w1 w2 w3 w4 w5,
    SickCalls.submit Demo.env Demo.asB "S" "loc" None None Demo.afterAccept
      = (Ok accepted, w1)
    /\ SickCalls.runImmediate Demo.env second w1 = (Ok tt, w2)
    /\ sickCallsOf "S" w2 = [SickCallStatus.COVERED; SickCallStatus.NOTIFYING]
    /\ SickCalls.assign Demo.env (AuthUser.mk "M" MANAGER "org") Demo.call "C" None w2
       = (Ok (mkReply 200 "Shift assigned successfully"), w3)
    /\ SickCalls.submit Demo.env (AuthUser.mk "C" STAFF "org") "S" "loc" None None w3
       = (Ok accepted, w4)
    /\ SickCalls.runImmediate Demo.env third w4 = (Ok tt, w5)
    /\ sickCallsOf "S" w5
       = [SickCallStatus.COVERED; SickCallStatus.NOTIFYING; SickCallStatus.NOTIFYING].
Proof.
  cbv zeta. eexists _, _, _, _, _.
  split; [vm_compute; reflexivity|].
  split; [vm_compute; reflexivity|].
  split; [vm_compute; reflexivity|].
  split; [vm_compute; reflexivity|].
  split; [vm_compute; reflexivity|].
  split; vm_compute; reflexivity.
Qed.

(** ** The reporter's own shift *)

Lemma evaluate_None r shift shiftId weekly pickups staff :
  MatchingEngine.evaluate r shift shiftId weekly pickups staff = None ->
  MatchingEngine.isWorking weekly shift shiftId staff = true.
Proof.
  unfold MatchingEngine.evaluate.
  destruct (MatchingEngine.isWorking weekly shift shiftId staff); [reflexivity|].
  cbn [andb negb].
  destruct (avoidOvertime r), (useSeniority r), (useFairness r),
           (_ >? overtimeThreshold r), (MatchingEngine.knownSeniority staff);
    cbv beta iota zeta; discriminate.
Qed.

Lemma evaluateAll_pushed body allStaff staff c :
  In staff allStaff -> body staff = Some c ->
  In c (MatchingEngine.evaluateAll body allStaff).
Proof.
  intros Hin Hc. induction allStaff as [|s l IH]; simpl; [contradiction|].
  destruct Hin as [-> | Hin].
  - rewrite Hc. now left.
  - destruct (body s); [right|]; now apply IH.
Qed.

Lemma assignRanks_keeps index l c0 :
  In c0 l ->
  exists c, In c (MatchingEngine.assignRanks index l)
            /\ c = MatchingEngine.setRank (MatchedCandidate.rank c) c0.
Proof.
  revert index. induction l as [|a l IH]; intros index; simpl; [contradiction|].
  intros [-> | Hin].
  - eexists. split; [now left | reflexivity].
  - destruct (IH (index + 1) Hin) as (c & Hc & E). exists c. split; [now right | exact E].
Qed.

Lemma updateMany_In {R} (p : R -> bool) f t r :
  In r (updateMany p f t) ->
  exists r0, In r0 t /\ r = if p r0 then f r0 else r0.
Proof.
  unfold updateMany. intros H. apply in_map_iff in H as (r0 & E & Hin). eauto.
Qed.

Lemma updateMany_keeps {R} (p : R -> bool) f t r :
  In r t -> p r = false -> In r (updateMany p f t).
Proof.
  intros Hin Hp. unfold updateMany. apply in_map_iff. exists r. now rewrite Hp.
Qed.

(** What [submit] does to the shift table neither makes nor removes a
    conflict for the shift it vacates. *)
Lemma assignedElsewhere_vacated w w' organizationId shift shiftId staffId :
  shifts w' = updateMany (hasId Shift.id shiftId)
                (SickCalls.setShiftStatus ShiftStatus.SICK_CALL) (shifts w) ->
  assignedElsewhere w' organizationId
    (SickCalls.setShiftStatus ShiftStatus.SICK_CALL shift) shiftId staffId
  <-> assignedElsewhere w organizationId shift shiftId staffId.
Proof.
  intros Hsh. unfold assignedElsewhere. split.
  - intros (s & Hins & Horg & Hst & Ha & Hd & Hne).
    rewrite Hsh in Hins. apply updateMany_In in Hins as (s0 & Hin0 & Es).
    unfold hasId in Es. destruct (String.eqb (Shift.id s0) shiftId) eqn:Ek.
    + apply String.eqb_eq in Ek. subst s. cbn in Hne. congruence.
    + subst s0. exists s. auto 10.
  - intros (s & Hins & Horg & Hst & Ha & Hd & Hne).
    exists s. split; [|auto 10].
    rewrite Hsh. apply updateMany_keeps; [exact Hins|].
    unfold hasId. now apply String.eqb_neq.
Qed.

Lemma assignedElsewhere_is_neverOffered env w shiftId organizationId shift staffId :
  findUnique Shift.id shiftId (shifts w) = Some shift ->
  assignedElsewhere w organizationId shift shiftId staffId ->
  neverOffered env w shiftId organizationId staffId.
Proof.
  intros Hs Hel. unfold neverOffered. split; [|split].
  - intros locationId rules out w' Hrun. split.
    + intros c Hc Hid.
      now destruct (findCandidates_assignedElsewhere _ _ _ _ _ _ _ _ _ _ _ Hs Hel Hrun Hc Hid).
    + intros Hrule c Hc Hid.
      destruct (findCandidates_assignedElsewhere _ _ _ _ _ _ _ _ _ _ _ Hs Hel Hrun Hc Hid).
      congruence.
  - intros locationId count rules top w' Hrun c Hc.
    exact (getTopCandidates_assignedElsewhere _ _ _ _ _ _ _ _ _ _ _ _ Hs Hel Hrun Hc).
  - intros sickCallId sickCall Hc <- <-.
    destruct (startShiftCoverageProcess_run env _ _ _ _ Hc Hs) as (w' & Hrun & _ & _ & Hn).
    exists w'. split; [exact Hrun | now apply Hn].
Qed.

(** C9, as amended.  Calling in sick does not take the reporter out of the
    ranking of the vacated shift: after a successful submit the shift is in
    status SICK_CALL, so it is no conflict for anybody, and the conflict
    test skips the target shift anyway.  What decides is whether the
    reporter holds another active shift of the organization that day.  A
    reporter who is an active staff member of the organization and holds
    none is listed for the vacated shift with [isAvailable = true],
    whatever the rules; the demo shows that such a reporter can head the
    list and is then sent the automatic offer.  A reporter who holds one is
    listed as unavailable or, under the availability rule, not at all, and
    gets no offer from the notify step. *)
Theorem reporter_is_ranked
    env user shiftId locationId reason dates w reply w' reporter shift :
  SickCalls.submit env user shiftId locationId reason dates w = (Ok reply, w') ->
  code reply = 201 ->
  In reporter (users w) ->
  User.id reporter = AuthUser.id user ->
  MatchingEngine.isActiveStaffOf (AuthUser.organizationId user) reporter = true ->
  findUnique Shift.id shiftId (shifts w) = Some shift ->
  inSickCall shiftId w'
  /\ (~ assignedElsewhere w (AuthUser.organizationId user) shift shiftId (AuthUser.id user) ->
      forall env', rankedAvailable env' w' shiftId (AuthUser.organizationId user)
                                   (AuthUser.id user))
  /\ (assignedElsewhere w (AuthUser.organizationId user) shift shiftId (AuthUser.id user) ->
      forall env', neverOffered env' w' shiftId (AuthUser.organizationId user)
                                (AuthUser.id user))
  /\ Demo.reporterOffered.
Proof.
  intros Hrun Hcode Hin Hid Hact Hs.
  destruct (submit_accepted_run _ _ _ _ _ _ _ _ _ Hrun Hcode)
    as (shift0 & Hs0 & _ & _ & Hu & Hsh & _).
  rewrite Hs in Hs0. injection Hs0 as <-.
  set (shift' := SickCalls.setShiftStatus ShiftStatus.SICK_CALL shift).
  assert (Hs' : findUnique Shift.id shiftId (shifts w') = Some shift').
  { rewrite Hsh, (findUnique_updateMany Shift.id) by (intros r; reflexivity).
    now rewrite Hs. }
  set (org := AuthUser.organizationId user) in *.
  pose proof (assignedElsewhere_vacated w w' org shift shiftId (AuthUser.id user) Hsh)
    as Hvac. fold shift' in Hvac.
  split; [exists shift'; split; [exact Hs' | reflexivity]|].
  split; [|split].
  - intros Hfree env' locationId' rules.
    rewrite findCandidates_run, Hs'.
    destruct (MatchingEngine.evaluate (spreadRules DEFAULT_RULES rules) shift' shiftId
                (weeklyShiftsOf env' w' org shift') (recentPickupsOf env' w' org) reporter)
      as [c0|] eqn:Hev.
    + pose proof (evaluate_Some _ _ _ _ _ _ _ Hev) as (Hu0 & _ & Hav & _).
      assert (Hc0 : In c0 (Array_sort MatchingEngine.byScoreDesc
                             (evaluated env' w' shiftId org rules shift'))).
      { apply (Permutation_in _ (Permutation_sym (Array_sort_Permutation _ _))).
        unfold evaluated. apply (evaluateAll_pushed _ _ reporter); [|exact Hev].
        apply allStaffOf_In. rewrite Hu. auto. }
      destruct (assignRanks_keeps 0 _ _ Hc0) as (c & Hc & E).
      eexists _, c. split; [reflexivity|]. split; [exact Hc|].
      rewrite E. cbn [MatchingEngine.setRank MatchedCandidate.userId
                      MatchedCandidate.isAvailable].
      split; [congruence|].
      rewrite Hav. destruct (MatchingEngine.isWorking _ shift' shiftId reporter) eqn:Hw;
        [|reflexivity].
      exfalso. apply Hfree, Hvac. rewrite <- Hid.
      now apply (isWorking_assignedElsewhere env').
    + exfalso. apply Hfree, Hvac. rewrite <- Hid.
      apply evaluate_None in Hev. now apply (isWorking_assignedElsewhere env').
  - intros Hel env'.
    apply (assignedElsewhere_is_neverOffered env' w' shiftId org shift'); [exact Hs'|].
    now apply Hvac.
  - unfold Demo.reporterOffered.
    split; [vm_compute; reflexivity|].
    split; [eexists _, _; split; [vm_compute; reflexivity | repeat split]|].
    split; [vm_compute; reflexivity|].
    eexists. split; [vm_compute; reflexivity | repeat split].
Qed.

(** C9 at work: A, who reported S, in the ranking of S. *)
Lemma reporter_is_ranked_witness :
  inSickCall "S" Demo.afterSubmit
  /\ (~ assignedElsewhere Demo.world "org" Demo.S "S" "A" ->
      forall env', rankedAvailable env' Demo.afterSubmit "S" "org" "A")
  /\ (assignedElsewhere Demo.world "org" Demo.S "S" "A" ->
      forall env', neverOffered env' Demo.afterSubmit "S" "org" "A")
  /\ Demo.reporterOffered.
Proof.
  apply (reporter_is_ranked Demo.env Demo.asA "S" "loc" None None Demo.world
           (mkReply 201 "Sick call submitted. Finding coverage...") Demo.afterSubmit
           Demo.A Demo.S).
  - vm_compute. reflexivity.
  - reflexivity.
  - vm_compute. auto.
  - reflexivity.
  - vm_compute. reflexivity.
  - vm_compute. reflexivity.
Defined.

(** C9, as stated, fails for a reporter who works another shift that day.
    A, an active staff member of the organization, holds S and also the
    evening shift S3 of the same date.  A calls in sick for S and is
    accepted; the ranking of S then does not list A under the default
    rules, and lists A as unavailable when the availability rule is
    off. *)
Lemma reporter_working_elsewhere_is_skipped :
  let S3 := Shift.mk "S3" Demo.jan10 (Demo.jan10 + 15 * Demo.hour)
              (Demo.jan10 + 23 * Demo.hour) ShiftStatus.SCHEDULED "loc" (Some "A") "org" in
  let w := mkWorld (users Demo.world) (shifts Demo.world ++ [S3]) [] [] [] [] [] in
  let anybody := mkPartial (Some false) None None None None in
  In Demo.A (users w)
  /\ MatchingEngine.isActiveStaffOf "org" Demo.A = true
  /\ exists w' out out' c,
       SickCalls.submit Demo.env Demo.asA "S" "loc" None None w
         = (Ok (mkReply 201 "Sick call submitted. Finding coverage..."), w')
       /\ MatchingEngine.findCandidates Demo.env "S" "org" "loc" noRules w' = (Ok out, w')
       /\ ~ In "A" (map MatchedCandidate.userId out)
       /\ MatchingEngine.findCandidates Demo.env "S" "org" "loc" anybody w' = (Ok out', w')
       /\ filter (fun c => String.eqb (MatchedCandidate.userId c) "A") out' = [c]
       /\ MatchedCandidate.isAvailable c = false.
Proof.
  cbv zeta. split; [left; reflexivity|]. split; [reflexivity|].
  eexists _, _, _, _.
  split; [vm_compute; reflexivity|].
  split; [vm_compute; reflexivity|].
  split; [vm_compute; intuition discriminate|].
  split; [vm_compute; reflexivity|].
  split; [vm_compute; reflexivity|].
  reflexivity.
Qed.

(** * Further properties of the code *)

(** ** Parsing a reply *)

Lemma upperChar_idempotent c : upperChar (upperChar c) = upperChar c.
Proof. destruct c as [[] [] [] [] [] [] [] []]; reflexivity. Qed.

Lemma isWhite_upperChar c : isWhite (upperChar c) = isWhite c.
Proof. destruct c as [[] [] [] [] [] [] [] []]; reflexivity. Qed.

Lemma toUpperCase_idempotent s : toUpperCase (toUpperCase s) = toUpperCase s.
Proof.
  induction s as [|c s IH]; simpl; [reflexivity|].
  now rewrite upperChar_idempotent, IH.
Qed.

Lemma trimStart_toUpperCase s : trimStart (toUpperCase s) = toUpperCase (trimStart s).
Proof.
  induction s as [|c s IH]; simpl; [reflexivity|].
  rewrite isWhite_upperChar. destruct (isWhite c); [exact IH | reflexivity].
Qed.

Lemma trimEnd_toUpperCase s : trimEnd (toUpperCase s) = toUpperCase (trimEnd s).
Proof.
  induction s as [|c s IH]; simpl; [reflexivity|].
  rewrite IH, isWhite_upperChar.
  destruct (trimEnd s); simpl; [destruct (isWhite c)|]; reflexivity.
Qed.

Lemma trim_toUpperCase s : trim (toUpperCase s) = toUpperCase (trim s).
Proof. unfold trim. now rewrite trimStart_toUpperCase, trimEnd_toUpperCase. Qed.

Lemma trimEnd_idempotent s : trimEnd (trimEnd s) = trimEnd s.
Proof.
  induction s as [|c s IH]; simpl; [reflexivity|].
  destruct (trimEnd s) as [|d u] eqn:E.
  - destruct (isWhite c) eqn:W; simpl; [reflexivity | now rewrite W].
  - cbn [trimEnd] in *. fold trimEnd in *. now rewrite IH.
Qed.

(** Trimming the end leaves a leading non-blank character in place. *)
Lemma trimStart_trimEnd s : trimStart (trimEnd (trimStart s)) = trimEnd (trimStart s).
Proof.
  induction s as [|c s IH]; simpl; [reflexivity|].
  destruct (isWhite c) eqn:W; [exact IH|].
  cbn [trimEnd]. destruct (trimEnd s); rewrite ?W; cbn [trimStart]; now rewrite W.
Qed.

Lemma trim_idempotent s : trim (trim s) = trim s.
Proof. unfold trim. now rewrite trimStart_trimEnd, trimEnd_idempotent. Qed.

Lemma trimEnd_blank_end s c :
  isWhite c = true -> trimEnd (s ++ String c EmptyString) = trimEnd s.
Proof.
  intros W. induction s as [|a s IH]; simpl; [now rewrite W|]. now rewrite IH.
Qed.

Lemma trimStart_blank_end s c :
  isWhite c = true ->
  trimEnd (trimStart (s ++ String c EmptyString)) = trimEnd (trimStart s).
Proof.
  intros W. induction s as [|a s IH]; simpl; [now rewrite W|].
  destruct (isWhite a); [exact IH|].
  change (String a (s ++ String c EmptyString)%string)
    with (String a s ++ String c EmptyString)%string.
  now apply trimEnd_blank_end.
Qed.

Lemma upperChar_ascii c :
  Nat.ltb (nat_of_ascii (upperChar c)) 128 = Nat.ltb (nat_of_ascii c) 128.
Proof. destruct c as [[] [] [] [] [] [] [] []]; reflexivity. Qed.

Lemma isWhite_ascii c : isWhite c = true -> Nat.ltb (nat_of_ascii c) 128 = true.
Proof. destruct c as [[] [] [] [] [] [] [] []]; (reflexivity || discriminate). Qed.

Lemma asciiWhiteSpace_isWhite c : In c asciiWhiteSpace -> isWhite c = true.
Proof.
  intros H. repeat (destruct H as [<- | H]; [reflexivity|]). contradiction.
Qed.

Lemma isWhite_asciiWhiteSpace c : existsb (Ascii.eqb c) asciiWhiteSpace = isWhite c.
Proof. destruct c as [[] [] [] [] [] [] [] []]; reflexivity. Qed.

Lemma isAscii_toUpperCase s : isAscii (toUpperCase s) = isAscii s.
Proof.
  induction s as [|c s IH]; simpl; [reflexivity|]. now rewrite upperChar_ascii, IH.
Qed.

Lemma isAscii_trimStart s : isAscii s = true -> isAscii (trimStart s) = true.
Proof.
  induction s as [|c s IH]; simpl; [reflexivity|].
  intros H. destruct (isWhite c); [|exact H].
  apply andb_prop in H as [_ H]. now apply IH.
Qed.

Lemma isAscii_trimEnd s : isAscii s = true -> isAscii (trimEnd s) = true.
Proof.
  induction s as [|c s IH]; simpl; [reflexivity|].
  intros H. apply andb_prop in H as [Hc H]. specialize (IH H).
  destruct (trimEnd s) as [|d u].
  - destruct (isWhite c); simpl; [reflexivity | now rewrite Hc].
  - cbn [isAscii] in *. now rewrite Hc, IH.
Qed.

Lemma isAscii_trim s : isAscii s = true -> isAscii (trim s) = true.
Proof. intros H. unfold trim. now apply isAscii_trimEnd, isAscii_trimStart. Qed.

Lemma isAscii_blank_end s c :
  isAscii s = true -> isWhite c = true -> isAscii (s ++ String c EmptyString) = true.
Proof.
  intros H W. induction s as [|a s IH]; simpl.
  - now rewrite (isWhite_ascii _ W).
  - simpl in H. apply andb_prop in H as [Ha H]. now rewrite Ha, IH.
Qed.

(** X1.  On a text of ASCII characters [parseResponse] reads a reply
    without regard to letter case and to white space around it:
    upper-casing the text, trimming it, or putting a space, tab, line feed,
    vertical tab, form feed or carriage return before or after it never
    changes the result. *)
Theorem parseResponse_ignores_case_and_blanks env s :
  isAscii s = true ->
  NotificationService.parseResponse env (toUpperCase s)
  = NotificationService.parseResponse env s
  /\ NotificationService.parseResponse env (trim s) = NotificationService.parseResponse env s
  /\ (forall c, In c asciiWhiteSpace ->
        NotificationService.parseResponse env (String c s)
        = NotificationService.parseResponse env s
        /\ NotificationService.parseResponse env (s ++ String c EmptyString)
           = NotificationService.parseResponse env s).
Proof.
  intros Hs. unfold NotificationService.parseResponse. cbv zeta.
  rewrite isAscii_toUpperCase, (isAscii_trim _ Hs), Hs.
  split; [now rewrite trim_toUpperCase, toUpperCase_idempotent|].
  split; [now rewrite trim_idempotent|].
  intros c Hc. pose proof (asciiWhiteSpace_isWhite _ Hc) as W. split.
  - cbn [isAscii]. rewrite (isWhite_ascii _ W), Hs. cbn [andb].
    unfold trim. simpl trimStart. now rewrite W.
  - rewrite (isAscii_blank_end _ _ Hs W). unfold trim. now rewrite trimStart_blank_end.
Qed.

(** X1 at work: a lower-case word with blanks around it. *)
Lemma parseResponse_ignores_case_and_blanks_witness :
  NotificationService.parseResponse Demo.env (toUpperCase " yes ")
  = NotificationService.parseResponse Demo.env " yes "
  /\ NotificationService.parseResponse Demo.env (trim " yes ")
     = NotificationService.parseResponse Demo.env " yes "
  /\ (forall c, In c asciiWhiteSpace ->
        NotificationService.parseResponse Demo.env (String c " yes ")
        = NotificationService.parseResponse Demo.env " yes "
        /\ NotificationService.parseResponse Demo.env (" yes " ++ String c EmptyString)
           = NotificationService.parseResponse Demo.env " yes ").
Proof.
  apply (parseResponse_ignores_case_and_blanks Demo.env " yes "). reflexivity.
Defined.

Lemma trimStart_allBlank s : allBlank s = true -> trimStart s = EmptyString.
Proof.
  induction s as [|c s IH]; [reflexivity|].
  cbn [allBlank trimStart]. rewrite isWhite_asciiWhiteSpace.
  destruct (isWhite c); [exact IH | discriminate].
Qed.

Lemma allBlank_ascii s : allBlank s = true -> isAscii s = true.
Proof.
  induction s as [|c s IH]; [reflexivity|].
  cbn [allBlank isAscii]. rewrite isWhite_asciiWhiteSpace.
  intros H. apply andb_prop in H as [W H]. now rewrite (isWhite_ascii _ W), IH.
Qed.

Lemma parseResponse_blank env s :
  allBlank s = true -> NotificationService.parseResponse env s = None.
Proof.
  intros H. unfold NotificationService.parseResponse, trim.
  now rewrite (allBlank_ascii _ H), (trimStart_allBlank _ H).
Qed.

(** ** Replies that do not assign *)

(** X2.  A decline word sent to a sick call that is not covered is
    recorded and nothing more: the reply is "Response recorded", one
    DECLINE row joins the response table, the event [shift_response] is
    emitted, and the sick call, the shift, the notifications and the audit
    log stay as they were; nobody else is contacted. *)
Theorem respond_decline_only_records env user sickCallId responseText w sickCall :
  findUnique SickCall.id sickCallId (sickCalls w) = Some sickCall ->
  SickCall.status sickCall <> SickCallStatus.COVERED ->
  NotificationService.parseResponse env responseText = Some DECLINE ->
  let response :=
    ShiftResponse.mk (freshId (map ShiftResponse.id (shiftResponses w))) sickCallId
      (SickCall.shiftId sickCall) (AuthUser.id user) DECLINE responseText (now env) in
  SickCalls.respond env user sickCallId responseText w =
  (Ok (mkReply 200 "Response recorded"),
   logged [Created (RShiftResponse response);
           Emit (SickCall.organizationId sickCall) (shift_response sickCallId response)]
          (setShiftResponses (shiftResponses w ++ [response]) w)).
Proof.
  intros Hc Hst Hp. cbv zeta.
  destruct w as [us sh sc ns rs al es]. cbn [sickCalls] in Hc.
  unfold SickCalls.respond. rewrite tryCatch_unfold.
  step sickCall_findUnique_run. rewrite Hc, (not_covered_eqb _ Hst), Hp.
  step shiftResponse_create_run. rewrite ?bind_unfold, ret_run. world. step log_run.
  rewrite <- app_assoc. reflexivity.
Qed.

(** X2 at work: C declines the offer for S. *)
Lemma respond_decline_only_records_witness :
  let response :=
    ShiftResponse.mk (freshId (map ShiftResponse.id (shiftResponses Demo.afterNotify)))
      Demo.call "S" "C" DECLINE "nope" Demo.jan10 in
  SickCalls.respond Demo.env (AuthUser.mk "C" STAFF "org") Demo.call "nope" Demo.afterNotify =
  (Ok (mkReply 200 "Response recorded"),
   logged [Created (RShiftResponse response);
           Emit "org" (shift_response Demo.call response)]
          (setShiftResponses (shiftResponses Demo.afterNotify ++ [response])
                             Demo.afterNotify)).
Proof.
  apply (respond_decline_only_records Demo.env (AuthUser.mk "C" STAFF "org") Demo.call
           "nope" Demo.afterNotify Demo.notifying).
  - vm_compute. reflexivity.
  - vm_compute. discriminate.
  - vm_compute. reflexivity.
Defined.

(** X3.  [respond] turns away, without touching the store, a reply to a
    sick call that does not exist (404) and, for a sick call that is not
    covered, a reply that [parseResponse] reads as neither accept nor
    decline (400); a text that is empty or made of ASCII white space is
    such a reply. *)
Theorem respond_refuses_unknown_and_unparsed env user sickCallId responseText w :
  (findUnique SickCall.id sickCallId (sickCalls w) = None ->
   SickCalls.respond env user sickCallId responseText w
     = (Ok (mkReply 404 "Sick call not found"), w))
  /\ (forall sickCall,
        findUnique SickCall.id sickCallId (sickCalls w) = Some sickCall ->
        SickCall.status sickCall <> SickCallStatus.COVERED ->
        NotificationService.parseResponse env responseText = None
        \/ allBlank responseText = true ->
        SickCalls.respond env user sickCallId responseText w
          = (Ok (mkReply 400 "Invalid response. Reply YES or NO."), w)).
Proof.
  unfold SickCalls.respond. rewrite tryCatch_unfold, bind_unfold, sickCall_findUnique_run.
  cbv beta iota. split.
  - intros ->. reflexivity.
  - intros sickCall -> Hst Hp.
    assert (Hnone : NotificationService.parseResponse env responseText = None)
      by (destruct Hp as [Hp | Hp]; [exact Hp | now apply parseResponse_blank]).
    rewrite (not_covered_eqb _ Hst), Hnone. reflexivity.
Qed.

(** ** Submitting, case by case *)

Lemma isId_Some a b : isId a b = true <-> a = Some b.
Proof.
  unfold isId. destruct a as [x|]; [|split; discriminate].
  rewrite String.eqb_eq. split; congruence.
Qed.

(** X4.  [submit] always answers, with 201, 400, 403 or 404.  It answers
    404 exactly when no shift has the given id, and 201 exactly when the
    shift exists, is assigned to the caller and is not in status SICK_CALL;
    whatever its other status, location or organization.  Every answer but
    201 leaves the store and the log untouched. *)
Theorem submit_changes_only_on_201 env user shiftId locationId reason dates w :
  exists reply w',
    SickCalls.submit env user shiftId locationId reason dates w = (Ok reply, w')
    /\ (code reply = 201 \/ code reply = 400 \/ code reply = 403 \/ code reply = 404)
    /\ (code reply <> 201 -> w' = w)
    /\ (code reply = 404 <-> findUnique Shift.id shiftId (shifts w) = None)
    /\ (code reply = 201 <->
        exists shift,
          findUnique Shift.id shiftId (shifts w) = Some shift
          /\ Shift.assignedToId shift = Some (AuthUser.id user)
          /\ Shift.status shift <> ShiftStatus.SICK_CALL).
Proof.
  destruct w as [us sh sc ns rs al es].
  unfold SickCalls.submit. rewrite tryCatch_unfold.
  step shift_findUnique_run.
  destruct (findUnique Shift.id shiftId sh) as [shift|] eqn:Hs.
  - destruct (isId (Shift.assignedToId shift) (AuthUser.id user)) eqn:Ha; cbn [negb].
    + destruct (ShiftStatus.eqb (Shift.status shift) ShiftStatus.SICK_CALL) eqn:Hst.
      * rewrite ret_run. eexists _, _. split; [reflexivity|]. cbn [code].
        split; [auto|]. split; [reflexivity|]. split; [split; discriminate|].
        split; [discriminate|]. intros (shift' & E & _ & Hne).
        injection E as <-. apply ShiftStatus_eqb_eq in Hst. contradiction.
      * step sickCall_create_run. step shift_update_run. rewrite Hs.
        step auditLog_create_run. step log_run. step log_run.
        eexists _, _. split; [reflexivity|]. cbn [code].
        split; [auto|]. split; [congruence|]. split; [split; discriminate|].
        split; [intros _|reflexivity].
        exists shift. split; [reflexivity|]. split; [now apply isId_Some|].
        intros E. apply ShiftStatus_eqb_eq in E. congruence.
    + rewrite ret_run. eexists _, _. split; [reflexivity|]. cbn [code].
      split; [auto|]. split; [reflexivity|]. split; [split; discriminate|].
      split; [discriminate|]. intros (shift' & E & Hyes & _).
      injection E as <-. apply isId_Some in Hyes. congruence.
  - rewrite ret_run. eexists _, _. split; [reflexivity|]. cbn [code].
    split; [auto|]. split; [reflexivity|]. split; [split; reflexivity|].
    split; [discriminate|]. intros (shift' & E & _). discriminate.
Qed.

(** X5.  An accepted submit performs, in this order: the creation of a
    PENDING sick call that carries the caller as staff, the organization of
    the caller's token and the location of the request; the update of the
    shift to SICK_CALL, its assignee still in place; the creation of the
    audit row SICK_CALL_SUBMITTED; the emit of [sick_call_submitted]; and,
    last, the scheduling of the notify step for the new sick call. *)
Theorem submit_effects env user shiftId locationId reason dates w shift :
  findUnique Shift.id shiftId (shifts w) = Some shift ->
  Shift.assignedToId shift = Some (AuthUser.id user) ->
  Shift.status shift <> ShiftStatus.SICK_CALL ->
  let sickCall :=
    SickCall.mk (freshId (map SickCall.id (sickCalls w))) (AuthUser.id user) shiftId
      locationId reason SickCallStatus.PENDING (orDefault dates []) None None (now env)
      (AuthUser.organizationId user) in
  let vacated :=
    Shift.mk (Shift.id shift) (Shift.date shift) (Shift.startTime shift)
      (Shift.endTime shift) ShiftStatus.SICK_CALL (Shift.locationId shift)
      (Some (AuthUser.id user)) (Shift.organizationId shift) in
  let audit :=
    AuditLog.mk (freshId (map AuditLog.id (auditLogs w))) (AuthUser.organizationId user)
      (AuthUser.id user) (SickCall.id sickCall) SICK_CALL_SUBMITTED
      (SubmittedDetails shiftId locationId reason) in
  exists w',
    SickCalls.submit env user shiftId locationId reason dates w
      = (Ok (mkReply 201 "Sick call submitted. Finding coverage..."), w')
    /\ effects w' = effects w
         ++ [Created (RSickCall sickCall); Updated (RShift vacated);
             Created (RAuditLog audit);
             Emit (AuthUser.organizationId user) (sick_call_submitted sickCall);
             SetImmediate (SickCall.id sickCall)]
    /\ sickCalls w' = sickCalls w ++ [sickCall]
    /\ findUnique Shift.id shiftId (shifts w') = Some vacated
    /\ auditLogs w' = auditLogs w ++ [audit]
    /\ onlyWrites w w'.
Proof.
  intros Hs Ha Hst. cbv zeta.
  destruct w as [us sh sc ns rs al es]. cbn [shifts] in Hs.
  unfold SickCalls.submit. rewrite tryCatch_unfold.
  step shift_findUnique_run. rewrite Hs.
  rewrite (proj2 (isId_Some _ _) Ha). cbn [negb].
  destruct (ShiftStatus.eqb (Shift.status shift) ShiftStatus.SICK_CALL) eqn:E;
    [apply ShiftStatus_eqb_eq in E; contradiction|].
  step sickCall_create_run. step shift_update_run. rewrite Hs.
  step auditLog_create_run. step log_run. step log_run.
  eexists. split; [reflexivity|]. world.
  split; [unfold SickCalls.setShiftStatus; rewrite Ha, <- !app_assoc; reflexivity|].
  split; [reflexivity|].
  split.
  { rewrite (findUnique_updateMany Shift.id) by (intros r; reflexivity).
    rewrite Hs. cbn [option_map]. unfold SickCalls.setShiftStatus. now rewrite Ha. }
  split; [reflexivity|]. repeat split.
Qed.

(** X5 at work: A calls in sick for S. *)
Lemma submit_effects_witness :
  exists w',
    SickCalls.submit Demo.env Demo.asA "S" "loc" None None Demo.world
      = (Ok (mkReply 201 "Sick call submitted. Finding coverage..."), w')
    /\ effects w' = effects Demo.world
         ++ [Created (RSickCall DemoRows.pending); Updated (RShift Demo.vacated);
             Created (RAuditLog DemoRows.submitted);
             Emit "org" (sick_call_submitted DemoRows.pending);
             SetImmediate Demo.call]
    /\ sickCalls w' = sickCalls Demo.world ++ [DemoRows.pending]
    /\ findUnique Shift.id "S" (shifts w') = Some Demo.vacated
    /\ auditLogs w' = auditLogs Demo.world ++ [DemoRows.submitted]
    /\ onlyWrites Demo.world w'.
Proof.
  apply (submit_effects Demo.env Demo.asA "S" "loc" None None Demo.world Demo.S).
  - vm_compute. reflexivity.
  - reflexivity.
  - vm_compute. discriminate.
Defined.

(** ** The manager's assignment *)

Lemma assign_covers env manager sickCallId staffId reason w sickCall shift :
  SickCalls.authorized manager = true ->
  findUnique SickCall.id sickCallId (sickCalls w) = Some sickCall ->
  findUnique Shift.id (SickCall.shiftId sickCall) (shifts w) = Some shift ->
  exists w' audit,
    SickCalls.assign env manager sickCallId staffId reason w
      = (Ok (mkReply 200 "Shift assigned successfully"), w')
    /\ coveredBy staffId sickCallId w'
    /\ shiftResponses w' = shiftResponses w
    /\ auditLogs w' = auditLogs w ++ [audit]
    /\ AuditLog.sickCallId audit = sickCallId
    /\ (AuthUser.id manager <> "" -> AuditLog.action audit = MANUAL_ASSIGNMENT).
Proof.
  intros Ha Hc Hs.
  unfold SickCalls.assign. rewrite Ha. cbn [negb]. rewrite tryCatch_unfold.
  destruct (assignShift_run env sickCallId staffId (Some (AuthUser.id manager)) reason
              w sickCall shift Hc Hs) as (w1 & Hrun & Hu & Hsh & Hsc & Hrs & Hal).
  rewrite bind_unfold, Hrun. world. rewrite ret_run.
  eexists _, _. split; [reflexivity|].
  split; [eapply assignShift_coveredBy; eauto|].
  split; [exact Hrs|]. split; [exact Hal|]. split; [reflexivity|].
  intros Hm. destruct (AuthUser.id manager) as [|ch rest]; [congruence | reflexivity].
Qed.

(** X6.  The assign route is closed to STAFF (403) and fails for an unknown
    sick call (500), in both cases without any write.  For a manager or an
    admin it covers the sick call with the named staff member whatever the
    sick call's status, an earlier coverage included, and without asking
    whether that member was ranked or notified; it records no response. *)
Theorem assign_decision env user sickCallId staffId reason w :
  (SickCalls.authorized user = false ->
   SickCalls.assign env user sickCallId staffId reason w
     = (Ok (mkReply 403 "Insufficient permissions"), w))
  /\ (SickCalls.authorized user = true ->
      findUnique SickCall.id sickCallId (sickCalls w) = None ->
      SickCalls.assign env user sickCallId staffId reason w
        = (Ok (mkReply 500 "Failed to assign shift"), w))
  /\ (forall sickCall shift,
        SickCalls.authorized user = true ->
        findUnique SickCall.id sickCallId (sickCalls w) = Some sickCall ->
        findUnique Shift.id (SickCall.shiftId sickCall) (shifts w) = Some shift ->
        exists w',
          SickCalls.assign env user sickCallId staffId reason w
            = (Ok (mkReply 200 "Shift assigned successfully"), w')
          /\ coveredBy staffId sickCallId w'
          /\ shiftResponses w' = shiftResponses w).
Proof.
  split; [|split].
  - intros Ha. unfold SickCalls.assign. now rewrite Ha.
  - intros Ha Hc. unfold SickCalls.assign. rewrite Ha. cbn [negb].
    rewrite tryCatch_unfold, bind_unfold. unfold SickCalls.assignShift.
    rewrite bind_unfold, sickCall_findUnique_run. cbv beta iota. rewrite Hc. reflexivity.
  - intros sickCall shift Ha Hc Hs.
    destruct (assign_covers env user _ staffId reason _ _ _ Ha Hc Hs)
      as (w' & audit & Hrun & Hcov & Hrs & _).
    exists w'. auto.
Qed.

(** X7.  A manager's assignment after a staff member has accepted replaces
    that coverage: sick call and shift end up with the manager's choice,
    the accepting response stays recorded, and the audit log gains, in
    order, a SHIFT_ACCEPTED and a MANUAL_ASSIGNMENT row.  [respond] refuses
    a covered sick call; [assign] does not. *)
Theorem assign_replaces_acceptance
    env user manager sickCallId responseText staffId reason w sickCall shift :
  findUnique SickCall.id sickCallId (sickCalls w) = Some sickCall ->
  SickCall.status sickCall <> SickCallStatus.COVERED ->
  NotificationService.parseResponse env responseText = Some ACCEPT ->
  findUnique Shift.id (SickCall.shiftId sickCall) (shifts w) = Some shift ->
  SickCalls.authorized manager = true ->
  AuthUser.id manager <> "" ->
  exists w1 w2,
    SickCalls.respond env user sickCallId responseText w = (Ok acceptedReply, w1)
    /\ coveredBy (AuthUser.id user) sickCallId w1
    /\ SickCalls.assign env manager sickCallId staffId reason w1
       = (Ok (mkReply 200 "Shift assigned successfully"), w2)
    /\ coveredBy staffId sickCallId w2
    /\ oneResponse ACCEPT (AuthUser.id user) sickCallId w w2
    /\ auditedSince [SHIFT_ACCEPTED; MANUAL_ASSIGNMENT] sickCallId w w2.
Proof.
  intros Hc Hst Hp Hs Ha Hm.
  destruct (respond_accept_run env user _ _ _ _ _ Hc Hst Hp Hs)
    as (w1 & Hrun1 & _ & Hcov1 & (response & Hresp & Hr) & (a1 & Hal1 & Hact1 & Hsc1)).
  pose proof Hcov1 as (sickCall1 & shift1 & Hc1 & _ & _ & Hs1 & _).
  destruct (assign_covers env manager _ staffId reason _ _ _ Ha Hc1 Hs1)
    as (w2 & a2 & Hrun2 & Hcov2 & Hrs2 & Hal2 & Hsc2 & Hact2).
  exists w1, w2. split; [exact Hrun1|]. split; [exact Hcov1|].
  split; [exact Hrun2|]. split; [exact Hcov2|].
  split.
  - exists response. rewrite Hrs2. auto.
  - exists [a1; a2]. rewrite Hal2, Hal1, <- app_assoc.
    split; [reflexivity|]. split; [simpl; now rewrite Hact1, (Hact2 Hm)|].
    repeat constructor; assumption.
Qed.

(** X7 at work: B says YES, then a manager gives the shift to C. *)
Lemma assign_replaces_acceptance_witness :
  exists w1 w2,
    SickCalls.respond Demo.env Demo.asB Demo.call "YES" Demo.afterNotify
      = (Ok acceptedReply, w1)
    /\ coveredBy "B" Demo.call w1
    /\ SickCalls.assign Demo.env (AuthUser.mk "M" MANAGER "org") Demo.call "C" None w1
       = (Ok (mkReply 200 "Shift assigned successfully"), w2)
    /\ coveredBy "C" Demo.call w2
    /\ oneResponse ACCEPT "B" Demo.call Demo.afterNotify w2
    /\ auditedSince [SHIFT_ACCEPTED; MANUAL_ASSIGNMENT] Demo.call Demo.afterNotify w2.
Proof.
  apply (assign_replaces_acceptance Demo.env Demo.asB (AuthUser.mk "M" MANAGER "org")
           Demo.call "YES" "C" None Demo.afterNotify Demo.notifying Demo.vacated).
  - vm_compute. reflexivity.
  - vm_compute. discriminate.
  - vm_compute. reflexivity.
  - vm_compute. reflexivity.
  - reflexivity.
  - vm_compute. discriminate.
Defined.

(** ** Sending without a reachable recipient, and to several *)

Lemma length_updateMany {R} (p : R -> bool) f (t : list R) :
  List.length (updateMany p f t) = List.length t.
Proof. unfold updateMany. apply length_map. Qed.

Lemma resolvable_false w recipientId :
  resolvable w recipientId = false ->
  match findUnique User.id recipientId (users w) with
  | Some recipient => truthy (User.phone recipient) = None
  | None => True
  end.
Proof.
  unfold resolvable. destruct (findUnique User.id recipientId (users w)); [|trivial].
  destruct (truthy (User.phone t)); [discriminate | reflexivity].
Qed.

(** X8.  When the recipient does not exist, or has no phone number or an
    empty one, [sendSMS] returns [null] without creating a notification and
    without calling the transport.  What it does do is turn every
    notification of that sick call and recipient that was still PENDING to
    FAILED; all other rows and tables stay as they were. *)
Theorem sendSMS_unreachable env recipientId sickCallId message w :
  resolvable w recipientId = false ->
  exists w' es,
    NotificationService.sendSMS env recipientId sickCallId message w = (Ok None, w')
    /\ onlyNotifies w w'
    /\ notifications w' =
       updateMany (NotificationService.pendingFor sickCallId recipientId)
                  NotificationService.markFailed (notifications w)
    /\ List.length (notifications w') = List.length (notifications w)
    /\ effects w' = effects w ++ es
    /\ Forall marksFailed es.
Proof.
  intros H. rewrite (sendSMS_unresolved _ _ _ _ _ (resolvable_false _ _ H)).
  eexists _, _. split; [reflexivity|].
  split; [repeat split|]. split; [reflexivity|].
  split; [apply length_updateMany|]. split; [reflexivity|].
  apply Forall_forall. intros e He. apply in_map_iff in He as (n & <- & _).
  exists (NotificationService.markFailed n). split; reflexivity.
Qed.

(** X8 at work: an offer addressed to a user id that does not exist. *)
Lemma sendSMS_unreachable_witness :
  exists w' es,
    NotificationService.sendSMS Demo.env "nobody" Demo.call (OfferText Demo.S)
      Demo.afterNotify = (Ok None, w')
    /\ onlyNotifies Demo.afterNotify w'
    /\ notifications w' =
       updateMany (NotificationService.pendingFor Demo.call "nobody")
                  NotificationService.markFailed (notifications Demo.afterNotify)
    /\ List.length (notifications w') = List.length (notifications Demo.afterNotify)
    /\ effects w' = effects Demo.afterNotify ++ es
    /\ Forall marksFailed es.
Proof.
  apply (sendSMS_unreachable Demo.env "nobody" Demo.call (OfferText Demo.S)
           Demo.afterNotify).
  reflexivity.
Defined.

Lemma sendSMS_counts env recipientId sickCallId message w :
  exists result w',
    NotificationService.sendSMS env recipientId sickCallId message w = (Ok result, w')
    /\ onlyNotifies w w'
    /\ List.length (notifications w') =
       (List.length (notifications w) + if resolvable w recipientId then 1 else 0)%nat
    /\ forall staffId, staffId <> recipientId -> notifiedTo staffId w' = notifiedTo staffId w.
Proof.
  destruct (sendSMS_frame env recipientId sickCallId message w)
    as (result & w' & Hrun & Hframe & Hothers).
  exists result, w'. split; [exact Hrun|]. split; [exact Hframe|]. split; [|exact Hothers].
  unfold resolvable.
  destruct (findUnique User.id recipientId (users w)) as [recipient|] eqn:Hr.
  - destruct (truthy (User.phone recipient)) as [phone|] eqn:Hp.
    + rewrite (sendSMS_run _ _ _ _ _ _ _ Hr Hp) in Hrun. cbv zeta in Hrun.
      destruct (twilioConfigured env);
        [destruct (twilioAnswer env phone message)|];
        injection Hrun as _ <-;
        cbn [withNotifications logged setNotifications notifications];
        rewrite ?length_updateMany, length_app; reflexivity.
    + rewrite sendSMS_unresolved in Hrun by (now rewrite Hr, Hp).
      injection Hrun as _ <-.
      cbn [withNotifications logged setNotifications notifications].
      rewrite length_updateMany. lia.
  - rewrite sendSMS_unresolved in Hrun by (now rewrite Hr).
    injection Hrun as _ <-.
    cbn [withNotifications logged setNotifications notifications].
    rewrite length_updateMany. lia.
Qed.

Lemma resolvable_users w w' id : users w' = users w -> resolvable w' id = resolvable w id.
Proof. intros H. unfold resolvable. now rewrite H. Qed.

Lemma notifyEach_run env sickCallId message candidateIds w :
  exists w',
    NotificationService.notifyEach env sickCallId message candidateIds w = (Ok tt, w')
    /\ onlyNotifies w w'
    /\ List.length (notifications w') =
       (List.length (notifications w)
        + List.length (filter (resolvable w) candidateIds))%nat
    /\ forall staffId, ~ In staffId candidateIds ->
                       notifiedTo staffId w' = notifiedTo staffId w.
Proof.
  revert w. induction candidateIds as [|id rest IH]; intros w.
  - exists w. split; [reflexivity|]. split; [repeat split|].
    split; [simpl; lia | reflexivity].
  - cbn [NotificationService.notifyEach]. rewrite bind_unfold.
    destruct (sendSMS_counts env id sickCallId message w)
      as (result & w1 & Hrun & Hframe & Hlen & Hothers).
    rewrite Hrun. cbv beta iota.
    destruct (IH w1) as (w2 & Hrun2 & Hframe2 & Hlen2 & Hothers2).
    exists w2. split; [exact Hrun2|].
    destruct Hframe as (Hu & Hsh & Hsc & Hrs & Hal).
    destruct Hframe2 as (Hu2 & Hsh2 & Hsc2 & Hrs2 & Hal2).
    split; [repeat split; congruence|].
    split.
    + rewrite Hlen2, Hlen. cbn [filter].
      rewrite (filter_ext _ _ (fun i => resolvable_users w w1 i Hu)).
      destruct (resolvable w id); simpl; lia.
    + intros staffId Hnot. rewrite Hothers2, Hothers; [reflexivity| |];
        intros E; apply Hnot; [left; congruence | now right].
Qed.

(** X9.  [notifyCandidates], in its sequential mode, never throws.  It
    adds one notification for every listed candidate that has a phone
    number, none for a listed candidate without, and leaves the
    notifications of everybody who is not listed, and all other tables,
    as they were; with an empty list it does nothing at all. *)
Theorem notifyCandidates_each env sickCallId candidateIds location date startTime endTime w :
  exists w',
    NotificationService.notifyCandidates env sickCallId candidateIds
      location date startTime endTime w = (Ok tt, w')
    /\ onlyNotifies w w'
    /\ List.length (notifications w') =
       (List.length (notifications w)
        + List.length (filter (resolvable w) candidateIds))%nat
    /\ (forall staffId, ~ In staffId candidateIds ->
                        notifiedTo staffId w' = notifiedTo staffId w)
    /\ (candidateIds = [] -> w' = w).
Proof.
  unfold NotificationService.notifyCandidates. cbv zeta.
  destruct candidateIds as [|id rest].
  - exists w. split; [reflexivity|]. split; [repeat split|].
    split; [simpl; lia|]. split; reflexivity.
  - destruct (notifyEach_run env sickCallId
                (AvailableText location date startTime endTime) (id :: rest) w)
      as (w' & Hrun & Hframe & Hlen & Hothers).
    exists w'. repeat (split; [assumption|]). discriminate.
Qed.

(** ** Who is listed, and who is on top *)

Lemma assignRanks_userIds index l :
  map MatchedCandidate.userId (MatchingEngine.assignRanks index l)
  = map MatchedCandidate.userId l.
Proof.
  revert index. induction l as [|a l IH]; intros index; simpl; [reflexivity|].
  now rewrite IH.
Qed.

Lemma Permutation_filter {A} (f : A -> bool) l l' :
  Permutation l l' -> Permutation (filter f l) (filter f l').
Proof.
  induction 1 as [|x l l' _ IH|x y l|l l' l'' _ IH1 _ IH2]; simpl.
  - constructor.
  - destruct (f x); [now constructor | exact IH].
  - destruct (f x), (f y); try reflexivity. apply perm_swap.
  - now transitivity (filter f l').
Qed.

Lemma pushed_spec env w shiftId organizationId rules shift staff :
  pushed env w shiftId organizationId rules shift staff
  = negb (MatchingEngine.isWorking (weeklyShiftsOf env w organizationId shift) shift shiftId staff
          && prioritizeAvailability (spreadRules DEFAULT_RULES rules)).
Proof.
  unfold pushed.
  destruct (MatchingEngine.evaluate _ shift shiftId _ _ staff) as [c|] eqn:E.
  - apply evaluate_Some in E as (_ & _ & _ & -> & _). reflexivity.
  - pose proof (evaluate_None _ _ _ _ _ _ E) as Hw. rewrite Hw. cbn [andb].
    destruct (prioritizeAvailability (spreadRules DEFAULT_RULES rules)) eqn:P;
      [reflexivity|].
    exfalso. unfold MatchingEngine.evaluate in E. rewrite Hw, P in E. cbn [andb negb] in E.
    destruct (avoidOvertime _), (useSeniority _), (useFairness _),
             (_ >? overtimeThreshold _), (MatchingEngine.knownSeniority staff);
      cbv beta iota zeta in E; discriminate.
Qed.

(** X10.  The ranking lists the active staff of the organization, each
    row once: all of them when the availability rule is off, and those not
    working another shift of the organization that day when it is on.  An
    organization without such staff gets the empty list, not an error. *)
Theorem findCandidates_lists env shiftId organizationId locationId rules w out w' :
  MatchingEngine.findCandidates env shiftId organizationId locationId rules w = (Ok out, w') ->
  exists shift,
    findUnique Shift.id shiftId (shifts w) = Some shift
    /\ Permutation
         (map MatchedCandidate.userId out)
         (map User.id
            (filter (fun staff =>
                       negb (MatchingEngine.isWorking
                               (weeklyShiftsOf env w organizationId shift) shift shiftId staff
                             && prioritizeAvailability (spreadRules DEFAULT_RULES rules)))
                    (filter (MatchingEngine.isActiveStaffOf organizationId) (users w)))).
Proof.
  intros Hrun.
  destruct (findCandidates_Ok _ _ _ _ _ _ _ _ Hrun) as (_ & shift & Hs & ->).
  exists shift. split; [exact Hs|].
  rewrite assignRanks_userIds.
  rewrite (Permutation_map _ (Array_sort_Permutation _ _)).
  unfold evaluated. rewrite evaluateAll_userIds
    by (intros staff c Hc; now apply evaluate_Some in Hc).
  apply Permutation_map.
  rewrite (filter_ext _ _ (pushed_spec env w shiftId organizationId rules shift)).
  apply Permutation_filter. unfold allStaffOf. apply Array_sort_Permutation.
Qed.

(** X10 at work: the default ranking of the demo lists A and B. *)
Lemma findCandidates_lists_witness :
  exists shift,
    findUnique Shift.id "S" (shifts Demo.afterSubmit) = Some shift
    /\ Permutation
         (map MatchedCandidate.userId Demo.ranked)
         (map User.id
            (filter (fun staff =>
                       negb (MatchingEngine.isWorking
                               (weeklyShiftsOf Demo.env Demo.afterSubmit "org" shift) shift "S" staff
                             && prioritizeAvailability (spreadRules DEFAULT_RULES noRules)))
                    (filter (MatchingEngine.isActiveStaffOf "org")
                            (users Demo.afterSubmit)))).
Proof.
  apply (findCandidates_lists Demo.env "S" "org" "loc" noRules Demo.afterSubmit
           Demo.ranked Demo.afterSubmit).
  vm_compute. reflexivity.
Defined.

Lemma firstn_seq k start len : firstn k (seq start len) = seq start (Nat.min k len).
Proof.
  revert start len. induction k as [|k IH]; intros start len; [reflexivity|].
  destruct len as [|len]; [reflexivity|]. simpl. now rewrite IH.
Qed.

Lemma findCandidates_all_available env shiftId organizationId locationId rules w out w' :
  MatchingEngine.findCandidates env shiftId organizationId locationId rules w = (Ok out, w') ->
  prioritizeAvailability (spreadRules DEFAULT_RULES rules) = true ->
  filter MatchedCandidate.isAvailable out = out.
Proof.
  intros Hrun Hrule. apply forallb_filter_id, forallb_forall. intros c Hc.
  destruct (findCandidates_In _ _ _ _ _ _ _ _ _ Hrun Hc)
    as (shift & staff & c0 & _ & _ & _ & Hev & ->).
  apply evaluate_Some in Hev as (_ & _ & Hav & Hskip & _).
  rewrite Hrule, andb_true_r in Hskip. cbn. now rewrite Hav, Hskip.
Qed.

(** X11.  For a count that is not negative, [getTopCandidates] returns at
    most that many candidates, all of them available: the first ones, in
    ranking order, of the available candidates of [findCandidates].  Under
    the availability rule these are the candidates of rank 1 to K, K the
    smaller of the count and the length of the ranking. *)
Theorem getTopCandidates_top env shiftId organizationId locationId count rules w top w' :
  MatchingEngine.getTopCandidates env shiftId organizationId locationId count rules w
    = (Ok top, w') ->
  0 <= count ->
  exists out rest,
    MatchingEngine.findCandidates env shiftId organizationId locationId rules w = (Ok out, w)
    /\ w' = w
    /\ filter MatchedCandidate.isAvailable out = top ++ rest
    /\ (List.length top <= Z.to_nat count)%nat
    /\ Forall (fun c => MatchedCandidate.isAvailable c = true) top
    /\ (prioritizeAvailability (spreadRules DEFAULT_RULES rules) = true ->
        out = top ++ rest
        /\ map MatchedCandidate.rank top
           = map Z.of_nat (seq 1 (Nat.min (Z.to_nat count) (List.length out)))).
Proof.
  intros Hrun Hcount. rewrite getTopCandidates_run in Hrun.
  destruct (MatchingEngine.findCandidates env shiftId organizationId locationId rules w)
    as [[out|e] w0] eqn:Hfc; [|discriminate].
  injection Hrun as <- <-.
  destruct (findCandidates_Ok _ _ _ _ _ _ _ _ Hfc) as (-> & shift & Hs & Hout).
  unfold slice0. replace (count <? 0) with false by (symmetry; apply Z.ltb_ge; lia).
  exists out, (skipn (Z.to_nat count) (filter MatchedCandidate.isAvailable out)).
  split; [reflexivity|]. split; [reflexivity|].
  split; [symmetry; apply firstn_skipn|].
  split; [apply firstn_le_length|].
  split.
  - apply Forall_forall. intros c Hc.
    assert (Hin : In c (filter MatchedCandidate.isAvailable out)).
    { rewrite <- (firstn_skipn (Z.to_nat count)). apply in_or_app. now left. }
    now apply filter_In in Hin.
  - intros Hrule. rewrite (findCandidates_all_available _ _ _ _ _ _ _ _ Hfc Hrule).
    split; [symmetry; apply firstn_skipn|].
    rewrite <- firstn_map.
    replace (map MatchedCandidate.rank out)
      with (map Z.of_nat (seq 1 (List.length out))).
    + now rewrite firstn_map, firstn_seq.
    + rewrite Hout, assignRanks_ranks, assignRanks_length. apply map_ext. intros k. lia.
Qed.

(** X11 at work: the top 1 of the demo's ranking. *)
Lemma getTopCandidates_top_witness :
  exists out rest,
    MatchingEngine.findCandidates Demo.env "S" "org" "loc" noRules Demo.afterSubmit
      = (Ok out, Demo.afterSubmit)
    /\ Demo.afterSubmit = Demo.afterSubmit
    /\ filter MatchedCandidate.isAvailable out = firstn 1 Demo.ranked ++ rest
    /\ (List.length (firstn 1 Demo.ranked) <= Z.to_nat 1)%nat
    /\ Forall (fun c => MatchedCandidate.isAvailable c = true) (firstn 1 Demo.ranked)
    /\ (prioritizeAvailability (spreadRules DEFAULT_RULES noRules) = true ->
        out = firstn 1 Demo.ranked ++ rest
        /\ map MatchedCandidate.rank (firstn 1 Demo.ranked)
           = map Z.of_nat (seq 1 (Nat.min (Z.to_nat 1) (List.length out)))).
Proof.
  apply (getTopCandidates_top Demo.env "S" "org" "loc" 1 noRules Demo.afterSubmit
           (firstn 1 Demo.ranked) Demo.afterSubmit).
  - vm_compute. reflexivity.
  - lia.
Defined.

(** ** The automatic notify step *)

Lemma findUnique_updateMany_where {R} (key : R -> Id) (p : R -> bool) f k t :
  (forall r, key (f r) = key r) ->
  findUnique key k (updateMany p f t)
  = option_map (fun r => if p r then f r else r) (findUnique key k t).
Proof.
  intros Hkey. unfold findUnique, updateMany.
  induction t as [|r t IH]; simpl; [reflexivity|].
  assert (E : key (if p r then f r else r) = key r) by (destruct (p r); auto).
  rewrite E. destruct (String.eqb (key r) k); [reflexivity | exact IH].
Qed.

Lemma updateMany_twice {R} (p : R -> bool) f g t :
  (forall r, p (f r) = p r) -> (forall r, g (f r) = g r) ->
  updateMany p g (updateMany p f t) = updateMany p g t.
Proof.
  intros Hp Hg. unfold updateMany. rewrite map_map. apply map_ext. intros r.
  destruct (p r) eqn:E; [|now rewrite E]. now rewrite Hp, E, Hg.
Qed.

(** The ranking reads the sick calls only for their organization: a change
    of status does not move it. *)
Lemma evaluated_sickCall_status env w w1 p status shiftId organizationId rules shift :
  users w1 = users w -> shifts w1 = shifts w -> shiftResponses w1 = shiftResponses w ->
  sickCalls w1 = updateMany p (SickCalls.setSickCallStatus status) (sickCalls w) ->
  evaluated env w1 shiftId organizationId rules shift
  = evaluated env w shiftId organizationId rules shift.
Proof.
  intros Hu Hs Hr Hc.
  unfold evaluated, allStaffOf, weeklyShiftsOf, recentPickupsOf.
  rewrite Hu, Hs, Hr, Hc. f_equal. f_equal. apply filter_ext. intros r.
  rewrite (findUnique_updateMany_where SickCall.id) by (intros c; reflexivity).
  destruct (findUnique SickCall.id (ShiftResponse.sickCallId r) (sickCalls w)) as [c|];
    [|reflexivity].
  cbn [option_map]. destruct (p c); reflexivity.
Qed.

Lemma startShiftCoverageProcess_outcome env sickCallId w sickCall shift :
  findUnique SickCall.id sickCallId (sickCalls w) = Some sickCall ->
  findUnique Shift.id (SickCall.shiftId sickCall) (shifts w) = Some shift ->
  exists top w',
    MatchingEngine.getTopCandidates env (SickCall.shiftId sickCall)
      (SickCall.organizationId sickCall) (SickCall.locationId sickCall) 5 noRules w
      = (Ok top, w)
    /\ SickCalls.startShiftCoverageProcess env sickCallId w = (Ok tt, w')
    /\ users w' = users w /\ shifts w' = shifts w
    /\ shiftResponses w' = shiftResponses w /\ auditLogs w' = auditLogs w
    /\ sickCalls w'
       = updateMany (hasId SickCall.id sickCallId)
           (SickCalls.setSickCallStatus
              (match top with
               | [] => SickCallStatus.UNFILLED
               | _ :: _ => SickCallStatus.NOTIFYING
               end))
           (sickCalls w)
    /\ match top with
       | [] => notifications w' = notifications w
       | first :: _ =>
           List.length (notifications w')
           = (List.length (notifications w)
              + if resolvable w (MatchedCandidate.userId first) then 1 else 0)%nat
           /\ forall staffId, staffId <> MatchedCandidate.userId first ->
                              notifiedTo staffId w' = notifiedTo staffId w
       end.
Proof.
  intros Hc Hs.
  destruct (MatchingEngine.getTopCandidates env (SickCall.shiftId sickCall)
              (SickCall.organizationId sickCall) (SickCall.locationId sickCall) 5 noRules w)
    as [r0 w0] eqn:Htop0.
  pose proof Htop0 as Hrun0. rewrite getTopCandidates_run, findCandidates_run, Hs in Hrun0.
  injection Hrun0 as <- <-.
  destruct w as [us sh sc ns rs al es]. cbn [sickCalls shifts] in Hc, Hs.
  unfold SickCalls.startShiftCoverageProcess.
  step sickCall_findUnique_run. rewrite Hc.
  step shift_findUnique_run. rewrite Hs.
  step sickCall_update_run. rewrite Hc. world. rewrite ?bind_unfold.
  match goal with
  | |- context [MatchingEngine.getTopCandidates ?e ?i ?o ?l ?n ?r ?w0] =>
      assert (Htop : MatchingEngine.getTopCandidates e i o l n r w0
                     = (Ok (slice0 5 (filter MatchedCandidate.isAvailable
                              (MatchingEngine.assignRanks 0
                                 (Array_sort MatchingEngine.byScoreDesc
                                    (evaluated env (mkWorld us sh sc ns rs al es) i o r
                                       shift))))), w0))
  end.
  { rewrite getTopCandidates_run, findCandidates_run. cbn [shifts]. rewrite Hs.
    erewrite evaluated_sickCall_status; reflexivity. }
  rewrite Htop. clear Htop. world.
  match goal with
  | |- context [slice0 5 ?l] => exists (slice0 5 l); destruct (slice0 5 l) as [|first rest]
  end.
  - eexists. split; [reflexivity|].
    step sickCall_update_run.
    rewrite (findUnique_updateMany SickCall.id) by (intros r; reflexivity).
    rewrite Hc. cbn [option_map]. world.
    split; [reflexivity|]. world.
    rewrite updateMany_twice by (intros r; reflexivity).
    repeat (split; [reflexivity|]). reflexivity.
  - unfold SickCalls.includedShift. rewrite !bind_unfold, ret_run. world.
    rewrite ?bind_unfold.
    match goal with
    | |- context [NotificationService.sendSMS ?e ?r ?s ?m ?w0] =>
        destruct (sendSMS_counts e r s m w0)
          as (result & w2 & Hsms & Hframe & Hlen & Hothers)
    end.
    eexists. split; [reflexivity|].
    rewrite Hsms. world.
    destruct Hframe as (Hu & Hsh & Hsc & Hrs & Hal).
    cbn [users shifts sickCalls shiftResponses auditLogs] in Hu, Hsh, Hsc, Hrs, Hal.
    split; [reflexivity|]. world.
    split; [exact Hu|]. split; [exact Hsh|]. split; [exact Hrs|]. split; [exact Hal|].
    split; [exact Hsc|]. split; [exact Hlen|].
    intros staffId Hne. specialize (Hothers staffId Hne).
    unfold notifiedTo in *. cbn [notifications] in *. exact Hothers.
Qed.

(** X12.  The notify step for a sick call whose shift exists always
    completes.  It offers the shift to nobody but the first of the top five
    available candidates, with at most one new notification, and leaves the
    sick call NOTIFYING; when there is no available candidate it creates no
    notification and leaves the sick call UNFILLED.  Users, shifts,
    responses and the audit log stay as they were. *)
Theorem notify_step_outcome env sickCallId w sickCall shift :
  findUnique SickCall.id sickCallId (sickCalls w) = Some sickCall ->
  findUnique Shift.id (SickCall.shiftId sickCall) (shifts w) = Some shift ->
  exists top w',
    MatchingEngine.getTopCandidates env (SickCall.shiftId sickCall)
      (SickCall.organizationId sickCall) (SickCall.locationId sickCall) 5 noRules w
      = (Ok top, w)
    /\ SickCalls.startShiftCoverageProcess env sickCallId w = (Ok tt, w')
    /\ users w' = users w /\ shifts w' = shifts w
    /\ shiftResponses w' = shiftResponses w /\ auditLogs w' = auditLogs w
    /\ match top with
       | [] =>
           findUnique SickCall.id sickCallId (sickCalls w')
           = Some (SickCalls.setSickCallStatus SickCallStatus.UNFILLED sickCall)
           /\ notifications w' = notifications w
       | first :: _ =>
           findUnique SickCall.id sickCallId (sickCalls w')
           = Some (SickCalls.setSickCallStatus SickCallStatus.NOTIFYING sickCall)
           /\ (List.length (notifications w') <= S (List.length (notifications w)))%nat
           /\ forall staffId, staffId <> MatchedCandidate.userId first ->
                              notifiedTo staffId w' = notifiedTo staffId w
       end.
Proof.
  intros Hc Hs.
  destruct (startShiftCoverageProcess_outcome env sickCallId w sickCall shift Hc Hs)
    as (top & w' & Htop & Hrun & Hu & Hsh & Hrs & Hal & Hsc & Hn).
  exists top, w'. repeat (split; [assumption|]).
  assert (Hrow : forall status,
             findUnique SickCall.id sickCallId
               (updateMany (hasId SickCall.id sickCallId)
                  (SickCalls.setSickCallStatus status) (sickCalls w))
             = Some (SickCalls.setSickCallStatus status sickCall)).
  { intros status.
    rewrite (findUnique_updateMany SickCall.id) by (intros r; reflexivity).
    now rewrite Hc. }
  rewrite Hsc. destruct top as [|first rest].
  - split; [apply Hrow | exact Hn].
  - destruct Hn as [Hlen Hothers]. split; [apply Hrow|]. split; [|exact Hothers].
    rewrite Hlen. destruct (resolvable w (MatchedCandidate.userId first)); lia.
Qed.

(** X12 at work: the step for the sick call that A submitted for S. *)
Lemma notify_step_outcome_witness :
  exists top w',
    MatchingEngine.getTopCandidates Demo.env
      (SickCall.shiftId DemoRows.pending) (SickCall.organizationId DemoRows.pending)
      (SickCall.locationId DemoRows.pending) 5 noRules Demo.afterSubmit
      = (Ok top, Demo.afterSubmit)
    /\ SickCalls.startShiftCoverageProcess Demo.env Demo.call Demo.afterSubmit = (Ok tt, w')
    /\ users w' = users Demo.afterSubmit /\ shifts w' = shifts Demo.afterSubmit
    /\ shiftResponses w' = shiftResponses Demo.afterSubmit
    /\ auditLogs w' = auditLogs Demo.afterSubmit
    /\ match top with
       | [] =>
           findUnique SickCall.id Demo.call (sickCalls w')
           = Some (SickCalls.setSickCallStatus SickCallStatus.UNFILLED DemoRows.pending)
           /\ notifications w' = notifications Demo.afterSubmit
       | first :: _ =>
           findUnique SickCall.id Demo.call (sickCalls w')
           = Some (SickCalls.setSickCallStatus SickCallStatus.NOTIFYING DemoRows.pending)
           /\ (List.length (notifications w')
               <= S (List.length (notifications Demo.afterSubmit)))%nat
           /\ forall staffId, staffId <> MatchedCandidate.userId first ->
                              notifiedTo staffId w' = notifiedTo staffId Demo.afterSubmit
       end.
Proof.
  apply (notify_step_outcome Demo.env Demo.call Demo.afterSubmit DemoRows.pending Demo.vacated);
    vm_compute; reflexivity.
Defined.

(** X13.  The notify step does not look at the status it overwrites.  Run
    on a sick call that is COVERED, it completes and leaves the sick call
    NOTIFYING or UNFILLED, still naming who covered it, while the shift
    stays COVERED and assigned to that staff member. *)
Theorem notify_step_reopens_covered env sickCallId staffId w :
  coveredBy staffId sickCallId w ->
  exists w' sickCall shift,
    SickCalls.startShiftCoverageProcess env sickCallId w = (Ok tt, w')
    /\ findUnique SickCall.id sickCallId (sickCalls w') = Some sickCall
    /\ (SickCall.status sickCall = SickCallStatus.NOTIFYING
        \/ SickCall.status sickCall = SickCallStatus.UNFILLED)
    /\ SickCall.coveredById sickCall = Some staffId
    /\ findUnique Shift.id (SickCall.shiftId sickCall) (shifts w') = Some shift
    /\ Shift.status shift = ShiftStatus.COVERED
    /\ Shift.assignedToId shift = Some staffId.
Proof.
  intros (sickCall & shift & Hc & _ & Hby & Hs & Hst & Hto).
  destruct (startShiftCoverageProcess_outcome env sickCallId w sickCall shift Hc Hs)
    as (top & w' & _ & Hrun & _ & Hsh & _ & _ & Hsc & _).
  eexists w', _, shift. split; [exact Hrun|].
  split.
  { rewrite Hsc, (findUnique_updateMany SickCall.id) by (intros r; reflexivity).
    rewrite Hc. reflexivity. }
  cbn. split; [destruct top; auto|]. split; [exact Hby|].
  rewrite Hsh. auto.
Qed.

(** X13 at work: the step run again after B has covered S. *)
Lemma notify_step_reopens_covered_witness :
  exists w' sickCall shift,
    SickCalls.startShiftCoverageProcess Demo.env Demo.call Demo.afterAccept = (Ok tt, w')
    /\ findUnique SickCall.id Demo.call (sickCalls w') = Some sickCall
    /\ (SickCall.status sickCall = SickCallStatus.NOTIFYING
        \/ SickCall.status sickCall = SickCallStatus.UNFILLED)
    /\ SickCall.coveredById sickCall = Some "B"
    /\ findUnique Shift.id (SickCall.shiftId sickCall) (shifts w') = Some shift
    /\ Shift.status shift = ShiftStatus.COVERED
    /\ Shift.assignedToId shift = Some "B".
Proof.
  apply (notify_step_reopens_covered Demo.env Demo.call "B" Demo.afterAccept).
  eexists _, _. vm_compute. repeat split; reflexivity.
Defined.

(** ** The list of sick calls *)

Lemma createdAtDesc_sorted (l : list SickCall.t) :
  StronglySorted (fun a b => SickCall.createdAt a >= SickCall.createdAt b)
                 (Array_sort SickCalls.createdAtDesc l).
Proof.
  assert (H : StronglySorted (fun a b => SickCalls.createdAtDesc a b <= 0)
                (Array_sort SickCalls.createdAtDesc l)).
  { apply Array_sort_sorted; unfold SickCalls.createdAtDesc.
    - intros a b E. apply Z.ltb_ge in E. lia.
    - intros a b c. lia. }
  induction H as [|a t _ IH Ha]; constructor; [exact IH|].
  eapply Forall_impl; [|exact Ha]. unfold SickCalls.createdAtDesc. intros b. cbv beta. lia.
Qed.

(** X14.  The list route never fails and changes nothing.  It returns the
    sick calls of the caller's organization, and to a STAFF caller only
    those that the caller reported, each stored row once, the latest
    first. *)
Theorem list_visible user w :
  exists rows,
    SickCalls.list user w = (Ok (inr rows), w)
    /\ (forall c, In c rows <->
                  In c (sickCalls w)
                  /\ SickCall.organizationId c = AuthUser.organizationId user
                  /\ (AuthUser.role user = STAFF -> SickCall.staffId c = AuthUser.id user))
    /\ Permutation rows (filter (SickCalls.visibleTo user) (sickCalls w))
    /\ StronglySorted (fun a b => SickCall.createdAt a >= SickCall.createdAt b) rows.
Proof.
  exists (Array_sort SickCalls.createdAtDesc (filter (SickCalls.visibleTo user) (sickCalls w))).
  split; [reflexivity|].
  split; [|split; [apply Array_sort_Permutation | apply createdAtDesc_sorted]].
  intros c. split.
  - intros Hc. apply (Permutation_in _ (Array_sort_Permutation _ _)) in Hc.
    apply filter_In in Hc as [Hin Hv]. split; [exact Hin|].
    unfold SickCalls.visibleTo in Hv. apply andb_prop in Hv as [Ho Hs].
    apply String.eqb_eq in Ho. split; [exact Ho|].
    intros Hrole. rewrite Hrole in Hs. now apply String.eqb_eq.
  - intros (Hin & Ho & Hs).
    apply (Permutation_in _ (Permutation_sym (Array_sort_Permutation _ _))).
    apply filter_In. split; [exact Hin|].
    unfold SickCalls.visibleTo. apply andb_true_intro. split; [now apply String.eqb_eq|].
    destruct (AuthUser.role user); try reflexivity.
    apply String.eqb_eq. now apply Hs.
Qed.

(** ** The users routes *)

Lemma user_update_run id data w :
  Prisma.user_update id data w =
  match findUnique User.id id (users w) with
  | Some u =>
      (Ok (data u),
       logged [Updated (RUser (data u))]
              (setUsers (updateMany (hasId User.id id) data (users w)) w))
  | None => (Throw recordNotFound, w)
  end.
Proof.
  unfold Prisma.user_update. rewrite bind_unfold, user_findUnique_run.
  destruct (findUnique User.id id (users w)); reflexivity.
Qed.

Lemma Forall2_refl_on {A} (P : A -> A -> Prop) l :
  (forall a, P a a) -> Forall2 P l l.
Proof. intros H. induction l; constructor; auto. Qed.

Lemma Forall2_updateMany {A} (P : A -> A -> Prop) (p : A -> bool) f l :
  (forall a, P a (if p a then f a else a)) -> Forall2 P l (updateMany p f l).
Proof. intros H. unfold updateMany. induction l; simpl; constructor; auto. Qed.

(** X15.  [GET /users/:id] never changes the store, and the row it returns
    is a stored user with the requested id in the caller's organization; a
    STAFF caller gets no row but their own.  Its refusals are 403 and
    404. *)
Theorem get_scoped user id w :
  exists r,
    Users.get user id w = (Ok r, w)
    /\ match r with
       | inr u =>
           In u (users w)
           /\ User.id u = id
           /\ User.organizationId u = AuthUser.organizationId user
           /\ (AuthUser.role user = STAFF -> id = AuthUser.id user)
       | inl reply =>
           reply = mkReply 403 "Access denied" /\ AuthUser.role user = STAFF
                                               /\ id <> AuthUser.id user
           \/ reply = mkReply 404 "User not found"
       end.
Proof.
  unfold Users.get. rewrite tryCatch_unfold.
  destruct (Users.isStaff user && negb (String.eqb id (AuthUser.id user))) eqn:G.
  - rewrite ret_run. eexists. split; [reflexivity|]. left.
    apply andb_prop in G as [Gs Gi]. split; [reflexivity|].
    split.
    + unfold Users.isStaff in Gs. destruct (AuthUser.role user); congruence.
    + apply negb_true_iff, String.eqb_neq in Gi. exact Gi.
  - rewrite bind_unfold. unfold Prisma.user_findFirst, gets. cbv beta iota.
    destruct (find _ (users w)) as [u|] eqn:F; rewrite ret_run.
    + eexists. split; [reflexivity|]. apply find_some in F as [Hin Hp].
      apply andb_prop in Hp as [Hi Ho]. apply String.eqb_eq in Hi, Ho.
      repeat (split; [assumption|]).
      intros Hrole. unfold Users.isStaff in G. rewrite Hrole in G. cbn in G.
      apply negb_false_iff, String.eqb_eq in G. exact G.
    + eexists. split; [reflexivity|]. now right.
Qed.

(** X16.  [PUT /users/:id] always answers, and whoever calls it, it leaves
    every table but the users as it was, keeps the number and order of the
    user rows, the id, email and organization of each, and every row whose
    id is not the requested one.  A caller who is not ADMIN changes nobody's
    role, active flag or seniority, and a STAFF caller changes no row but
    their own.  When the answer is a refusal the store is as before. *)
Theorem update_privileges user id body w :
  exists r w',
    Users.update user id body w = (Ok r, w')
    /\ onlyUsers w w'
    /\ Forall2 (fun u u' =>
                  sameIdentity u u'
                  /\ (User.id u <> id -> u' = u)
                  /\ (Users.isAdmin user = false -> sameStanding u u')
                  /\ (Users.isStaff user = true -> User.id u <> AuthUser.id user -> u' = u))
               (users w) (users w')
    /\ (forall reply, r = inl reply -> w' = w).
Proof.
  assert (Hsame : Forall2 (fun u u' =>
                  sameIdentity u u'
                  /\ (User.id u <> id -> u' = u)
                  /\ (Users.isAdmin user = false -> sameStanding u u')
                  /\ (Users.isStaff user = true -> User.id u <> AuthUser.id user -> u' = u))
               (users w) (users w)).
  { apply Forall2_refl_on. intros a. unfold sameIdentity, sameStanding. tauto. }
  unfold Users.update. rewrite tryCatch_unfold.
  destruct (Users.isStaff user && negb (String.eqb id (AuthUser.id user))) eqn:G1.
  { rewrite ret_run. eexists _, w. split; [reflexivity|].
    split; [repeat split|]. split; [exact Hsame | reflexivity]. }
  destruct (negb (Users.isAdmin user)
            && (Users.isSome (Users.Body.role body) || Users.isSome (Users.Body.active body)
                || Users.isSome (Users.Body.seniority body))) eqn:G2.
  { rewrite ret_run. eexists _, w. split; [reflexivity|].
    split; [repeat split|]. split; [exact Hsame | reflexivity]. }
  rewrite bind_unfold, user_update_run.
  destruct (findUnique User.id id (users w)) as [u0|] eqn:F.
  - rewrite ret_run. eexists _, _. split; [reflexivity|].
    destruct w as [us sh sc ns rs al es]. world.
    split; [repeat split|]. split; [|discriminate].
    apply Forall2_updateMany. intros u. unfold hasId.
    destruct (String.eqb (User.id u) id) eqn:E.
    + apply String.eqb_eq in E.
      split; [unfold Users.applyBody, sameIdentity; destruct (Users.isAdmin user);
              repeat split|].
      split; [congruence|].
      split.
      * intros Hadm. unfold Users.applyBody, sameStanding. rewrite Hadm. repeat split.
      * intros Hst Hne. exfalso. rewrite Hst in G1. cbn [andb] in G1.
        apply negb_false_iff, String.eqb_eq in G1. congruence.
    + unfold sameIdentity, sameStanding. tauto.
  - rewrite ret_run. eexists _, w. split; [reflexivity|].
    split; [repeat split|]. split; [exact Hsame | reflexivity].
Qed.

(** X17.  [DELETE /users/:id] by an ADMIN, of whatever organization, for a
    user that exists answers 200, touches no table but the users, and
    leaves that user inactive; from then on the ranking of any shift for
    any organization has no entry for that user. *)
Theorem deactivated_never_ranked user id w u :
  Users.isAdmin user = true ->
  findUnique User.id id (users w) = Some u ->
  exists w',
    Users.deactivate user id w = (Ok (mkReply 200 "User deactivated successfully"), w')
    /\ onlyUsers w w'
    /\ findUnique User.id id (users w') = Some (Users.setInactive u)
    /\ forall env shiftId organizationId locationId rules out w'' c,
         MatchingEngine.findCandidates env shiftId organizationId locationId rules w'
           = (Ok out, w'') ->
         In c out -> MatchedCandidate.userId c <> id.
Proof.
  intros Hadm Hu. unfold Users.deactivate. rewrite Hadm. cbn [negb].
  rewrite tryCatch_unfold, bind_unfold, user_update_run, Hu.
  destruct w as [us sh sc ns rs al es]. cbn [users] in Hu. world. rewrite ret_run.
  eexists. split; [reflexivity|]. world.
  split; [repeat split|].
  split.
  { rewrite (findUnique_updateMany User.id) by (intros r; reflexivity). now rewrite Hu. }
  intros env shiftId organizationId locationId rules out w'' c Hrun Hc Hid.
  destruct (findCandidates_In _ _ _ _ _ _ _ _ _ Hrun Hc)
    as (shift & staff & c0 & _ & Hin & Hact & Hev & Hceq).
  apply evaluate_Some in Hev as (Hcid & _).
  cbn [users] in Hin. apply updateMany_In in Hin as (r0 & _ & Hr0).
  assert (Hsid : User.id staff = id).
  { rewrite <- Hcid, <- Hid, Hceq. reflexivity. }
  unfold hasId in Hr0. destruct (String.eqb (User.id r0) id) eqn:E.
  - subst staff. unfold MatchingEngine.isActiveStaffOf, Users.setInactive in Hact.
    cbn in Hact. now rewrite andb_false_r in Hact.
  - subst staff. apply String.eqb_neq in E. contradiction.
Qed.

(** X17 at work: an administrator of another organization deactivates B,
    who was first among the others in the ranking for S. *)
Lemma deactivated_never_ranked_witness :
  exists w',
    Users.deactivate foreignAdmin "B" Demo.afterSubmit
      = (Ok (mkReply 200 "User deactivated successfully"), w')
    /\ onlyUsers Demo.afterSubmit w'
    /\ findUnique User.id "B" (users w') = Some (Users.setInactive Demo.B)
    /\ forall env shiftId organizationId locationId rules out w'' c,
         MatchingEngine.findCandidates env shiftId organizationId locationId rules w'
           = (Ok out, w'') ->
         In c out -> MatchedCandidate.userId c <> "B".
Proof.
  apply (deactivated_never_ranked foreignAdmin "B" Demo.afterSubmit Demo.B);
    vm_compute; reflexivity.
Defined.

(** ** The trace of an assignment *)

Lemma sendSMS_effects env recipientId sickCallId message w :
  exists result w' es,
    NotificationService.sendSMS env recipientId sickCallId message w = (Ok result, w')
    /\ effects w' = effects w ++ es
    /\ Forall aboutNotification es.
Proof.
  destruct (findUnique User.id recipientId (users w)) as [recipient|] eqn:Hr.
  - destruct (truthy (User.phone recipient)) as [phone|] eqn:Hp.
    + rewrite (sendSMS_run _ _ _ _ _ _ _ Hr Hp). cbv zeta.
      destruct (twilioConfigured env);
        [destruct (twilioAnswer env phone message) as [sid|]|];
        eexists _, _, _; (split; [reflexivity|]); (split; [reflexivity|]);
        repeat (constructor; [exact I|]); try constructor.
      apply Forall_forall. intros e He. apply in_map_iff in He as (m & <- & _). exact I.
    + rewrite sendSMS_unresolved by (rewrite Hr; exact Hp).
      eexists _, _, _. split; [reflexivity|]. split; [reflexivity|].
      apply Forall_forall. intros e He. apply in_map_iff in He as (m & <- & _). exact I.
  - rewrite sendSMS_unresolved by (now rewrite Hr).
    eexists _, _, _. split; [reflexivity|]. split; [reflexivity|].
    apply Forall_forall. intros e He. apply in_map_iff in He as (m & <- & _). exact I.
Qed.

(** X18.  An assignment of a sick call whose shift exists performs, in this
    order: the update of the sick call to COVERED, the update of the shift,
    the creation of the audit row, then what [sendSMS] does for the
    confirmation, and last the broadcast of shift-covered, which carries
    the shift as it was before the assignment.  When the assignee is not a
    stored user there is no confirmation at all. *)
Theorem assignShift_trace env sickCallId staffId managerId reason w sickCall shift :
  findUnique SickCall.id sickCallId (sickCalls w) = Some sickCall ->
  findUnique Shift.id (SickCall.shiftId sickCall) (shifts w) = Some shift ->
  exists w' audit sms,
    SickCalls.assignShift env sickCallId staffId managerId reason w = (Ok tt, w')
    /\ effects w'
       = effects w
         ++ [Updated (RSickCall (SickCalls.setCovered env staffId sickCall));
             Updated (RShift (SickCalls.setShiftCovered staffId shift));
             Created (RAuditLog audit)]
         ++ sms
         ++ [Emit (SickCall.organizationId sickCall)
               (shift_covered sickCallId staffId (Some shift))]
    /\ auditLogs w' = auditLogs w ++ [audit]
    /\ Forall aboutNotification sms
    /\ (findUnique User.id staffId (users w) = None ->
        sms = [] /\ notifications w' = notifications w).
Proof.
  intros Hc Hs.
  destruct w as [us sh sc ns rs al es]. world. cbn [sickCalls shifts] in Hc, Hs.
  unfold SickCalls.assignShift.
  step sickCall_findUnique_run. rewrite Hc.
  step shift_findUnique_run. rewrite Hs.
  step sickCall_update_run. rewrite Hc.
  step shift_update_run. rewrite Hs.
  step auditLog_create_run.
  step user_findUnique_run.
  destruct (findUnique User.id staffId us) as [staff|].
  - unfold SickCalls.includedShift. rewrite !bind_unfold, ret_run. world. rewrite ?bind_unfold.
    match goal with
    | |- context [NotificationService.sendSMS ?e ?r ?s ?m ?w0] =>
        destruct (sendSMS_effects e r s m w0) as (result & w1 & sms & Hrun & Heff & Hsms);
        destruct (sendSMS_frame e r s m w0) as (result' & w1' & Hrun' & Hframe & _)
    end.
    rewrite Hrun in Hrun'. injection Hrun' as <- <-.
    rewrite ?bind_unfold, Hrun. world. rewrite ?ret_run. world.
    destruct Hframe as (_ & _ & _ & _ & Hal). cbn [auditLogs effects] in Hal, Heff.
    eexists _, _, sms. split; [reflexivity|]. world.
    split; [rewrite Heff; rewrite <- !app_assoc; reflexivity|].
    split; [exact Hal|]. split; [exact Hsms|]. discriminate.
  - eexists _, _, []. split; [reflexivity|]. world.
    split; [rewrite <- !app_assoc; reflexivity|].
    split; [reflexivity|]. split; [constructor|]. intros _. split; reflexivity.
Qed.

(** X18 at work: B's acceptance of the offer for S. *)
Lemma assignShift_trace_witness :
  exists w' audit sms,
    SickCalls.assignShift Demo.env Demo.call "B" None None Demo.afterNotify = (Ok tt, w')
    /\ effects w'
       = effects Demo.afterNotify
         ++ [Updated (RSickCall (SickCalls.setCovered Demo.env "B" Demo.notifying));
             Updated (RShift (SickCalls.setShiftCovered "B" Demo.vacated));
             Created (RAuditLog audit)]
         ++ sms
         ++ [Emit (SickCall.organizationId Demo.notifying)
               (shift_covered Demo.call "B" (Some Demo.vacated))]
    /\ auditLogs w' = auditLogs Demo.afterNotify ++ [audit]
    /\ Forall aboutNotification sms
    /\ (findUnique User.id "B" (users Demo.afterNotify) = None ->
        sms = [] /\ notifications w' = notifications Demo.afterNotify).
Proof.
  apply (assignShift_trace Demo.env Demo.call "B" None None Demo.afterNotify
           Demo.notifying Demo.vacated); vm_compute; reflexivity.
Defined.

(** ** The candidates route and the deferred step *)

(** X19.  [GET /:id/candidates] never changes the store.  It is closed to
    STAFF (403) and answers 404 for an unknown sick call.  What it returns
    otherwise is the ranking of the sick call's shift for the organization
    of the caller, not of the sick call: every entry is an active staff
    member of the caller's organization. *)
Theorem candidates_of_caller env user sickCallId w :
  exists r,
    SickCalls.candidates env user sickCallId w = (Ok r, w)
    /\ match r with
       | inr found =>
           SickCalls.authorized user = true
           /\ (exists sickCall,
                 findUnique SickCall.id sickCallId (sickCalls w) = Some sickCall
                 /\ MatchingEngine.findCandidates env (SickCall.shiftId sickCall)
                      (AuthUser.organizationId user) (SickCall.locationId sickCall)
                      noRules w = (Ok found, w))
           /\ forall c, In c found ->
                exists staff,
                  In staff (users w)
                  /\ User.id staff = MatchedCandidate.userId c
                  /\ User.organizationId staff = AuthUser.organizationId user
                  /\ User.role staff = STAFF
                  /\ User.active staff = true
       | inl reply =>
           reply = mkReply 403 "Insufficient permissions"
             /\ SickCalls.authorized user = false
           \/ reply = mkReply 404 "Sick call not found"
             /\ findUnique SickCall.id sickCallId (sickCalls w) = None
           \/ reply = mkReply 500 "Failed to fetch candidates"
             /\ exists sickCall,
                  findUnique SickCall.id sickCallId (sickCalls w) = Some sickCall
                  /\ findUnique Shift.id (SickCall.shiftId sickCall) (shifts w) = None
       end.
Proof.
  unfold SickCalls.candidates.
  destruct (SickCalls.authorized user) eqn:Ha; cbn [negb].
  2:{ rewrite ret_run. eexists. split; [reflexivity|]. left. split; reflexivity. }
  rewrite tryCatch_unfold, bind_unfold, sickCall_findUnique_run. cbv beta iota.
  destruct (findUnique SickCall.id sickCallId (sickCalls w)) as [sickCall|] eqn:Hc.
  2:{ rewrite ret_run. eexists. split; [reflexivity|]. right. left. split; reflexivity. }
  rewrite bind_unfold.
  destruct (MatchingEngine.findCandidates env (SickCall.shiftId sickCall)
              (AuthUser.organizationId user) (SickCall.locationId sickCall) noRules w)
    as [[found|e] w0] eqn:Hf.
  - pose proof (findCandidates_Ok _ _ _ _ _ _ _ _ Hf) as (-> & _).
    rewrite ret_run. eexists. split; [reflexivity|].
    split; [reflexivity|]. split; [exists sickCall; split; [reflexivity | exact Hf]|].
    intros c Hin.
    destruct (findCandidates_In _ _ _ _ _ _ _ _ _ Hf Hin)
      as (shift & staff & c0 & _ & Hst & Hact & Hev & Hceq).
    apply evaluate_Some in Hev as (Hcid & _).
    exists staff. split; [exact Hst|].
    split; [rewrite Hceq, <- Hcid; reflexivity|].
    unfold MatchingEngine.isActiveStaffOf in Hact.
    apply andb_prop in Hact as [Hact Hactive]. apply andb_prop in Hact as [Horg Hrole].
    apply String.eqb_eq in Horg. split; [exact Horg|].
    split; [destruct (User.role staff); congruence | exact Hactive].
  - rewrite findCandidates_run in Hf.
    destruct (findUnique Shift.id (SickCall.shiftId sickCall) (shifts w)) eqn:Hs;
      [discriminate|].
    injection Hf as <- <-. rewrite ret_run. eexists. split; [reflexivity|].
    right. right. split; [reflexivity|]. exists sickCall. split; [reflexivity | exact Hs].
Qed.

(** X20.  The callback that [submit] defers never throws, and never touches
    users, shifts, responses or the audit log.  For an unknown sick call it
    does nothing.  When the step fails because the shift of the sick call
    is missing, the failure is swallowed after the status has been written:
    the sick call is left NOTIFYING, nobody is notified and no event is
    emitted. *)
Theorem runImmediate_swallows env sickCallId w :
  exists w',
    SickCalls.runImmediate env sickCallId w = (Ok tt, w')
    /\ users w' = users w /\ shifts w' = shifts w
    /\ shiftResponses w' = shiftResponses w /\ auditLogs w' = auditLogs w
    /\ (findUnique SickCall.id sickCallId (sickCalls w) = None -> w' = w)
    /\ (forall sickCall,
          findUnique SickCall.id sickCallId (sickCalls w) = Some sickCall ->
          findUnique Shift.id (SickCall.shiftId sickCall) (shifts w) = None ->
          findUnique SickCall.id sickCallId (sickCalls w')
            = Some (SickCalls.setSickCallStatus SickCallStatus.NOTIFYING sickCall)
          /\ notifications w' = notifications w
          /\ effects w'
             = effects w
               ++ [Updated (RSickCall
                     (SickCalls.setSickCallStatus SickCallStatus.NOTIFYING sickCall))]).
Proof.
  unfold SickCalls.runImmediate. rewrite tryCatch_unfold.
  destruct (findUnique SickCall.id sickCallId (sickCalls w)) as [sickCall|] eqn:Hc.
  - destruct (findUnique Shift.id (SickCall.shiftId sickCall) (shifts w)) as [shift|] eqn:Hs.
    + destruct (startShiftCoverageProcess_outcome env _ _ _ _ Hc Hs)
        as (top & w' & _ & Hrun & Hu & Hsh & Hrs & Hal & _).
      rewrite Hrun. exists w'. split; [reflexivity|].
      repeat (split; [assumption|]). split; [discriminate|].
      intros c E Hn. injection E as <-. rewrite Hs in Hn. discriminate.
    + destruct w as [us sh sc ns rs al es]. cbn [sickCalls shifts] in Hc, Hs.
      unfold SickCalls.startShiftCoverageProcess.
      step sickCall_findUnique_run. rewrite Hc.
      step shift_findUnique_run. rewrite Hs.
      step sickCall_update_run. rewrite Hc. world.
      rewrite ?bind_unfold, getTopCandidates_run, findCandidates_run. world.
      rewrite Hs. rewrite ret_run. eexists. split; [reflexivity|]. world.
      repeat (split; [reflexivity|]). split; [discriminate|].
      intros c E _. injection E as <-.
      rewrite (findUnique_updateMany SickCall.id) by (intros r; reflexivity).
      rewrite Hc. repeat split.
  - unfold SickCalls.startShiftCoverageProcess.
    rewrite bind_unfold, sickCall_findUnique_run. cbv beta iota. rewrite Hc, ret_run.
    exists w. do 5 (split; [reflexivity|]). split; [reflexivity|]. discriminate.
Qed.
